(** * NotePro: offline-first note storage, server repository and export

    A shallow embedding of the parts of the NotePro sources that the
    specification talks about:

    - [shared/schema.ts]          the [Note], [Tag] and [NoteTag] records;
    - [server/storage.ts]         the in-memory repository [MemStorage],
      with its user table;
    - [server/routes.ts]          [htmlToMarkdown], the export handler and
      the routes that update a note and relate notes and tags;
    - [client/lib/offlineStorage.ts]  the Local Store kept in [localStorage];
    - [client/hooks/useNotes.ts], [useTags.ts]  the query and mutation
      functions that wrap every intent in the remote / local fallback chain;
    - [client/lib/cloudinaryStorage.ts]  the (mock) cloud snapshot;
    - [client/lib/utils.ts]       [truncateText].

    Conventions.  JavaScript strings are modelled as [string], read as
    ASCII text: a character above 127 has no case and is not white space
    here, so a statement that rests on the case or on the trimming of a
    text asks for ASCII text.
    Numbers that hold ids are [Z], [Date] values are [Z] (milliseconds),
    JavaScript arrays are [list], and a [Map] is an insertion ordered
    association list.  Objects are modelled at their declared TypeScript
    types, with the optional [tags] property that a [NoteWithTags] adds to
    a [Note].  [console.log] calls and toasts are not part of the model. *)

From Stdlib Require Import ZArith List String Ascii Bool Lia QArith Qround.
From Stdlib Require Import DecimalString.
Import ListNotations.
Local Open Scope bool_scope.
Local Open Scope list_scope.
Local Open Scope string_scope.

(* ================================================================== *)
(** * JavaScript strings *)
(* ================================================================== *)

Module Js.

Definition LF : ascii := "010"%char.
Definition CR : ascii := "013"%char.
Definition QUOTE : ascii := "034"%char.

Definition str (a : ascii) : string := String a EmptyString.
Definition nl : string := str LF.

(** [s.startsWith(l)], returning what follows the prefix. *)
Fixpoint strip_prefix (l s : string) : option string :=
  match l with
  | EmptyString => Some s
  | String a l' =>
      match s with
      | String b s' => if Ascii.eqb a b then strip_prefix l' s' else None
      | EmptyString => None
      end
  end.

(** [s.includes(sub)] *)
Fixpoint includes (s sub : string) : bool :=
  match strip_prefix sub s with
  | Some _ => true
  | None =>
      match s with
      | String _ s' => includes s' sub
      | EmptyString => false
      end
  end.

Definition lower_char (a : ascii) : ascii :=
  let n := nat_of_ascii a in
  if (65 <=? n)%nat && (n <=? 90)%nat then ascii_of_nat (n + 32) else a.

(** Text of ASCII characters only (codes below 128).  On such text the
    functions below, [toLowerCase] and [trim], are the ones of JavaScript;
    beyond it they are not (JavaScript folds every cased letter and trims
    the no-break space and the other white space of Unicode), so the
    statements that rest on them ask for ASCII text. *)
Fixpoint ascii_text (s : string) : bool :=
  match s with
  | EmptyString => true
  | String a s' => (nat_of_ascii a <? 128)%nat && ascii_text s'
  end.

(** [s.toLowerCase()] on ASCII text. *)
Fixpoint toLowerCase (s : string) : string :=
  match s with
  | EmptyString => EmptyString
  | String a s' => String (lower_char a) (toLowerCase s')
  end.

(** White space as [trim] sees it in ASCII text: TAB, LF, VT, FF, CR and
    SPACE. *)
Definition is_space (a : ascii) : bool :=
  let n := nat_of_ascii a in
  ((9 <=? n)%nat && (n <=? 13)%nat) || (n =? 32)%nat.

Fixpoint trimStart (s : string) : string :=
  match s with
  | EmptyString => EmptyString
  | String a s' => if is_space a then trimStart s' else s
  end.

Fixpoint all_space (s : string) : bool :=
  match s with
  | EmptyString => true
  | String a s' => is_space a && all_space s'
  end.

Fixpoint trimEnd (s : string) : string :=
  match s with
  | EmptyString => EmptyString
  | String a s' => if all_space s then EmptyString else String a (trimEnd s')
  end.

(** [s.trim()] on ASCII text. *)
Definition trim (s : string) : string := trimEnd (trimStart s).

(** [String(n)] for a non-negative integer. *)
Definition of_nat (n : nat) : string := NilEmpty.string_of_uint (Nat.to_uint n).

(** The first occurrence of [pat] in [s]: the text before it and the text
    after it ([s.indexOf(pat)]). *)
Fixpoint split_first (pat s : string) : option (string * string) :=
  match strip_prefix pat s with
  | Some post => Some (EmptyString, post)
  | None =>
      match s with
      | String a s' =>
          match split_first pat s' with
          | Some (pre, post) => Some (String a pre, post)
          | None => None
          end
      | EmptyString => None
      end
  end.

(** The replacement text of [String.prototype.replace] when the pattern is
    a string (no capture groups): [$$] is a dollar sign, [$&] the matched
    text, [$`] the text before the match and [$'] the text after it; a
    dollar sign followed by anything else, [$1] included, stands for
    itself. *)
Fixpoint GetSubstitution (matched pre post repl : string) : string :=
  match repl with
  | EmptyString => EmptyString
  | String a r =>
      if Ascii.eqb a "$" then
        match r with
        | String b r' =>
            if Ascii.eqb b "$" then "$" ++ GetSubstitution matched pre post r'
            else if Ascii.eqb b "&" then matched ++ GetSubstitution matched pre post r'
            else if Ascii.eqb b "`" then pre ++ GetSubstitution matched pre post r'
            else if Ascii.eqb b "'" then post ++ GetSubstitution matched pre post r'
            else String a (GetSubstitution matched pre post r)
        | EmptyString => String a EmptyString
        end
      else String a (GetSubstitution matched pre post r)
  end.

(** [s.replace(pat, repl)] with a string pattern: the first occurrence
    only. *)
Definition replace_string (pat repl s : string) : string :=
  match split_first pat s with
  | Some (pre, post) => pre ++ GetSubstitution pat pre post repl ++ post
  | None => s
  end.

(** [c] does not occur in [s]. *)
Fixpoint lacks (c : ascii) (s : string) : bool :=
  match s with
  | EmptyString => true
  | String a s' => negb (Ascii.eqb c a) && lacks c s'
  end.

(** Text without markup, entities or line breaks. *)
Definition plain (s : string) : bool :=
  lacks "<" s && lacks "&" s && lacks LF s && lacks CR s.

End Js.

(* ================================================================== *)
(** * The regular expressions of the sources *)
(* ================================================================== *)

(** A backtracking matcher for the fragment of JavaScript regular
    expressions that [routes.ts] and [useNotes.ts] use: literal text, an
    optional character, a group of literal alternatives, and greedy or lazy
    repetition of a character class.  Groups are numbered from the left, as
    in JavaScript. *)
Module Regex.
Import Js.

Inductive cls : Type :=
| CAny                (* [.]      any character but a line terminator *)
| CAll                (* [[\s\S]] any character *)
| CNot (c : ascii)    (* [[^c]]   *)
| CChr (c : ascii).   (* [c]      *)

Inductive item : Type :=
| Lit (s : string)                       (* literal text *)
| OptChr (c : ascii)                     (* [c?] *)
| Alt (alts : list string)               (* [(a|b|c)], capturing *)
| Star (greedy capture : bool) (c : cls) (* [c*] or [c*?], maybe in a group *)
| Plus (c : cls).                        (* [c+] *)

Definition regex := list item.

(** Captured groups and the text left after the match. *)
Definition result : Type := list string * string.

Definition cls_test (c : cls) (a : ascii) : bool :=
  match c with
  | CAny => negb (Ascii.eqb a LF || Ascii.eqb a CR)
  | CAll => true
  | CNot x => negb (Ascii.eqb a x)
  | CChr x => Ascii.eqb a x
  end.

(** [c*?] followed by the continuation [k]: as few characters as
    possible. *)
Fixpoint star_lazy (c : cls) (k : string -> option result) (s : string)
  : option (string * result) :=
  match k s with
  | Some r => Some (EmptyString, r)
  | None =>
      match s with
      | String a s' =>
          if cls_test c a then
            match star_lazy c k s' with
            | Some (txt, r) => Some (String a txt, r)
            | None => None
            end
          else None
      | EmptyString => None
      end
  end.

(** [c*] followed by [k]: as many characters as possible, giving back one
    at a time. *)
Fixpoint star_greedy (c : cls) (k : string -> option result) (s : string)
  : option (string * result) :=
  let stop := match k s with
              | Some r => Some (EmptyString, r)
              | None => None
              end in
  match s with
  | String a s' =>
      if cls_test c a then
        match star_greedy c k s' with
        | Some (txt, r) => Some (String a txt, r)
        | None => stop
        end
      else stop
  | EmptyString => stop
  end.

Fixpoint first_alt (alts : list string) (k : string -> option result)
  (s : string) : option result :=
  match alts with
  | [] => None
  | a :: more =>
      match strip_prefix a s with
      | Some s' =>
          match k s' with
          | Some (caps, rest) => Some (a :: caps, rest)
          | None => first_alt more k s
          end
      | None => first_alt more k s
      end
  end.

(** Match [p] at the start of [s]. *)
Fixpoint match_here (p : regex) (s : string) : option result :=
  match p with
  | [] => Some ([], s)
  | Lit l :: p' =>
      match strip_prefix l s with
      | Some s' => match_here p' s'
      | None => None
      end
  | OptChr c :: p' =>
      match s with
      | String a s' =>
          if Ascii.eqb a c then
            match match_here p' s' with
            | Some r => Some r
            | None => match_here p' s
            end
          else match_here p' s
      | EmptyString => match_here p' s
      end
  | Alt alts :: p' => first_alt alts (match_here p') s
  | Star greedy capture c :: p' =>
      match (if greedy then star_greedy else star_lazy) c (match_here p') s with
      | Some (txt, (caps, rest)) =>
          Some (if capture then txt :: caps else caps, rest)
      | None => None
      end
  | Plus c :: p' =>
      match s with
      | String a s' =>
          if cls_test c a then
            match star_greedy c (match_here p') s' with
            | Some (_, r) => Some r
            | None => None
            end
          else None
      | EmptyString => None
      end
  end.

(** [s.replace(/p/g, f)]: every match, scanning from the left; [skip]
    counts the characters of the last match that are still to be passed
    over and [n] the matches made so far.  An empty match copies one
    character and moves on. *)
Fixpoint replace_from (p : regex) (f : nat -> list string -> string)
  (s : string) (skip n : nat) : string :=
  match s with
  | EmptyString =>
      match skip with
      | O => match match_here p EmptyString with
             | Some (caps, _) => f n caps
             | None => EmptyString
             end
      | S _ => EmptyString
      end
  | String a s' =>
      match skip with
      | S k => replace_from p f s' k n
      | O =>
          match match_here p s with
          | Some (caps, rest) =>
              f n caps ++
              match (length s - length rest)%nat with
              | O => String a (replace_from p f s' 0 (S n))
              | S k => replace_from p f s' k (S n)
              end
          | None => String a (replace_from p f s' 0 n)
          end
      end
  end.

(** A replacement string of the sources, split at its group
    references. *)
Inductive piece : Type :=
| Text (s : string)
| Group (n : nat).    (* [$n] *)

Fixpoint expand (t : list piece) (caps : list string) : string :=
  match t with
  | [] => EmptyString
  | Text s :: t' => s ++ expand t' caps
  | Group n :: t' => nth (n - 1) caps EmptyString ++ expand t' caps
  end.

(** [s.replace(/p/g, 'template')] *)
Definition replace_all (p : regex) (t : list piece) (s : string) : string :=
  replace_from p (fun _ caps => expand t caps) s 0 0.

(** [s.replace(/p/g, callback)] where the callback sees the number of
    matches made before. *)
Definition replace_all_with (p : regex) (f : nat -> list string -> string)
  (s : string) : string :=
  replace_from p f s 0 0.

(** [/p/.exec(s)] without the [g] flag: the leftmost match, as
    [match[0]] and the captured groups. *)
Fixpoint exec (p : regex) (s : string) : option (string * list string) :=
  match match_here p s with
  | Some (caps, rest) =>
      Some (substring 0 (length s - length rest) s, caps)
  | None =>
      match s with
      | String _ s' => exec p s'
      | EmptyString => None
      end
  end.

End Regex.


(* ================================================================== *)
(** * shared/schema.ts *)
(* ================================================================== *)

Module Schema.

Record Tag : Type := mkTag {
  tag_id : Z;
  name : string;
  color : string
}.

(** [Note], and [NoteWithTags = Note & { tags: Tag[] }] when [tags] is
    present.  The sources pass a [NoteWithTags] wherever a [Note] is
    declared and the spread syntax carries the extra property along, so one
    record stands for both.  [tagIds] is the property of the request body of
    an update that the spread in the update hooks copies into the note. *)
Record Note : Type := mkNote {
  id : Z;
  title : string;
  content : string;
  isFavorite : bool;
  isDeleted : bool;
  createdAt : Z;
  updatedAt : Z;
  tags : option (list Tag);
  tagIds : option (list Z)
}.

(** [InsertNote] after validation, with its four columns.  The schema also
    lets a body leave out a column that has a default, and [createNote]
    stores only what is sent: a note made from such a body lacks the column,
    is no [Note], and is outside this model. *)
Record InsertNote : Type := mkInsertNote {
  ins_title : string;
  ins_content : string;
  ins_isFavorite : bool;
  ins_isDeleted : bool
}.

(** [Partial<InsertNote> & { tagIds?: number[] }]: [None] is an absent
    property. *)
Record NotePatch : Type := mkNotePatch {
  p_title : option string;
  p_content : option string;
  p_isFavorite : option bool;
  p_isDeleted : option bool;
  p_tagIds : option (list Z)
}.

Record InsertTag : Type := mkInsertTag {
  ins_name : string;
  ins_color : string
}.

Record TagPatch : Type := mkTagPatch {
  p_name : option string;
  p_color : option string
}.

(** A row of [note_tags] on the server. *)
Record NoteTagRow : Type := mkNoteTagRow {
  nt_id : Z;
  nt_noteId : Z;
  nt_tagId : Z
}.

Definition or_else {A : Type} (o : option A) (d : A) : A :=
  match o with
  | Some a => a
  | None => d
  end.

Definition set_isDeleted (b : bool) (now : Z) (n : Note) : Note :=
  mkNote (id n) (title n) (content n) (isFavorite n) b
         (createdAt n) now (tags n) (tagIds n).

Definition set_isFavorite (b : bool) (now : Z) (n : Note) : Note :=
  mkNote (id n) (title n) (content n) b (isDeleted n)
         (createdAt n) now (tags n) (tagIds n).

Definition set_tags (ts : list Tag) (n : Note) : Note :=
  mkNote (id n) (title n) (content n) (isFavorite n) (isDeleted n)
         (createdAt n) (updatedAt n) (Some ts) (tagIds n).

(** [{ ...note, ...patch, updatedAt: now }] *)
Definition spread_note (n : Note) (p : NotePatch) (now : Z) : Note :=
  mkNote (id n)
         (or_else (p_title p) (title n))
         (or_else (p_content p) (content n))
         (or_else (p_isFavorite p) (isFavorite n))
         (or_else (p_isDeleted p) (isDeleted n))
         (createdAt n) now (tags n)
         (match p_tagIds p with
          | Some l => Some l
          | None => tagIds n
          end).

(** [{ ...tag, ...patch }] *)
Definition spread_tag (t : Tag) (p : TagPatch) : Tag :=
  mkTag (tag_id t) (or_else (p_name p) (name t)) (or_else (p_color p) (color t)).

End Schema.

(* ================================================================== *)
(** * server/storage.ts *)
(* ================================================================== *)

(** A JavaScript [Map] with number keys: [set] on a key that is present
    keeps its place, a new key goes to the end, and [values] come in
    insertion order. *)
Module JsMap.

Definition t (V : Type) : Type := list (Z * V).

Definition empty {V : Type} : t V := [].

Fixpoint get {V : Type} (m : t V) (k : Z) : option V :=
  match m with
  | [] => None
  | (k', v) :: m' => if (k' =? k)%Z then Some v else get m' k
  end.

Fixpoint set {V : Type} (m : t V) (k : Z) (v : V) : t V :=
  match m with
  | [] => [(k, v)]
  | (k', v') :: m' =>
      if (k' =? k)%Z then (k, v) :: m' else (k', v') :: set m' k v
  end.

Definition has {V : Type} (m : t V) (k : Z) : bool :=
  match get m k with
  | Some _ => true
  | None => false
  end.

(** [m.delete(k)]: the map without [k], and whether [k] was there. *)
Definition delete {V : Type} (m : t V) (k : Z) : t V * bool :=
  (filter (fun e => negb (fst e =? k)%Z) m, has m k).

Definition values {V : Type} (m : t V) : list V := map snd m.

Definition keys {V : Type} (m : t V) : list Z := map fst m.

End JsMap.

Module MemStorage.
Import Schema.

(** The repository, without its user table. *)
Record t : Type := mk {
  notes : JsMap.t Note;
  tags : JsMap.t Tag;
  noteTags : JsMap.t NoteTagRow;
  noteCurrentId : Z;
  tagCurrentId : Z;
  noteTagCurrentId : Z
}.

Definition createTag (insertTag : InsertTag) (s : t) : Tag * t :=
  let id := tagCurrentId s in
  let tag := mkTag id (ins_name insertTag) (ins_color insertTag) in
  (tag, mk (notes s) (JsMap.set (tags s) id tag) (noteTags s)
           (noteCurrentId s) (id + 1) (noteTagCurrentId s)).

Definition default_tags : list InsertTag :=
  [ mkInsertTag "Work" "#3B82F6";
    mkInsertTag "Personal" "#10B981";
    mkInsertTag "Ideas" "#8B5CF6";
    mkInsertTag "Meeting" "#8B5CF6";
    mkInsertTag "Planning" "#3B82F6" ].

(** [new MemStorage()] *)
Definition constructor : t :=
  fold_left (fun s tag => snd (createTag tag s)) default_tags
            (mk JsMap.empty JsMap.empty JsMap.empty 1 1 1).

Definition getNotes (includeDeleted : bool) (s : t) : list Note :=
  filter (fun note => includeDeleted || negb (isDeleted note))
         (JsMap.values (notes s)).

Definition getNote (id : Z) (s : t) : option Note := JsMap.get (notes s) id.

Definition createNote (insertNote : InsertNote) (now : Z) (s : t) : Note * t :=
  let id := noteCurrentId s in
  let note := mkNote id (ins_title insertNote) (ins_content insertNote)
                     (ins_isFavorite insertNote) (ins_isDeleted insertNote)
                     now now None None in
  (note, mk (JsMap.set (notes s) id note) (tags s) (noteTags s)
            (id + 1) (tagCurrentId s) (noteTagCurrentId s)).

Definition put_note (id : Z) (note : Note) (s : t) : t :=
  mk (JsMap.set (notes s) id note) (tags s) (noteTags s)
     (noteCurrentId s) (tagCurrentId s) (noteTagCurrentId s).

Definition updateNote (id : Z) (noteUpdate : NotePatch) (now : Z) (s : t)
  : option Note * t :=
  match JsMap.get (notes s) id with
  | None => (None, s)
  | Some note =>
      let updatedNote := spread_note note noteUpdate now in
      (Some updatedNote, put_note id updatedNote s)
  end.

Definition deleteNote (id : Z) (now : Z) (s : t) : bool * t :=
  match JsMap.get (notes s) id with
  | None => (false, s)
  | Some note =>
      let updatedNote := set_isDeleted true now note in
      (true, put_note id updatedNote s)
  end.

Definition restoreNote (id : Z) (now : Z) (s : t) : option Note * t :=
  match JsMap.get (notes s) id with
  | None => (None, s)
  | Some note =>
      let updatedNote := set_isDeleted false now note in
      (Some updatedNote, put_note id updatedNote s)
  end.

Definition toggleFavorite (id : Z) (now : Z) (s : t) : option Note * t :=
  match JsMap.get (notes s) id with
  | None => (None, s)
  | Some note =>
      let updatedNote := set_isFavorite (negb (isFavorite note)) now note in
      (Some updatedNote, put_note id updatedNote s)
  end.

Definition getTags (s : t) : list Tag := JsMap.values (tags s).

Definition getTag (id : Z) (s : t) : option Tag := JsMap.get (tags s) id.

Definition put_tags (m : JsMap.t Tag) (s : t) : t :=
  mk (notes s) m (noteTags s)
     (noteCurrentId s) (tagCurrentId s) (noteTagCurrentId s).

Definition put_noteTags (m : JsMap.t NoteTagRow) (next : Z) (s : t) : t :=
  mk (notes s) (tags s) m (noteCurrentId s) (tagCurrentId s) next.

Definition updateTag (id : Z) (tagUpdate : TagPatch) (s : t) : option Tag * t :=
  match JsMap.get (tags s) id with
  | None => (None, s)
  | Some tag =>
      let updatedTag := spread_tag tag tagUpdate in
      (Some updatedTag, put_tags (JsMap.set (tags s) id updatedTag) s)
  end.

Definition deleteTag (id : Z) (s : t) : bool * t :=
  let noteTagsToRemove :=
    filter (fun noteTag => (nt_tagId noteTag =? id)%Z) (JsMap.values (noteTags s)) in
  let remaining :=
    fold_left (fun m noteTag => fst (JsMap.delete m (nt_id noteTag)))
              noteTagsToRemove (noteTags s) in
  let (tags', found) := JsMap.delete (tags s) id in
  (found, mk (notes s) tags' remaining
             (noteCurrentId s) (tagCurrentId s) (noteTagCurrentId s)).

Definition getTagsForNote (noteId : Z) (s : t) : list Tag :=
  let tagIds :=
    map nt_tagId
        (filter (fun noteTag => (nt_noteId noteTag =? noteId)%Z)
                (JsMap.values (noteTags s))) in
  filter (fun tag => existsb (Z.eqb (tag_id tag)) tagIds) (JsMap.values (tags s)).

Definition getNoteWithTags (noteId : Z) (s : t) : option Note :=
  match JsMap.get (notes s) noteId with
  | None => None
  | Some note => Some (set_tags (getTagsForNote noteId s) note)
  end.

Definition getNotesWithTags (includeDeleted : bool) (s : t) : list Note :=
  map (fun note => set_tags (getTagsForNote (id note) s) note)
      (getNotes includeDeleted s).

Definition getNotesByTag (tagId : Z) (s : t) : list Note :=
  let noteIds :=
    map nt_noteId
        (filter (fun noteTag => (nt_tagId noteTag =? tagId)%Z)
                (JsMap.values (noteTags s))) in
  filter (fun note => existsb (Z.eqb (id note)) noteIds && negb (isDeleted note))
         (JsMap.values (notes s)).

Definition addTagToNote (noteId tagId : Z) (s : t) : t :=
  let exists_ :=
    existsb (fun noteTag => (nt_noteId noteTag =? noteId)%Z
                            && (nt_tagId noteTag =? tagId)%Z)
            (JsMap.values (noteTags s)) in
  if exists_ then s
  else
    let id := noteTagCurrentId s in
    put_noteTags (JsMap.set (noteTags s) id (mkNoteTagRow id noteId tagId))
                 (id + 1) s.

Definition removeTagFromNote (noteId tagId : Z) (s : t) : t :=
  match find (fun noteTag => (nt_noteId noteTag =? noteId)%Z
                             && (nt_tagId noteTag =? tagId)%Z)
             (JsMap.values (noteTags s)) with
  | Some noteTagToRemove =>
      put_noteTags (fst (JsMap.delete (noteTags s) (nt_id noteTagToRemove)))
                   (noteTagCurrentId s) s
  | None => s
  end.

Definition searchNotes (query : string) (s : t) : list Note :=
  match Js.trim query with
  | EmptyString => getNotesWithTags false s
  | _ =>
      let lowercaseQuery := Js.toLowerCase query in
      let matchingNotes :=
        filter (fun note =>
                  (Js.includes (Js.toLowerCase (title note)) lowercaseQuery
                   || Js.includes (Js.toLowerCase (content note)) lowercaseQuery)
                  && negb (isDeleted note))
               (JsMap.values (notes s)) in
      map (fun note => set_tags (getTagsForNote (id note) s) note) matchingNotes
  end.

(** One call of the repository, with the reading of the clock it makes. *)
Inductive call : Type :=
| CreateNote (insertNote : InsertNote) (now : Z)
| UpdateNote (id : Z) (noteUpdate : NotePatch) (now : Z)
| DeleteNote (id : Z) (now : Z)
| RestoreNote (id : Z) (now : Z)
| ToggleFavorite (id : Z) (now : Z)
| CreateTag (insertTag : InsertTag)
| UpdateTag (id : Z) (tagUpdate : TagPatch)
| DeleteTag (id : Z)
| AddTagToNote (noteId tagId : Z)
| RemoveTagFromNote (noteId tagId : Z).

(** The repository after the call, and the note it created, if any. *)
Definition step (c : call) (s : t) : option Note * t :=
  match c with
  | CreateNote n now => let (note, s') := createNote n now s in (Some note, s')
  | UpdateNote i p now => (None, snd (updateNote i p now s))
  | DeleteNote i now => (None, snd (deleteNote i now s))
  | RestoreNote i now => (None, snd (restoreNote i now s))
  | ToggleFavorite i now => (None, snd (toggleFavorite i now s))
  | CreateTag tg => (None, snd (createTag tg s))
  | UpdateTag i p => (None, snd (updateTag i p s))
  | DeleteTag i => (None, snd (deleteTag i s))
  | AddTagToNote n tg => (None, addTagToNote n tg s)
  | RemoveTagFromNote n tg => (None, removeTagFromNote n tg s)
  end.

(** The notes created by a sequence of calls, in order, and the final
    repository. *)
Fixpoint run (cs : list call) (s : t) : list Note * t :=
  match cs with
  | [] => ([], s)
  | c :: cs' =>
      let (created, s') := step c s in
      let (rest, s'') := run cs' s' in
      (match created with
       | Some n => n :: rest
       | None => rest
       end, s'')
  end.

(** Consecutive integers from [from] on. *)
Fixpoint consecutive (from : Z) (ids : list Z) : Prop :=
  match ids with
  | [] => True
  | i :: ids' => i = from /\ consecutive (from + 1)%Z ids'
  end.

(** [r] is [n] in every field but [isDeleted], which is false, and
    [updatedAt], which is [now]. *)
Definition restored_from (n r : Note) (now : Z) : Prop :=
  id r = id n /\ title r = title n /\ content r = content n
  /\ isFavorite r = isFavorite n /\ createdAt r = createdAt n
  /\ Schema.tags r = Schema.tags n /\ tagIds r = tagIds n
  /\ isDeleted r = false /\ updatedAt r = now.

(** The note of the scenario of the specification. *)
Definition trip_insert : InsertNote :=
  mkInsertNote "Trip" "<p>Pack bags</p>" false false.

End MemStorage.

(* ================================================================== *)
(** * server/routes.ts: export *)
(* ================================================================== *)

Module Routes.
Import Js Regex Schema.

(** [/<ul[^>]*>([\s\S]*?)<\/ul>/] and its siblings. *)
Definition ulPattern : regex :=
  [Lit "<ul"; Star true false (CNot ">"); Lit ">"; Star false true CAll; Lit "</ul>"].
Definition olPattern : regex :=
  [Lit "<ol"; Star true false (CNot ">"); Lit ">"; Star false true CAll; Lit "</ol>"].
Definition liPattern : regex :=
  [Lit "<li"; Star true false (CNot ">"); Lit ">"; Star false true CAll; Lit "</li>"].
Definition codePattern : regex :=
  [Lit "<pre><code"; Star true false (CNot ">"); Lit ">"; Star false true CAll;
   Lit "</code></pre>"].
Definition blockquotePattern : regex :=
  [Lit "<blockquote"; Star true false (CNot ">"); Lit ">"; Star false true CAll;
   Lit "</blockquote>"].

(** The four [while ((match = pattern.exec(result)) !== null)] loops.  A
    loop whose replacement puts the match back (a list item that holds
    [$&], say) does not end, so the loops take fuel. *)
Fixpoint convertUl (fuel : nat) (result : string) : option string :=
  match fuel with
  | O => None
  | S fuel' =>
      match exec ulPattern result with
      | None => Some result
      | Some (match0, caps) =>
          let list := nth 0 caps EmptyString in
          let liReplaced :=
            replace_all liPattern [Text "- "; Group 1; Text nl] list in
          convertUl fuel' (replace_string match0 liReplaced result)
      end
  end.

(** The callback of the ordered list returns its text as it is: the [$1]
    in it is not a reference to the group. *)
Fixpoint convertOl (fuel : nat) (result : string) : option string :=
  match fuel with
  | O => None
  | S fuel' =>
      match exec olPattern result with
      | None => Some result
      | Some (match0, caps) =>
          let list := nth 0 caps EmptyString in
          let liReplaced :=
            replace_all_with liPattern
              (fun index _ => of_nat (index + 1) ++ ". $1" ++ nl) list in
          convertOl fuel' (replace_string match0 liReplaced result)
      end
  end.

Fixpoint convertCodeBlocks (fuel : nat) (result : string) : option string :=
  match fuel with
  | O => None
  | S fuel' =>
      match exec codePattern result with
      | None => Some result
      | Some (match0, caps) =>
          let code := nth 0 caps EmptyString in
          convertCodeBlocks fuel'
            (replace_string match0 ("```" ++ nl ++ code ++ nl ++ "```") result)
      end
  end.

Fixpoint convertBlockquotes (fuel : nat) (result : string) : option string :=
  match fuel with
  | O => None
  | S fuel' =>
      match exec blockquotePattern result with
      | None => Some result
      | Some (match0, caps) =>
          let content := nth 0 caps EmptyString in
          convertBlockquotes fuel' (replace_string match0 ("> " ++ content) result)
      end
  end.

(** [\n\n\n+] *)
Definition blankLines : regex := [Lit (nl ++ nl); Plus (CChr LF)].

(** [text.replace(/\n\n\n+/g, '\n\n')] *)
Definition cleanNewlines (text : string) : string :=
  replace_all blankLines [Text (nl ++ nl)] text.

(** [<name[^>]*>(.*?)</name>] *)
Definition heading (name : string) : regex :=
  [Lit ("<" ++ name); Star true false (CNot ">"); Lit ">"; Star false true CAny;
   Lit ("</" ++ name ++ ">")].

(** [<name>(.*?)</name>] *)
Definition inline (name : string) : regex :=
  [Lit ("<" ++ name ++ ">"); Star false true CAny; Lit ("</" ++ name ++ ">")].

(** An opening or closing [div], [span] or [p] tag with anything up to the
    next [>]: the first pattern of the conversion. *)
Definition blockTags : regex :=
  [Lit "<"; OptChr "/"; Alt ["div"; "span"; "p"]; Star true true (CNot ">"); Lit ">"].

(** A link: the [href] up to its closing quote is group 1, other
    attributes are passed over, and the text up to [</a>] is group 2. *)
Definition anchor : regex :=
  [Lit ("<a href=" ++ str QUOTE); Star true true (CNot QUOTE); Lit (str QUOTE);
   Star true false (CNot ">"); Lit ">"; Star false true CAny; Lit "</a>"].

(** An image: the [src] up to its closing quote is group 1. *)
Definition image : regex :=
  [Lit ("<img src=" ++ str QUOTE); Star true true (CNot QUOTE); Lit (str QUOTE);
   Star true false (CNot ">"); Lit ">"].

(** The chain of [replace] calls that opens the main conversion. *)
Definition simple_tags (html : string) : string :=
  let s := replace_all blockTags [Text nl] html in
  let s := replace_all (heading "h1") [Text "# "; Group 1; Text nl] s in
  let s := replace_all (heading "h2") [Text "## "; Group 1; Text nl] s in
  let s := replace_all (heading "h3") [Text "### "; Group 1; Text nl] s in
  let s := replace_all (inline "strong") [Text "**"; Group 1; Text "**"] s in
  let s := replace_all (inline "b") [Text "**"; Group 1; Text "**"] s in
  let s := replace_all (inline "em") [Text "*"; Group 1; Text "*"] s in
  let s := replace_all (inline "i") [Text "*"; Group 1; Text "*"] s in
  let s := replace_all (inline "u") [Text "_"; Group 1; Text "_"] s in
  let s := replace_all (inline "s") [Text "~~"; Group 1; Text "~~"] s in
  let s := replace_all anchor [Text "["; Group 2; Text "]("; Group 1; Text ")"] s in
  let s := replace_all image [Text "![]("; Group 1; Text ")"] s in
  replace_all (inline "code") [Text "`"; Group 1; Text "`"] s.

(** [&lt;], [&gt;], [&quot;], [&amp;], in this order. *)
Definition entities (s : string) : string :=
  let s := replace_all [Lit "&lt;"] [Text "<"] s in
  let s := replace_all [Lit "&gt;"] [Text ">"] s in
  let s := replace_all [Lit "&quot;"] [Text (str QUOTE)] s in
  replace_all [Lit "&amp;"] [Text "&"] s.

(** [htmlToMarkdown(html)]; [None] when the fuel does not suffice. *)
Definition htmlToMarkdown (fuel : nat) (html : string) : option string :=
  match convertUl fuel (simple_tags html) with
  | None => None
  | Some markdown =>
      match convertOl fuel markdown with
      | None => None
      | Some markdown =>
          match convertCodeBlocks fuel markdown with
          | None => None
          | Some markdown =>
              match convertBlockquotes fuel markdown with
              | None => None
              | Some markdown => Some (trim (entities (cleanNewlines markdown)))
              end
          end
      end
  end.

(** [title.replace(/[^a-z0-9]/gi, '_')] *)
Definition filename_char (a : ascii) : ascii :=
  let n := nat_of_ascii a in
  if ((97 <=? n)%nat && (n <=? 122)%nat)
     || ((65 <=? n)%nat && (n <=? 90)%nat)
     || ((48 <=? n)%nat && (n <=? 57)%nat)
  then a else "_"%char.

Fixpoint sanitize (s : string) : string :=
  match s with
  | EmptyString => EmptyString
  | String a s' => String (filename_char a) (sanitize s')
  end.

(** What the export handler answers. *)
Inductive response : Type :=
| NotFound
| Send (contentType filename body : string)
| Json (filename : string) (note : Note).

(** The three branches of the handler, for the note it found; the format
    defaults to ['text'] when the query has none. *)
Definition respond (fuel : nat) (format : string) (note : Note) : option response :=
  let format := match format with
                | EmptyString => "text"
                | _ => format
                end in
  if String.eqb format "text" then
    Some (Send "text/plain" (sanitize (title note) ++ ".txt")
               (title note ++ nl ++ nl ++ content note))
  else if String.eqb format "markdown" then
    match htmlToMarkdown fuel (content note) with
    | None => None
    | Some markdown =>
        Some (Send "text/markdown" (sanitize (title note) ++ ".md")
                   ("# " ++ title note ++ nl ++ nl ++ markdown))
    end
  else Some (Json (sanitize (title note) ++ ".json") note).

(** [GET /notes/:id/export?format=...] on the repository [s]. *)
Definition export (fuel : nat) (id : Z) (format : string) (s : MemStorage.t)
  : option response :=
  match MemStorage.getNoteWithTags id s with
  | None => Some NotFound
  | Some note => respond fuel format note
  end.

End Routes.

(* ================================================================== *)
(** * client/lib/offlineStorage.ts and cloudinaryStorage.ts *)
(* ================================================================== *)

Module OfflineStorage.
Import Schema.

(** A relation row of the Local Store. *)
Record NoteTag : Type := mkNoteTag {
  noteId : Z;
  tagId : Z
}.

(** The keys of [localStorage] that the application uses: the three
    collections of the Local Store, the time of the last synchronisation,
    and the snapshots that [cloudinaryStorage.ts] keeps per user (under
    [cloudinary_<userId>_notes]).  Reading and writing are taken to
    succeed. *)
Record t : Type := mk {
  notes : list Note;
  tags : list Tag;
  noteTags : list NoteTag;
  lastSync : option Z;
  cloud : list (string * list Note)
}.

Definition empty : t := mk [] [] [] None [].

Definition getOfflineNotes (s : t) : list Note := notes s.
Definition getOfflineTags (s : t) : list Tag := tags s.
Definition getOfflineNoteTags (s : t) : list NoteTag := noteTags s.

Definition storeOfflineNotes (l : list Note) (s : t) : t :=
  mk l (tags s) (noteTags s) (lastSync s) (cloud s).
Definition storeOfflineTags (l : list Tag) (s : t) : t :=
  mk (notes s) l (noteTags s) (lastSync s) (cloud s).
Definition storeOfflineNoteTags (l : list NoteTag) (s : t) : t :=
  mk (notes s) (tags s) l (lastSync s) (cloud s).

(** The tags of a note: the tags whose id occurs in a relation of the
    note. *)
Definition tags_of (noteId_ : Z) (s : t) : list Tag :=
  let noteTagIds :=
    map tagId (filter (fun nt => (noteId nt =? noteId_)%Z) (getOfflineNoteTags s)) in
  filter (fun tag => existsb (Z.eqb (tag_id tag)) noteTagIds) (getOfflineTags s).

Definition getOfflineNoteWithTags (noteId_ : Z) (s : t) : option Note :=
  match find (fun n => (id n =? noteId_)%Z) (getOfflineNotes s) with
  | None => None
  | Some note => Some (set_tags (tags_of noteId_ s) note)
  end.

Definition getOfflineNotesWithTags (s : t) : list Note :=
  map (fun note => set_tags (tags_of (id note) s) note) (getOfflineNotes s).

(** [i = l.findIndex(same)], then [l[i] = x] when [i >= 0] and [l.push(x)]
    otherwise. *)
Fixpoint upsert {A : Type} (same : A -> bool) (x : A) (l : list A) : list A :=
  match l with
  | [] => [x]
  | y :: l' => if same y then x :: l' else y :: upsert same x l'
  end.

Definition saveOfflineNote (note : Note) (s : t) : t :=
  storeOfflineNotes
    (upsert (fun n => (id n =? id note)%Z) note (getOfflineNotes s)) s.

Definition deleteOfflineNote (noteId_ : Z) (s : t) : t :=
  let s := storeOfflineNotes
             (filter (fun n => negb (id n =? noteId_)%Z) (getOfflineNotes s)) s in
  storeOfflineNoteTags
    (filter (fun nt => negb (noteId nt =? noteId_)%Z) (getOfflineNoteTags s)) s.

Definition saveOfflineTag (tag : Tag) (s : t) : t :=
  storeOfflineTags
    (upsert (fun t => (tag_id t =? tag_id tag)%Z) tag (getOfflineTags s)) s.

Definition deleteOfflineTag (tagId_ : Z) (s : t) : t :=
  let s := storeOfflineTags
             (filter (fun t => negb (tag_id t =? tagId_)%Z) (getOfflineTags s)) s in
  storeOfflineNoteTags
    (filter (fun nt => negb (tagId nt =? tagId_)%Z) (getOfflineNoteTags s)) s.

Definition addOfflineTagToNote (noteId_ tagId_ : Z) (s : t) : t :=
  let noteTags := getOfflineNoteTags s in
  let exists_ :=
    existsb (fun nt => (noteId nt =? noteId_)%Z && (tagId nt =? tagId_)%Z) noteTags in
  if exists_ then s
  else storeOfflineNoteTags (noteTags ++ [mkNoteTag noteId_ tagId_])%list s.

Definition removeOfflineTagFromNote (noteId_ tagId_ : Z) (s : t) : t :=
  storeOfflineNoteTags
    (filter (fun nt => negb ((noteId nt =? noteId_)%Z && (tagId nt =? tagId_)%Z))
            (getOfflineNoteTags s)) s.

(** The test of [searchOfflineNotes], which the search hook repeats. *)
Definition matches (lowercaseQuery : string) (note : Note) : bool :=
  Js.includes (Js.toLowerCase (title note)) lowercaseQuery
  || Js.includes (Js.toLowerCase (content note)) lowercaseQuery
  || existsb (fun tag => Js.includes (Js.toLowerCase (name tag)) lowercaseQuery)
             (or_else (Schema.tags note) []).

Definition searchOfflineNotes (query : string) (s : t) : list Note :=
  let lowercaseQuery := Js.toLowerCase query in
  let notesWithTags := getOfflineNotesWithTags s in
  filter (matches lowercaseQuery) notesWithTags.

Definition setLastSyncTime (timestamp : Z) (s : t) : t :=
  mk (notes s) (tags s) (noteTags s) (Some timestamp) (cloud s).

Definition getLastSyncTime (s : t) : Z := or_else (lastSync s) 0%Z.

(** [cloudinaryStorage.ts]: [saveUserNotes] and [getUserNotes]. *)
Fixpoint put_snapshot (userId : string) (l : list Note)
  (c : list (string * list Note)) : list (string * list Note) :=
  match c with
  | [] => [(userId, l)]
  | (u, l') :: c' =>
      if String.eqb u userId then (userId, l) :: c'
      else (u, l') :: put_snapshot userId l c'
  end.

Definition saveUserNotes (userId : string) (l : list Note) (s : t) : t :=
  mk (notes s) (tags s) (noteTags s) (lastSync s) (put_snapshot userId l (cloud s)).

Definition getUserNotes (userId : string) (s : t) : option (list Note) :=
  match find (fun e => String.eqb (fst e) userId) (cloud s) with
  | Some (_, l) => Some l
  | None => None
  end.

(** Every relation row names a note and a tag of the store. *)
Definition relation_ok (s : t) (nt : NoteTag) : Prop :=
  In (noteId nt) (map id (notes s)) /\ In (tagId nt) (map tag_id (tags s)).

Definition consistent (s : t) : Prop :=
  forall nt, In nt (noteTags s) -> relation_ok s nt.

(** The operations of the Local Store that change it. *)
Inductive operation : Type :=
| SaveNote (note : Note)
| DeleteNote (noteId_ : Z)
| SaveTag (tag : Tag)
| DeleteTag (tagId_ : Z)
| AddNoteTagRelation (noteId_ tagId_ : Z)
| RemoveNoteTagRelation (noteId_ tagId_ : Z).

Definition apply (o : operation) (s : t) : t :=
  match o with
  | SaveNote n => saveOfflineNote n s
  | DeleteNote i => deleteOfflineNote i s
  | SaveTag tg => saveOfflineTag tg s
  | DeleteTag i => deleteOfflineTag i s
  | AddNoteTagRelation n tg => addOfflineTagToNote n tg s
  | RemoveNoteTagRelation n tg => removeOfflineTagFromNote n tg s
  end.

(** What [AddNoteTagRelation] needs and does not check itself. *)
Definition guarded (o : operation) (s : t) : Prop :=
  match o with
  | AddNoteTagRelation n tg =>
      In n (map id (notes s)) /\ In tg (map tag_id (tags s))
  | _ => True
  end.

End OfflineStorage.

(* ================================================================== *)
(** * client/hooks/useNotes.ts and useTags.ts *)
(* ================================================================== *)

(** The query and mutation functions run against [localStorage]; they
    return a value or throw, and what they wrote before throwing stays
    written. *)
Module Hooks.
Import Schema OfflineStorage.

Inductive outcome (A : Type) : Type :=
| Returned (a : A)
| Threw (message : string).
Arguments Returned {A} a.
Arguments Threw {A} message.

Definition M (A : Type) : Type := OfflineStorage.t -> outcome A * OfflineStorage.t.

Definition ret {A : Type} (a : A) : M A := fun s => (Returned a, s).

Definition bind {A B : Type} (m : M A) (k : A -> M B) : M B :=
  fun s =>
    match m s with
    | (Returned a, s') => k a s'
    | (Threw e, s') => (Threw e, s')
    end.

Definition throw {A : Type} (message : string) : M A := fun s => (Threw message, s).

(** [try { body } catch (error) { handler }] *)
Definition try_catch {A : Type} (body : M A) (handler : string -> M A) : M A :=
  fun s =>
    match body s with
    | (Returned a, s') => (Returned a, s')
    | (Threw e, s') => handler e s'
    end.

Definition read {A : Type} (f : OfflineStorage.t -> A) : M A :=
  fun s => (Returned (f s), s).

Definition write (f : OfflineStorage.t -> OfflineStorage.t) : M unit :=
  fun s => (Returned tt, f s).

Notation "x <- m ;; k" := (bind m (fun x => k))
  (at level 61, m at next level, right associativity).
Notation "m ;; k" := (bind m (fun _ => k))
  (at level 61, right associativity).

(** [for (const x of l) f(x)] *)
Fixpoint for_each {A : Type} (f : A -> OfflineStorage.t -> OfflineStorage.t)
  (l : list A) : M unit :=
  match l with
  | [] => ret tt
  | x :: l' => write (f x) ;; for_each f l'
  end.

(** What a request to the Remote API comes to: a response with a status in
    the 200 range and its JSON body, a response with another status and its
    text, or no response at all. *)
Inductive api (T : Type) : Type :=
| Ok (body : T)
| Rejected (status : Z) (text : string)
| Unreachable.
Arguments Ok {T} body.
Arguments Rejected {T} status text.
Arguments Unreachable {T}.

Definition status_text (status : Z) (text : string) : string :=
  NilEmpty.string_of_int (Z.to_int status) ++ ": " ++ text.

(** Modelled from the spec: [apiRequest] of [lib/queryClient.ts], which is
    not among the sources.  "Failure surfaces as a typed error carrying the
    HTTP-like status and message": the call returns the response when the
    request is accepted and throws otherwise, whether the server rejected
    the request or could not be reached. *)
Definition apiRequest {T : Type} (res : api T) : M T :=
  match res with
  | Ok body => ret body
  | Rejected status text => throw (status_text status text)
  | Unreachable => throw "Failed to fetch"
  end.

(** [fetch] followed by [if (!res.ok) throw new Error(await res.text())]
    and [res.json()]. *)
Definition fetch_json {T : Type} (res : api T) : M T :=
  match res with
  | Ok body => ret body
  | Rejected _ text => throw text
  | Unreachable => throw "Failed to fetch"
  end.

(** [Math.random()] is a fraction in the interval from 0 (included) to 1
    (excluded). *)
Definition is_random (random : Q) : Prop := (0 <= random)%Q /\ (random < 1)%Q.

(** [-Math.floor(Math.random() * 10000000)]; minus zero is zero.  The draw
    is a rational and the product is exact: the rounding of the product of
    two doubles can move the floor only for a draw within one unit in the
    last place of a multiple of one ten-millionth, and never for the
    draw 0. *)
Definition tempId (random : Q) : Z := (- Qfloor (random * (10000000 # 1)))%Z.

(** [s || d] on an optional string: absent and empty are both falsy. *)
Definition or_default (o : option string) (d : string) : string :=
  match o with
  | Some EmptyString => d
  | Some s => s
  | None => d
  end.

(** [note.includeDeleted ? true : !note.isDeleted] *)
Definition shown (includeDeleted : bool) (note : Note) : bool :=
  if includeDeleted then true else negb (isDeleted note).

(** The block that follows a successful write of a note when a user is
    signed in: push the whole Local Store to the cloud snapshot. *)
Definition cloud_sync (userId : option string) (now : Z) : M unit :=
  match userId with
  | Some uid =>
      allNotes <- read getOfflineNotesWithTags ;;
      write (saveUserNotes uid allNotes) ;;
      write (setLastSyncTime now)
  | None => ret tt
  end.

Definition useNotes (offline : bool) (userId : option string)
  (res : api (list Note)) (now : Z) (includeDeleted : bool) : M (list Note) :=
  if offline then
    offlineNotes <- read getOfflineNotesWithTags ;;
    ret (filter (shown includeDeleted) offlineNotes)
  else
    cloudNotes <- match userId with
                  | Some uid => read (getUserNotes uid)
                  | None => ret None
                  end ;;
    match cloudNotes with
    | Some cloudNotes =>
        for_each saveOfflineNote cloudNotes ;;
        write (setLastSyncTime now) ;;
        ret (filter (shown includeDeleted) cloudNotes)
    | None =>
        try_catch
          (notes <- fetch_json res ;;
           for_each saveOfflineNote notes ;;
           match userId with
           | Some uid => write (saveUserNotes uid notes) ;; write (setLastSyncTime now)
           | None => ret tt
           end ;;
           ret notes)
          (fun _ =>
             offlineNotes <- read getOfflineNotesWithTags ;;
             ret (filter (shown includeDeleted) offlineNotes))
    end.

(** [null] is [None]; a query without an id answers [null]. *)
Definition useNoteById (offline : bool) (res : api Note) (id : option Z)
  : M (option Note) :=
  match id with
  | None => ret None
  | Some id =>
      if offline then read (getOfflineNoteWithTags id)
      else
        try_catch
          (match res with
           | Rejected 404 _ => ret None
           | _ =>
               note <- fetch_json res ;;
               write (saveOfflineNote note) ;;
               ret (Some note)
           end)
          (fun _ => read (getOfflineNoteWithTags id))
  end.

(** The note that a create makes when it cannot reach the server. *)
Definition offlineNote_of (note : NotePatch) (now : Z) (random : Q) : Note :=
  mkNote (tempId random)
         (or_default (p_title note) "Untitled")
         (or_default (p_content note) EmptyString)
         (or_else (p_isFavorite note) false)
         (or_else (p_isDeleted note) false)
         now now None None.

Definition create_offline (note : NotePatch) (now : Z) (random : Q) : M Note :=
  let offlineNote := offlineNote_of note now random in
  write (saveOfflineNote offlineNote) ;;
  ret offlineNote.

Definition useCreateNote (offline : bool) (userId : option string)
  (res : api Note) (now : Z) (random : Q) (note : NotePatch) : M Note :=
  if offline then create_offline note now random
  else
    try_catch
      (createdNote <- apiRequest res ;;
       write (saveOfflineNote createdNote) ;;
       cloud_sync userId now ;;
       ret createdNote)
      (fun _ => create_offline note now random).

(** The block that every mutation of an existing note runs when offline and
    again in its [catch]: look the note up in the Local Store, throw
    [missing] when it is not there, else save and return the changed
    note. *)
Definition change_offline (missing : string) (id : Z) (change : Note -> Note)
  : M Note :=
  offlineNote <- read (getOfflineNoteWithTags id) ;;
  match offlineNote with
  | None => throw missing
  | Some offlineNote =>
      let changed := change offlineNote in
      write (saveOfflineNote changed) ;;
      ret changed
  end.

Definition useUpdateNote (offline : bool) (userId : option string)
  (res : api Note) (now : Z) (id : Z) (note : NotePatch) : M Note :=
  if offline then
    change_offline "Note not found in offline storage" id
                   (fun offlineNote => spread_note offlineNote note now)
  else
    try_catch
      (updatedNote <- apiRequest res ;;
       write (saveOfflineNote updatedNote) ;;
       cloud_sync userId now ;;
       ret updatedNote)
      (fun _ =>
         change_offline "Failed to update note and note not found in offline storage"
                        id (fun offlineNote => spread_note offlineNote note now)).

(** The hook reads the body of the answer as a note, but the handler of
    the server answers [{ success: true }] to a delete that succeeds.  The
    hook then saves that object, with [isDeleted] and [updatedAt] added, as
    a row of the Local Store, and returns it: the row has no id, title or
    content, and the note itself is left unmarked.  Such a row is no [Note],
    and a store that holds one is outside this model (the offline search
    throws on it).  So the request of this hook has no successful answer
    here: [res] is a failure, and the model covers the offline branch and
    the catch block. *)
Definition useDeleteNote (offline : bool) (res : api Empty_set) (now : Z) (id : Z)
  : M Note :=
  if offline then
    change_offline "Note not found in offline storage" id (set_isDeleted true now)
  else
    try_catch
      (deletedNote <- apiRequest res ;;
       match deletedNote return M Note with end)
      (fun _ =>
         change_offline "Failed to delete note and note not found in offline storage"
                        id (set_isDeleted true now)).

Definition useRestoreNote (offline : bool) (res : api Note) (now : Z) (id : Z)
  : M Note :=
  if offline then
    change_offline "Note not found in offline storage" id (set_isDeleted false now)
  else
    try_catch
      (restoredNote <- apiRequest res ;;
       write (saveOfflineNote (set_isDeleted false now restoredNote)) ;;
       ret restoredNote)
      (fun _ =>
         change_offline "Failed to restore note and note not found in offline storage"
                        id (set_isDeleted false now)).

Definition toggled (now : Z) (offlineNote : Note) : Note :=
  set_isFavorite (negb (isFavorite offlineNote)) now offlineNote.

Definition useToggleFavorite (offline : bool) (res : api Note) (now : Z) (id : Z)
  : M Note :=
  if offline then
    change_offline "Note not found in offline storage" id (toggled now)
  else
    try_catch
      (updatedNote <- apiRequest res ;;
       write (saveOfflineNote updatedNote) ;;
       ret updatedNote)
      (fun _ =>
         change_offline
           "Failed to toggle favorite and note not found in offline storage"
           id (toggled now)).

Definition search_offline (query : string) : M (list Note) :=
  notesWithTags <- read getOfflineNotesWithTags ;;
  ret (filter (matches (Js.toLowerCase query)) notesWithTags).

Definition useSearchNotes (offline : bool) (res : api (list Note)) (query : string)
  : M (list Note) :=
  if offline then search_offline query
  else try_catch (fetch_json res) (fun _ => search_offline query).

Definition useTags (offline : bool) (res : api (list Tag)) : M (list Tag) :=
  if offline then read getOfflineTags
  else
    try_catch
      (tags <- fetch_json res ;;
       for_each saveOfflineTag tags ;;
       ret tags)
      (fun _ => read getOfflineTags).

Definition create_tag_offline (tag : TagPatch) (random : Q) : M Tag :=
  let offlineTag := mkTag (tempId random)
                          (or_default (p_name tag) "Untitled Tag")
                          (or_default (p_color tag) "#6e56cf") in
  write (saveOfflineTag offlineTag) ;;
  ret offlineTag.

Definition useCreateTag (offline : bool) (res : api Tag) (random : Q)
  (tag : TagPatch) : M Tag :=
  if offline then create_tag_offline tag random
  else
    try_catch
      (createdTag <- apiRequest res ;;
       write (saveOfflineTag createdTag) ;;
       ret createdTag)
      (fun _ => create_tag_offline tag random).

Definition find_tag (id : Z) (s : OfflineStorage.t) : option Tag :=
  find (fun t => (tag_id t =? id)%Z) (getOfflineTags s).

Definition update_tag_offline (missing : string) (id : Z) (tag : TagPatch) : M Tag :=
  existingTag <- read (find_tag id) ;;
  match existingTag with
  | None => throw missing
  | Some existingTag =>
      let updatedTag := spread_tag existingTag tag in
      write (saveOfflineTag updatedTag) ;;
      ret updatedTag
  end.

Definition useUpdateTag (offline : bool) (res : api Tag) (id : Z) (tag : TagPatch)
  : M Tag :=
  if offline then update_tag_offline "Tag not found in offline storage" id tag
  else
    try_catch
      (updatedTag <- apiRequest res ;;
       write (saveOfflineTag updatedTag) ;;
       ret updatedTag)
      (fun _ =>
         update_tag_offline
           "Failed to update tag and tag not found in offline storage" id tag).

(** What the relation and tag-deletion hooks return: [{ success: true }]
    when they worked on the Local Store, the body of the answer
    otherwise. *)
Inductive ack (T : Type) : Type :=
| Success
| Body (body : T).
Arguments Success {T}.
Arguments Body {T} body.

Definition delete_tag_offline {T : Type} (missing : string) (id : Z) : M (ack T) :=
  existingTag <- read (find_tag id) ;;
  match existingTag with
  | None => throw missing
  | Some _ => write (deleteOfflineTag id) ;; ret Success
  end.

Definition useDeleteTag {T : Type} (offline : bool) (res : api T) (id : Z)
  : M (ack T) :=
  if offline then delete_tag_offline "Tag not found in offline storage" id
  else
    try_catch
      (result <- apiRequest res ;;
       write (deleteOfflineTag id) ;;
       ret (Body result))
      (fun _ =>
         delete_tag_offline
           "Failed to delete tag and tag not found in offline storage" id).

(** The two checks that come before a change of the relations. *)
Definition relation_offline {T : Type} (noteId_ tagId_ : Z)
  (change : Z -> Z -> OfflineStorage.t -> OfflineStorage.t) : M (ack T) :=
  note <- read (getOfflineNoteWithTags noteId_) ;;
  match note with
  | None => throw "Note not found in offline storage"
  | Some _ =>
      tag <- read (find_tag tagId_) ;;
      match tag with
      | None => throw "Tag not found in offline storage"
      | Some _ => write (change noteId_ tagId_) ;; ret Success
      end
  end.

Definition useAddTagToNote {T : Type} (offline : bool) (res : api T)
  (noteId_ tagId_ : Z) : M (ack T) :=
  if offline then relation_offline noteId_ tagId_ addOfflineTagToNote
  else
    try_catch
      (result <- apiRequest res ;;
       write (addOfflineTagToNote noteId_ tagId_) ;;
       ret (Body result))
      (fun _ => relation_offline noteId_ tagId_ addOfflineTagToNote).

Definition useRemoveTagFromNote {T : Type} (offline : bool) (res : api T)
  (noteId_ tagId_ : Z) : M (ack T) :=
  if offline then relation_offline noteId_ tagId_ removeOfflineTagFromNote
  else
    try_catch
      (result <- apiRequest res ;;
       write (removeOfflineTagFromNote noteId_ tagId_) ;;
       ret (Body result))
      (fun _ => relation_offline noteId_ tagId_ removeOfflineTagFromNote).

(** ** Export on the client *)

Inductive export_format : Type := FormatText | FormatJson | FormatMarkdown.

Definition format_name (format : export_format) : string :=
  match format with
  | FormatText => "text"
  | FormatJson => "json"
  | FormatMarkdown => "markdown"
  end.

Definition tagged (name : string) : Regex.regex :=
  [Regex.Lit ("<" ++ name ++ ">"); Regex.Star false true Regex.CAny;
   Regex.Lit ("</" ++ name ++ ">")].

(** A link with [href] as its only attribute: two lazy groups. *)
Definition link : Regex.regex :=
  [Regex.Lit ("<a href=" ++ Js.str Js.QUOTE); Regex.Star false true Regex.CAny;
   Regex.Lit (Js.str Js.QUOTE ++ ">"); Regex.Star false true Regex.CAny;
   Regex.Lit "</a>"].

(** "Basic HTML to Markdown conversion for offline mode" *)
Definition basic_markdown (content : string) : string :=
  let nl := Js.nl in
  let markdown := content in
  let markdown := Regex.replace_all (tagged "h1")
                    [Regex.Text "# "; Regex.Group 1; Regex.Text (nl ++ nl)] markdown in
  let markdown := Regex.replace_all (tagged "h2")
                    [Regex.Text "## "; Regex.Group 1; Regex.Text (nl ++ nl)] markdown in
  let markdown := Regex.replace_all (tagged "h3")
                    [Regex.Text "### "; Regex.Group 1; Regex.Text (nl ++ nl)] markdown in
  let markdown := Regex.replace_all (tagged "p")
                    [Regex.Group 1; Regex.Text (nl ++ nl)] markdown in
  let markdown := Regex.replace_all (tagged "strong")
                    [Regex.Text "**"; Regex.Group 1; Regex.Text "**"] markdown in
  let markdown := Regex.replace_all (tagged "em")
                    [Regex.Text "*"; Regex.Group 1; Regex.Text "*"] markdown in
  let markdown := Regex.replace_all link
                    [Regex.Text "["; Regex.Group 2; Regex.Text "](";
                     Regex.Group 1; Regex.Text ")"] markdown in
  let markdown := Regex.replace_all (tagged "ul")
                    [Regex.Group 1; Regex.Text nl] markdown in
  Regex.replace_all (tagged "li")
    [Regex.Text "- "; Regex.Group 1; Regex.Text nl] markdown.

(** What a call of [exportNote] hands to the browser: a file made on the
    client, a link to the export route of the server, or the toast "Export
    failed". *)
Inductive exported : Type :=
| Download (filename mimeType content : string)
| Link (href filename : string)
| ExportFailed (message : string).

Definition extension (format : export_format) : string :=
  match format with
  | FormatText => "txt"
  | FormatMarkdown => "md"
  | FormatJson => "json"
  end.

Definition id_text (id : Z) : string := NilEmpty.string_of_int (Z.to_int id).

Section ExportNote.

(** [stripHtml] of [lib/utils.ts] reads [textContent] off the browser's
    HTML parser, and [stringify] is [JSON.stringify(note, null, 2)]; both
    belong to the platform. *)
Variable stripHtml : string -> string.
Variable stringify : Note -> string.

(** The text of the file that the client makes from a note. *)
Definition render_offline (format : export_format) (offlineNote : Note) : string :=
  match format with
  | FormatText => stripHtml (content offlineNote)
  | FormatMarkdown => basic_markdown (content offlineNote)
  | FormatJson => stringify offlineNote
  end.

Definition mime (format : export_format) : string :=
  match format with
  | FormatText => "text/plain"
  | FormatMarkdown => "text/markdown"
  | FormatJson => "application/json"
  end.

Definition exportNote (offline : bool) (id : Z) (format : export_format)
  (s : OfflineStorage.t) : exported :=
  if offline then
    match getOfflineNoteWithTags id s with
    | None => ExportFailed "Note not found in offline storage"
    | Some offlineNote =>
        Download ("note-" ++ id_text id ++ "." ++ extension format)
                 (mime format) (render_offline format offlineNote)
    end
  else
    Link ("/api/notes/" ++ id_text id ++ "/export?format=" ++ format_name format)
         ("note-" ++ id_text id ++ "." ++ extension format).

End ExportNote.

(** ** Intents *)

(** The intents of the orchestrator, one per hook. *)
Inductive intent : Type :=
| ListNotes (includeDeleted : bool)
| GetNote (id : option Z)
| SearchNotes (query : string)
| ListTags
| CreateNote (note : NotePatch)
| UpdateNote (id : Z) (note : NotePatch)
| DeleteNote (id : Z)
| RestoreNote (id : Z)
| ToggleFavorite (id : Z)
| CreateTag (tag : TagPatch)
| UpdateTag (id : Z) (tag : TagPatch)
| DeleteTag (id : Z)
| AddTagToNote (noteId_ tagId_ : Z)
| RemoveTagFromNote (noteId_ tagId_ : Z).

Definition is_write (i : intent) : bool :=
  match i with
  | ListNotes _ | GetNote _ | SearchNotes _ | ListTags => false
  | _ => true
  end.

Inductive value : Type :=
| Notes (l : list Note)
| NoteOrNull (o : option Note)
| ANote (n : Note)
| Tags (l : list Tag)
| ATag (t : Tag)
| Acked.

Definition fmap {A B : Type} (f : A -> B) (m : M A) : M B :=
  a <- m ;; ret (f a).

(** The two ways in which a request fails. *)
Inductive failure : Type :=
| NetworkUnreachable
| ApplicationRejected (status : Z) (text : string).

Definition failed {T : Type} (f : failure) : api T :=
  match f with
  | NetworkUnreachable => Unreachable
  | ApplicationRejected status text => Rejected status text
  end.

(** The device is offline, or it is online and every request fails in the
    given way. *)
Inductive network : Type :=
| Offline
| Failing (f : failure).

Definition is_offline (net : network) : bool :=
  match net with
  | Offline => true
  | Failing _ => false
  end.

Definition answer {T : Type} (net : network) : api T :=
  match net with
  | Offline => Unreachable
  | Failing f => failed f
  end.

Definition acked {T : Type} (m : M (ack T)) : M value := fmap (fun _ => Acked) m.

(** Run the hook of an intent on a network that gives no successful
    answer. *)
Definition run (net : network) (userId : option string) (now : Z) (random : Q)
  (i : intent) : M value :=
  let offline := is_offline net in
  match i with
  | ListNotes includeDeleted =>
      fmap Notes (useNotes offline userId (answer net) now includeDeleted)
  | GetNote id => fmap NoteOrNull (useNoteById offline (answer net) id)
  | SearchNotes query => fmap Notes (useSearchNotes offline (answer net) query)
  | ListTags => fmap Tags (useTags offline (answer net))
  | CreateNote note =>
      fmap ANote (useCreateNote offline userId (answer net) now random note)
  | UpdateNote id note =>
      fmap ANote (useUpdateNote offline userId (answer net) now id note)
  | DeleteNote id => fmap ANote (useDeleteNote offline (answer net) now id)
  | RestoreNote id => fmap ANote (useRestoreNote offline (answer net) now id)
  | ToggleFavorite id => fmap ANote (useToggleFavorite offline (answer net) now id)
  | CreateTag tag => fmap ATag (useCreateTag offline (answer net) random tag)
  | UpdateTag id tag => fmap ATag (useUpdateTag offline (answer net) id tag)
  | DeleteTag id => acked (@useDeleteTag unit offline (answer net) id)
  | AddTagToNote n tg => acked (@useAddTagToNote unit offline (answer net) n tg)
  | RemoveTagFromNote n tg =>
      acked (@useRemoveTagFromNote unit offline (answer net) n tg)
  end.

(** The note or tag that the intent works on is in the Local Store. *)
Definition target_present (i : intent) (s : OfflineStorage.t) : bool :=
  let has_note id := match getOfflineNoteWithTags id s with
                     | Some _ => true
                     | None => false
                     end in
  let has_tag id := match find_tag id s with
                    | Some _ => true
                    | None => false
                    end in
  match i with
  | UpdateNote id _ | DeleteNote id | RestoreNote id | ToggleFavorite id => has_note id
  | UpdateTag id _ | DeleteTag id => has_tag id
  | AddTagToNote n tg | RemoveTagFromNote n tg => has_note n && has_tag tg
  | _ => true
  end.

Definition is_returned {A : Type} (o : outcome A) : bool :=
  match o with
  | Returned _ => true
  | Threw _ => false
  end.

(** Two outcomes agree when they return the same value or both throw. *)
Definition agree {A : Type} (o1 o2 : outcome A) : Prop :=
  match o1, o2 with
  | Returned a, Returned b => a = b
  | Threw _, Threw _ => True
  | _, _ => False
  end.

(** The collections of the Local Store. *)
Definition collections (s : OfflineStorage.t) : list Note * list Tag * list NoteTag :=
  (notes s, OfflineStorage.tags s, noteTags s).

(** No snapshot of the signed-in user is kept under its cloud key. *)
Definition no_snapshot (userId : option string) (s : OfflineStorage.t) : Prop :=
  match userId with
  | Some uid => getUserNotes uid s = None
  | None => True
  end.

End Hooks.

(* ================================================================== *)
(** * Scenarios *)
(* ================================================================== *)

(** Concrete notes, stores and requests that the statements below are
    run on. *)
Module Scenarios.
Import Schema.

(** A Local Store that holds note 10 and tag 1, and no relation. *)
Definition one_note_one_tag : OfflineStorage.t :=
  OfflineStorage.mk
    [mkNote 10 "Agenda" "<p>Monday</p>" false false 100 100 None None]
    [mkTag 1 "Work" "#3B82F6"] [] None [].

(** A Local Store whose only note is in the trash. *)
Definition trashed : Note :=
  mkNote 1 "Old plan" "<p>dropped</p>" false true 100 200 None None.

Definition only_trash : OfflineStorage.t :=
  OfflineStorage.mk [trashed] [] [] None [].

(** A Local Store whose only note has no blank in its title or content. *)
Definition only_agenda : OfflineStorage.t :=
  OfflineStorage.mk [mkNote 2 "Agenda" "Monday" false false 100 100 None None]
                    [] [] None [].

(** The body of a create request, and the note the server answers with. *)
Definition trip_request : NotePatch :=
  mkNotePatch (Some "Trip") (Some "<p>Pack bags</p>") None None None.

Definition trip_created : Note :=
  mkNote 1 "Trip" "<p>Pack bags</p>" false false 5000 5000 (Some []) None.

(** The same store on a device whose user "u1" has an older snapshot in
    the cloud, made when the note was still called "Draft". *)
Definition with_snapshot : OfflineStorage.t :=
  OfflineStorage.mk
    [mkNote 10 "Agenda" "<p>Monday</p>" false false 100 200 None None]
    [mkTag 1 "Work" "#3B82F6"] [] None
    [("u1", [mkNote 10 "Draft" "<p>Monday</p>" false false 100 100 (Some []) None])].

(** A change of title. *)
Definition retitle : NotePatch :=
  mkNotePatch (Some "Renamed") None None None None.

(** The repository in which the note of the scenario has the first of the
    default tags, and the note as the server then sends it. *)
Definition tagged_repository : MemStorage.t :=
  MemStorage.addTagToNote 1 1
    (snd (MemStorage.createNote MemStorage.trip_insert 5000 MemStorage.constructor)).

Definition trip_served : Note :=
  mkNote 1 "Trip" "<p>Pack bags</p>" false false 5000 5000
         (Some [mkTag 1 "Work" "#3B82F6"]) None.

(** The Local Store of a client that has fetched that note by id, online,
    and nothing else. *)
Definition fetched_store : OfflineStorage.t :=
  snd (Hooks.useNoteById false (Hooks.Ok trip_served) (Some 1%Z) OfflineStorage.empty).

End Scenarios.

(* ================================================================== *)
(** * server/storage.ts: the user table *)
(* ================================================================== *)

(** The user methods of [MemStorage] work on [users] and [userCurrentId]
    alone; they are modelled on these two fields. *)
Module Users.

Record User : Type := mkUser {
  user_id : Z;
  username : string;
  password : string
}.

Record InsertUser : Type := mkInsertUser {
  ins_username : string;
  ins_password : string
}.

Record t : Type := mk {
  users : JsMap.t User;
  userCurrentId : Z
}.

(** The two fields as the constructor of [MemStorage] sets them. *)
Definition constructor : t := mk JsMap.empty 1.

Definition getUser (id : Z) (s : t) : option User := JsMap.get (users s) id.

Definition getUserByUsername (name : string) (s : t) : option User :=
  find (fun user => String.eqb (username user) name) (JsMap.values (users s)).

Definition createUser (insertUser : InsertUser) (s : t) : User * t :=
  let id := userCurrentId s in
  let user := mkUser id (ins_username insertUser) (ins_password insertUser) in
  (user, mk (JsMap.set (users s) id user) (id + 1)).

(** Every key of the table is below the counter. *)
Definition below_counter (s : t) : Prop :=
  forall k, In k (JsMap.keys (users s)) -> (k < userCurrentId s)%Z.

(** The table after a sequence of [createUser] calls on a new repository. *)
Definition after (inserts : list InsertUser) : t :=
  fold_left (fun s insertUser => snd (createUser insertUser s)) inserts constructor.

(** The users that [inserts] describe, with ids counting up from [from]. *)
Fixpoint numbered (from : Z) (inserts : list InsertUser) : list (Z * User) :=
  match inserts with
  | [] => []
  | insertUser :: rest =>
      (from, mkUser from (ins_username insertUser) (ins_password insertUser))
      :: numbered (from + 1) rest
  end.

(** No insert of the list has the user name [name]. *)
Definition unused (name : string) (inserts : list InsertUser) : bool :=
  forallb (fun insertUser => negb (String.eqb (ins_username insertUser) name)) inserts.

End Users.

(* ================================================================== *)
(** * The shape of a repository and of a Local Store *)
(* ================================================================== *)

Module RepositoryShape.
Import Schema.

(** Every value sits under its own id. *)
Definition keyed {V : Type} (key_of : V -> Z) (m : JsMap.t V) : Prop :=
  forall k v, In (k, v) m -> key_of v = k.

(** Every key is below the counter [next]. *)
Definition below {V : Type} (next : Z) (m : JsMap.t V) : Prop :=
  forall k, In k (JsMap.keys m) -> (k < next)%Z.

Definition table {V : Type} (key_of : V -> Z) (next : Z) (m : JsMap.t V) : Prop :=
  keyed key_of m /\ NoDup (JsMap.keys m) /\ below next m.

Definition pair_of (r : NoteTagRow) : Z * Z := (nt_noteId r, nt_tagId r).

(** The three maps hold their values under their ids, below their counters,
    and no pair of a note and a tag is related twice. *)
Definition well_formed (s : MemStorage.t) : Prop :=
  table id (MemStorage.noteCurrentId s) (MemStorage.notes s)
  /\ table tag_id (MemStorage.tagCurrentId s) (MemStorage.tags s)
  /\ table nt_id (MemStorage.noteTagCurrentId s) (MemStorage.noteTags s)
  /\ NoDup (map pair_of (JsMap.values (MemStorage.noteTags s))).

(** A row relates the note and the tag. *)
Definition relates (noteId tagId : Z) (r : NoteTagRow) : bool :=
  (nt_noteId r =? noteId)%Z && (nt_tagId r =? tagId)%Z.

Definition related (s : MemStorage.t) (noteId tagId : Z) : bool :=
  existsb (relates noteId tagId) (JsMap.values (MemStorage.noteTags s)).

(** [ids.includes(id)] *)
Definition includes_id (ids : list Z) (i : Z) : bool := existsb (Z.eqb i) ids.

(** The titles and contents of the notes are ASCII text. *)
Definition ascii_repository (s : MemStorage.t) : bool :=
  forallb (fun note => Js.ascii_text (title note) && Js.ascii_text (content note))
          (JsMap.values (MemStorage.notes s)).

End RepositoryShape.

Module StoreShape.
Import Schema OfflineStorage.

(** No two notes, and no two tags, of the Local Store share an id, and no
    relation row is there twice. *)
Definition unique (s : OfflineStorage.t) : Prop :=
  NoDup (map id (notes s)) /\ NoDup (map tag_id (OfflineStorage.tags s))
  /\ NoDup (noteTags s).

(** [sub] occurs in [s]. *)
Definition occurs (sub s : string) : Prop :=
  exists before after, s = before ++ sub ++ after.

(** The text of a note or of one of its tags holds the query, whatever the
    case of either. *)
Definition holds (query : string) (note : Note) : Prop :=
  occurs (Js.toLowerCase query) (Js.toLowerCase (title note))
  \/ occurs (Js.toLowerCase query) (Js.toLowerCase (content note))
  \/ exists tag, In tag (or_else (Schema.tags note) [])
                 /\ occurs (Js.toLowerCase query) (Js.toLowerCase (name tag)).

Definition related (s : OfflineStorage.t) (noteId_ tagId_ : Z) : bool :=
  existsb (fun nt => (noteId nt =? noteId_)%Z && (tagId nt =? tagId_)%Z) (noteTags s).

(** The titles and contents of the notes and the names of the tags are
    ASCII text. *)
Definition ascii_store (s : OfflineStorage.t) : bool :=
  forallb (fun note => Js.ascii_text (title note) && Js.ascii_text (content note))
          (notes s)
  && forallb (fun tag => Js.ascii_text (name tag)) (OfflineStorage.tags s).

End StoreShape.

Module HookShape.
Import Schema OfflineStorage Hooks.


(** The notes that the offline list of notes shows. *)
Definition listed (s : OfflineStorage.t) : list Note :=
  filter (shown false) (getOfflineNotesWithTags s).

(** The draw falls in the cell [k] of the ten million cells of the unit
    interval, away from the two ends of the cell by a thousandth of its
    width: the product of the draw by ten million lies between [k + 0.001]
    and [k + 0.999].  Its floor is then [k], for the exact product as for
    the product rounded to a double, whose error is far below 0.001. *)
Definition in_cell (k : Z) (random : Q) : Prop :=
  (inject_Z k + (1 # 1000) <= random * (10000000 # 1))%Q
  /\ (random * (10000000 # 1) <= inject_Z k + (999 # 1000))%Q.

End HookShape.

(* ================================================================== *)
(** * client/components/Header.tsx: the search form *)
(* ================================================================== *)

Module Header.
Import Schema OfflineStorage Hooks.

(** [handleSearch]: a query that is blank after trimming is not searched,
    the handler returns before it calls the hook.  Otherwise the results of
    the hook go to [onSearch]; an error of the hook is logged and nothing is
    handed on.  The value is what [onSearch] receives, if anything. *)
Definition handleSearch (offline : bool) (res : api (list Note)) (query : string)
  : M (option (list Note)) :=
  match Js.trim query with
  | EmptyString => ret None
  | _ =>
      try_catch
        (results <- useSearchNotes offline res query ;;
         ret (Some results))
        (fun _ => ret None)
  end.

End Header.

(* ================================================================== *)
(** * server/routes.ts: the note and relation routes *)
(* ================================================================== *)

Module Api.
Import Schema.

(** What a handler sends: a status with a JSON body, or a status with a
    message. *)
Inductive reply (A : Type) : Type :=
| Answer (status : Z) (body : A)
| Failure (status : Z) (message : string).
Arguments Answer {A} status body.
Arguments Failure {A} status message.

(** The body of a request as the schema sees it: the parsed data, or the
    message of the validation error. *)
Inductive parsed (A : Type) : Type :=
| Valid (data : A)
| Invalid (message : string).
Arguments Valid {A} data.
Arguments Invalid {A} message.

(** The schema keeps the four columns and drops [tagIds]. *)
Definition columns (body : NotePatch) : NotePatch :=
  mkNotePatch (p_title body) (p_content body) (p_isFavorite body)
              (p_isDeleted body) None.

(** [GET /notes/:id] *)
Definition get_note (id : Z) (s : MemStorage.t) : reply Note :=
  match MemStorage.getNoteWithTags id s with
  | None => Failure 404 "Note not found"
  | Some note => Answer 200 note
  end.

(** The two loops of [PUT /notes/:id] over the tags of the note. *)
Definition replace_tags (id : Z) (tagIds : list Z) (s : MemStorage.t) : MemStorage.t :=
  let currentTagIds := map tag_id (MemStorage.getTagsForNote id s) in
  let s := fold_left
             (fun s tagId =>
                if negb (RepositoryShape.includes_id tagIds tagId)
                then MemStorage.removeTagFromNote id tagId s else s)
             currentTagIds s in
  fold_left
    (fun s tagId =>
       if negb (RepositoryShape.includes_id currentTagIds tagId)
       then MemStorage.addTagToNote id tagId s else s)
    tagIds s.

(** [PUT /notes/:id]; the body carries the columns to change and, maybe,
    [tagIds].  The answer is what [getNoteWithTags] returns at the end. *)
Definition put_note (id : Z) (body : parsed NotePatch) (now : Z) (s : MemStorage.t)
  : reply (option Note) * MemStorage.t :=
  match body with
  | Invalid message => (Failure 400 message, s)
  | Valid body =>
      match MemStorage.updateNote id (columns body) now s with
      | (None, s) => (Failure 404 "Note not found", s)
      | (Some _, s) =>
          let s := match p_tagIds body with
                   | Some tagIds => replace_tags id tagIds s
                   | None => s
                   end in
          (Answer 200 (MemStorage.getNoteWithTags id s), s)
      end
  end.

(** [POST /notes/:noteId/tags/:tagId] *)
Definition post_note_tag (noteId tagId : Z) (s : MemStorage.t)
  : reply (list Tag) * MemStorage.t :=
  match MemStorage.getNote noteId s, MemStorage.getTag tagId s with
  | None, _ => (Failure 404 "Note not found", s)
  | Some _, None => (Failure 404 "Tag not found", s)
  | Some _, Some _ =>
      let s := MemStorage.addTagToNote noteId tagId s in
      (Answer 200 (MemStorage.getTagsForNote noteId s), s)
  end.

(** [DELETE /notes/:noteId/tags/:tagId] *)
Definition delete_note_tag (noteId tagId : Z) (s : MemStorage.t)
  : reply (list Tag) * MemStorage.t :=
  let s := MemStorage.removeTagFromNote noteId tagId s in
  (Answer 200 (MemStorage.getTagsForNote noteId s), s).

End Api.

(* ================================================================== *)
(** * client/lib/utils.ts *)
(* ================================================================== *)

Module Utils.

(** [text.substring(0, maxLength)] takes a negative length as zero. *)
Definition truncateText (text : string) (maxLength : Z) : string :=
  if (Z.of_nat (length text) <=? maxLength)%Z then text
  else substring 0 (Z.to_nat maxLength) text ++ "...".

End Utils.

(* ================================================================== *)
(** * Placeholder ids *)
(* ================================================================== *)

Section PlaceholderFacts.
Import Hooks.
Local Open Scope Z_scope.

(** A placeholder id is never positive, and it is zero for the draws below
    one ten-millionth. *)
Lemma tempId_range (random : Q) :
  is_random random -> -10000000 < tempId random <= 0.
Proof.
  intros [H0 H1]. unfold tempId.
  assert (Hlo : (0 <= random * (10000000 # 1))%Q).
  { apply Qmult_le_0_compat; [exact H0 | discriminate]. }
  assert (Hhi : (random * (10000000 # 1) < 10000000 # 1)%Q).
  { setoid_replace (10000000 # 1)%Q with (1 * (10000000 # 1))%Q at 2 by ring.
    apply Qmult_lt_compat_r; [reflexivity | exact H1]. }
  apply Qfloor_resp_le in Hlo. change (Qfloor 0) with 0 in Hlo.
  pose proof (Qfloor_le (random * (10000000 # 1))) as Hfl.
  assert (Hlt : (inject_Z (Qfloor (random * (10000000 # 1))) < inject_Z 10000000)%Q).
  { eapply Qle_lt_trans; [exact Hfl | exact Hhi]. }
  rewrite <- Zlt_Qlt in Hlt. lia.
Qed.

Lemma is_random_zero : is_random 0.
Proof. split; [apply Qle_refl | reflexivity]. Qed.

End PlaceholderFacts.

(* ================================================================== *)
(** * The server repository: ids and soft deletion *)
(* ================================================================== *)

Section MemStorageFacts.
Import Schema.
Local Open Scope Z_scope.

Lemma jsmap_get_set_same {V : Type} (m : JsMap.t V) (k : Z) (v : V) :
  JsMap.get (JsMap.set m k v) k = Some v.
Proof.
  induction m as [|[k' v'] m IH]; simpl.
  - now rewrite Z.eqb_refl.
  - destruct (k' =? k) eqn:E; simpl.
    + now rewrite Z.eqb_refl.
    + now rewrite E.
Qed.

Lemma jsmap_get_set_other {V : Type} (m : JsMap.t V) (k k' : Z) (v : V) :
  k <> k' -> JsMap.get (JsMap.set m k v) k' = JsMap.get m k'.
Proof.
  intros Hne. induction m as [|[k0 v0] m IH]; simpl.
  - destruct (k =? k') eqn:E; [apply Z.eqb_eq in E; contradiction | reflexivity].
  - destruct (k0 =? k) eqn:E; simpl.
    + apply Z.eqb_eq in E. subst k0.
      destruct (k =? k') eqn:E'; [apply Z.eqb_eq in E'; contradiction | reflexivity].
    + destruct (k0 =? k'); [reflexivity | exact IH].
Qed.

(** Only [createNote] moves the counter of the notes. *)
Lemma step_counter (c : MemStorage.call) (s : MemStorage.t) :
  match fst (MemStorage.step c s) with
  | Some n =>
      id n = MemStorage.noteCurrentId s
      /\ MemStorage.noteCurrentId (snd (MemStorage.step c s))
         = MemStorage.noteCurrentId s + 1
  | None =>
      MemStorage.noteCurrentId (snd (MemStorage.step c s))
      = MemStorage.noteCurrentId s
  end.
Proof.
  destruct c; simpl; try reflexivity; try (split; reflexivity).
  all: unfold MemStorage.updateNote, MemStorage.deleteNote, MemStorage.restoreNote,
         MemStorage.toggleFavorite, MemStorage.updateTag, MemStorage.deleteTag,
         MemStorage.addTagToNote, MemStorage.removeTagFromNote.
  all: repeat match goal with
              | |- context [match ?x with _ => _ end] => destruct x
              end; reflexivity.
Qed.

Lemma run_consecutive (cs : list MemStorage.call) (s : MemStorage.t) :
  MemStorage.consecutive (MemStorage.noteCurrentId s) (map id (fst (MemStorage.run cs s))).
Proof.
  revert s. induction cs as [|c cs IH]; intros s; simpl; [exact I|].
  pose proof (step_counter c s) as Hc.
  destruct (MemStorage.step c s) as [created s'] eqn:Es. simpl in Hc.
  specialize (IH s').
  destruct (MemStorage.run cs s') as [rest s''] eqn:Er. simpl in IH.
  destruct created as [n|]; simpl.
  - destruct Hc as [Hid Hnext]. split; [exact Hid|]. now rewrite <- Hnext.
  - now rewrite <- Hc.
Qed.

Lemma consecutive_bounds (from : Z) (ids : list Z) :
  MemStorage.consecutive from ids -> Forall (fun i => from <= i) ids /\ NoDup ids.
Proof.
  revert from. induction ids as [|i ids IH]; intros from H; simpl in *.
  - split; constructor.
  - destruct H as [-> H]. destruct (IH _ H) as [Hge Hnd]. split.
    + constructor; [lia|]. eapply Forall_impl; [|exact Hge]. simpl. intros; lia.
    + constructor; [|exact Hnd]. intros Hin.
      rewrite Forall_forall in Hge. specialize (Hge _ Hin). lia.
Qed.

(** C10.  The counter of a new repository is 1; [createNote] gives the note
    the value of the counter and adds one to it; hence, whatever calls are
    made on a repository, the ids of the notes it creates are at least 1 and
    pairwise distinct, and none of them is the id that a client gives to a
    placeholder.  Ids are unbounded integers here: a counter of JavaScript
    is exact up to 2^53, far beyond what the [Map] can hold. *)
Theorem server_ids_positive_and_distinct :
  MemStorage.noteCurrentId MemStorage.constructor = 1
  /\ (forall insertNote now s,
        id (fst (MemStorage.createNote insertNote now s)) = MemStorage.noteCurrentId s
        /\ MemStorage.noteCurrentId (snd (MemStorage.createNote insertNote now s))
           = MemStorage.noteCurrentId s + 1)
  /\ (forall cs,
        let ids := map id (fst (MemStorage.run cs MemStorage.constructor)) in
        Forall (fun i => 1 <= i) ids /\ NoDup ids)
  /\ (forall cs random,
        Hooks.is_random random ->
        ~ In (Hooks.tempId random)
             (map id (fst (MemStorage.run cs MemStorage.constructor)))).
Proof.
  split; [reflexivity|]. split; [intros; split; reflexivity|].
  assert (H : forall cs,
             let ids := map id (fst (MemStorage.run cs MemStorage.constructor)) in
             Forall (fun i => 1 <= i) ids /\ NoDup ids).
  { intros cs ids. apply consecutive_bounds.
    exact (run_consecutive cs MemStorage.constructor). }
  split; [exact H|].
  intros cs random Hr Hin.
  destruct (H cs) as [Hpos _]. rewrite Forall_forall in Hpos.
  specialize (Hpos _ Hin). pose proof (tempId_range random Hr). lia.
Qed.

Lemma server_ids_positive_and_distinct_witness :
  ~ In (Hooks.tempId 0)
       (map id (fst (MemStorage.run
                       [MemStorage.CreateNote MemStorage.trip_insert 1000;
                        MemStorage.DeleteNote 1 2000;
                        MemStorage.CreateNote MemStorage.trip_insert 3000]
                       MemStorage.constructor))).
Proof.
  apply (proj2 (proj2 (proj2 server_ids_positive_and_distinct))
           [MemStorage.CreateNote MemStorage.trip_insert 1000;
            MemStorage.DeleteNote 1 2000;
            MemStorage.CreateNote MemStorage.trip_insert 3000]
           0%Q).
  split; [unfold Qle; simpl; lia | reflexivity].
Defined.

(** C7, as amended.  For a note [n] of the repository, [deleteNote] at the
    clock reading [t1] followed by [restoreNote] at [t2] returns, and
    stores, a note equal to [n] in every field but [isDeleted], which is
    false, and [updatedAt], which is [t2]: newer than before exactly when
    the clock has moved past the old [updatedAt]. *)
Theorem delete_then_restore (s : MemStorage.t) (i : Z) (n : Note) (t1 t2 : Z) :
  MemStorage.getNote i s = Some n ->
  let s1 := snd (MemStorage.deleteNote i t1 s) in
  let (restored, s2) := MemStorage.restoreNote i t2 s1 in
  fst (MemStorage.deleteNote i t1 s) = true
  /\ MemStorage.getNote i s2 = restored
  /\ exists r, restored = Some r /\ MemStorage.restored_from n r t2
               /\ (updatedAt n < updatedAt r <-> updatedAt n < t2).
Proof.
  unfold MemStorage.getNote, MemStorage.deleteNote. intros Hn. rewrite Hn. simpl.
  unfold MemStorage.restoreNote, MemStorage.put_note. simpl.
  rewrite jsmap_get_set_same. simpl. unfold MemStorage.getNote. simpl.
  rewrite jsmap_get_set_same.
  split; [reflexivity|]. split; [reflexivity|].
  eexists. split; [reflexivity|]. split.
  - unfold MemStorage.restored_from. simpl. repeat split; reflexivity.
  - simpl. reflexivity.
Qed.

Lemma delete_then_restore_witness :
  let s := snd (MemStorage.createNote MemStorage.trip_insert 1000 MemStorage.constructor) in
  let s1 := snd (MemStorage.deleteNote 1 2000 s) in
  let (restored, s2) := MemStorage.restoreNote 1 3000 s1 in
  fst (MemStorage.deleteNote 1 2000 s) = true
  /\ MemStorage.getNote 1 s2 = restored
  /\ exists r, restored = Some r
               /\ MemStorage.restored_from (fst (MemStorage.createNote MemStorage.trip_insert 1000
                                        MemStorage.constructor)) r 3000
               /\ (1000 < updatedAt r <-> 1000 < 3000).
Proof.
  exact (delete_then_restore
           (snd (MemStorage.createNote MemStorage.trip_insert 1000 MemStorage.constructor))
           1 _ 2000 3000 eq_refl).
Defined.

(** C7 as stated fails when the three clock readings fall in the same
    millisecond: the note created, deleted and restored at 1000 comes back
    with the [updatedAt] it had. *)
Lemma restore_in_same_millisecond_not_newer :
  let (n, s) := MemStorage.createNote MemStorage.trip_insert 1000 MemStorage.constructor in
  let s1 := snd (MemStorage.deleteNote (id n) 1000 s) in
  exists r, fst (MemStorage.restoreNote (id n) 1000 s1) = Some r
            /\ ~ (updatedAt n < updatedAt r).
Proof.
  simpl. eexists. split; [reflexivity|]. simpl. lia.
Qed.

End MemStorageFacts.

(* ================================================================== *)
(** * The Local Store *)
(* ================================================================== *)

Section OfflineStorageFacts.
Import Schema OfflineStorage.
Local Open Scope Z_scope.

Lemma in_upsert {A : Type} (same : A -> bool) (x : A) (l : list A) :
  In x (upsert same x l).
Proof.
  induction l as [|y l IH]; simpl; [now left|].
  destruct (same y); [now left | now right].
Qed.

Lemma upsert_keeps_others {A : Type} (same : A -> bool) (x y : A) (l : list A) :
  In y l -> same y = false -> In y (upsert same x l).
Proof.
  intros Hin Hy. induction l as [|z l IH]; simpl in *; [contradiction|].
  destruct Hin as [->|Hin].
  - rewrite Hy. now left.
  - destruct (same z); right; [exact Hin | exact (IH Hin)].
Qed.

(** An upsert by key loses no key. *)
Lemma upsert_keeps_keys {A : Type} (key : A -> Z) (x : A) (l : list A) (k : Z) :
  In k (map key l) -> In k (map key (upsert (fun y => key y =? key x) x l)).
Proof.
  induction l as [|y l IH]; simpl; [contradiction|].
  intros [Hk|Hk]; destruct (key y =? key x) eqn:E; simpl.
  - left. apply Z.eqb_eq in E. congruence.
  - now left.
  - now right.
  - right. exact (IH Hk).
Qed.

Lemma filter_keeps_key {A : Type} (key : A -> Z) (l : list A) (k k' : Z) :
  In k (map key l) -> k <> k' ->
  In k (map key (filter (fun y => negb (key y =? k')) l)).
Proof.
  intros Hin Hne. apply in_map_iff in Hin. destruct Hin as [y [Hy Hin]].
  apply in_map_iff. exists y. split; [exact Hy|].
  apply filter_In. split; [exact Hin|].
  apply negb_true_iff, Z.eqb_neq. congruence.
Qed.

(** C8, as amended.  From a consistent Local Store, [saveOfflineNote],
    [deleteOfflineNote], [saveOfflineTag], [deleteOfflineTag] and
    [removeOfflineTagFromNote] leave every relation row with its note and
    its tag in the store; [addOfflineTagToNote] does so when the note id and
    the tag id it is given are in the store, which it does not check. *)
Theorem local_store_operation_keeps_relations (o : operation) (s : OfflineStorage.t) :
  consistent s -> guarded o s -> consistent (apply o s).
Proof.
  intros Hs Hg nt Hin. unfold relation_ok.
  destruct o as [n|i|tg|i|n tg|n tg]; simpl in *.
  - destruct (Hs nt Hin) as [H1 H2]. split; [|exact H2].
    now apply upsert_keeps_keys.
  - apply filter_In in Hin. destruct Hin as [Hin Hne].
    apply negb_true_iff, Z.eqb_neq in Hne.
    destruct (Hs nt Hin) as [H1 H2]. split; [|exact H2].
    now apply filter_keeps_key.
  - destruct (Hs nt Hin) as [H1 H2]. split; [exact H1|].
    now apply upsert_keeps_keys.
  - apply filter_In in Hin. destruct Hin as [Hin Hne].
    apply negb_true_iff, Z.eqb_neq in Hne.
    destruct (Hs nt Hin) as [H1 H2]. split; [exact H1|].
    now apply filter_keeps_key.
  - unfold addOfflineTagToNote in *.
    destruct (existsb _ (getOfflineNoteTags s)); simpl in *.
    + exact (Hs nt Hin).
    + apply in_app_or in Hin. destruct Hin as [Hin|[<-|[]]].
      * exact (Hs nt Hin).
      * exact Hg.
  - apply filter_In in Hin. destruct Hin as [Hin _]. exact (Hs nt Hin).
Qed.

Lemma local_store_operation_keeps_relations_witness :
  consistent (apply (AddNoteTagRelation 10 1) Scenarios.one_note_one_tag).
Proof.
  apply (local_store_operation_keeps_relations
           (AddNoteTagRelation 10 1) Scenarios.one_note_one_tag).
  - intros nt Hin. simpl in Hin. contradiction.
  - simpl. split; left; reflexivity.
Defined.

(** C8 as stated fails for [addOfflineTagToNote]: on the empty store, which
    is consistent, it leaves the relation (5, 2) with neither note 5 nor
    tag 2. *)
Lemma add_relation_leaves_dangling_row :
  consistent OfflineStorage.empty
  /\ ~ consistent (apply (AddNoteTagRelation 5 2) OfflineStorage.empty).
Proof.
  split.
  - intros nt Hin. simpl in Hin. contradiction.
  - intros H. destruct (H (mkNoteTag 5 2)) as [Hnote _].
    + simpl. now left.
    + simpl in Hnote. contradiction.
Qed.

Lemma includes_empty (s : string) : Js.includes s EmptyString = true.
Proof. destruct s; reflexivity. Qed.

Lemma filter_all {A : Type} (f : A -> bool) (l : list A) :
  (forall x, f x = true) -> filter f l = l.
Proof.
  intros H. induction l as [|x l IH]; simpl; [reflexivity|].
  now rewrite H, IH.
Qed.

(** The empty query matches every note, whatever its [isDeleted]. *)
Lemma search_empty_query_is_everything (s : OfflineStorage.t) :
  searchOfflineNotes EmptyString s = getOfflineNotesWithTags s.
Proof.
  unfold searchOfflineNotes. apply filter_all. intros n.
  unfold matches. simpl. now rewrite includes_empty.
Qed.

(** C4 as stated fails of [searchOfflineNotes]: the empty query returns the
    note that is in the trash, and a query of one blank is an ordinary
    substring search, which finds nothing in a store whose note has no
    blank, where the search of the server returns the notes that are not in
    the trash. *)
Theorem search_empty_query_returns_trashed_note :
  searchOfflineNotes EmptyString Scenarios.only_trash
  = [set_tags [] Scenarios.trashed]
  /\ isDeleted Scenarios.trashed = true
  /\ searchOfflineNotes " " Scenarios.only_agenda = []
  /\ MemStorage.searchNotes " "
       (snd (MemStorage.createNote MemStorage.trip_insert 1000 MemStorage.constructor))
     <> [].
Proof.
  repeat split; try reflexivity. discriminate.
Qed.

End OfflineStorageFacts.

(* ================================================================== *)
(** * The hooks: placeholders, rejection and fallback *)
(* ================================================================== *)

Section HooksFacts.
Import Schema OfflineStorage Hooks.
Local Open Scope Z_scope.

(** C9.  The create intent run offline with the draw [Math.random() = 0]:
    the note that is saved and returned has the id 0, which is not
    negative. *)
Theorem offline_create_with_random_zero (note : NotePatch) (now : Z)
  (s : OfflineStorage.t) :
  is_random 0
  /\ exists n,
       useCreateNote true None Unreachable now 0 note s
       = (Returned n, saveOfflineNote n s)
       /\ In n (notes (saveOfflineNote n s))
       /\ id n = 0 /\ ~ (id n < 0).
Proof.
  split; [exact is_random_zero|].
  exists (offlineNote_of note now 0). split; [reflexivity|]. split.
  - apply in_upsert.
  - change (id (offlineNote_of note now 0)) with 0. split; [reflexivity | lia].
Qed.

(** C2, as amended.  A note is created offline and the same create is then
    made online with success, the server answering [created] with a
    positive id: the Local Store then holds [created], and it still holds
    the placeholder of the first create, whose id is zero or negative. *)
Theorem offline_create_then_online_retry
  (note : NotePatch) (created : Note) (userId : option string)
  (now1 now2 : Z) (random1 random2 : Q) (s : OfflineStorage.t) :
  is_random random1 ->
  1 <= id created ->
  let (first, s1) := useCreateNote true userId Unreachable now1 random1 note s in
  let (second, s2) := useCreateNote false userId (Ok created) now2 random2 note s1 in
  second = Returned created
  /\ In created (notes s2)
  /\ exists placeholder,
       first = Returned placeholder
       /\ id placeholder <= 0
       /\ id placeholder <> id created
       /\ In placeholder (notes s2).
Proof.
  intros Hr Hid. pose proof (tempId_range random1 Hr) as Ht.
  unfold useCreateNote, create_offline, try_catch, apiRequest, bind, ret, write.
  simpl.
  set (L := notes (saveOfflineNote created
                     (saveOfflineNote (offlineNote_of note now1 random1) s))).
  assert (Hin : In created L
                /\ exists placeholder,
                     Returned (offlineNote_of note now1 random1) = Returned placeholder
                     /\ id placeholder <= 0
                     /\ id placeholder <> id created
                     /\ In placeholder L).
  { split; [apply in_upsert|].
    exists (offlineNote_of note now1 random1).
    change (id (offlineNote_of note now1 random1)) with (tempId random1).
    split; [reflexivity|]. split; [lia|]. split; [lia|].
    apply upsert_keeps_others; [apply in_upsert|].
    apply Z.eqb_neq.
    change (id (offlineNote_of note now1 random1)) with (tempId random1). lia. }
  destruct userId as [uid|]; simpl; (split; [reflexivity|]); exact Hin.
Qed.

Lemma offline_create_then_online_retry_witness :
  let (first, s1) := useCreateNote true None Unreachable 1000 (1 # 2)
                       Scenarios.trip_request OfflineStorage.empty in
  let (second, s2) := useCreateNote false None (Ok Scenarios.trip_created) 5000 (1 # 2)
                        Scenarios.trip_request s1 in
  second = Returned Scenarios.trip_created
  /\ In Scenarios.trip_created (notes s2)
  /\ exists placeholder,
       first = Returned placeholder
       /\ id placeholder <= 0
       /\ id placeholder <> id Scenarios.trip_created
       /\ In placeholder (notes s2).
Proof.
  apply (offline_create_then_online_retry Scenarios.trip_request Scenarios.trip_created
           None 1000 5000 (1 # 2) (1 # 2) OfflineStorage.empty).
  - split; [unfold Qle; simpl; lia | reflexivity].
  - simpl. lia.
Defined.

(** C2 as stated fails: after the create made offline with the draw 1/2 and
    its successful retry, the Local Store holds the server's note 1 and,
    still, the placeholder -5000000. *)
Lemma placeholder_survives_retry :
  let s1 := snd (useCreateNote true None Unreachable 1000 (1 # 2)
                   Scenarios.trip_request OfflineStorage.empty) in
  let s2 := snd (useCreateNote false None (Ok Scenarios.trip_created) 5000 (1 # 2)
                   Scenarios.trip_request s1) in
  map id (notes s2) = [-5000000; 1]
  /\ ~ (forall n, In n (notes s2) -> id n <> -5000000).
Proof.
  split; [reflexivity|].
  intros H. simpl in H.
  refine (H _ (or_introl eq_refl) _). reflexivity.
Qed.

(** Unfold a hook down to the reads and writes of the Local Store. *)
Ltac hook_steps :=
  unfold run, acked, fmap, useNotes, useNoteById, useSearchNotes, useTags,
    useCreateNote, useUpdateNote, useDeleteNote, useRestoreNote,
    useToggleFavorite, useCreateTag, useUpdateTag, useDeleteTag,
    useAddTagToNote, useRemoveTagFromNote, create_offline, change_offline,
    search_offline, create_tag_offline, update_tag_offline, delete_tag_offline,
    relation_offline, target_present, answer, failed, is_offline,
    apiRequest, fetch_json, try_catch, bind, ret, throw, read, write;
  simpl.

Ltac split_lookups :=
  repeat match goal with
         | |- context [getOfflineNoteWithTags ?i ?s] =>
             destruct (getOfflineNoteWithTags i s); simpl
         | |- context [find_tag ?i ?s] => destruct (find_tag i s); simpl
         end.

(** C1, as amended.  A write intent whose request the Remote API rejects
    with an application error runs as it does when the server cannot be
    reached: the [catch] of the hook applies the change to the Local Store
    as the offline branch does and returns the changed entity.  The error
    reaches the caller only when the note or tag that the intent works on is
    missing from the Local Store, which never happens for a create, and the
    Local Store is then left as it was. *)
Theorem rejected_write_falls_back_to_local
  (i : intent) (status : Z) (text : string)
  (userId : option string) (now : Z) (random : Q) (s : OfflineStorage.t) :
  is_write i = true ->
  let rejected := run (Failing (ApplicationRejected status text)) userId now random i s in
  let local := run Offline userId now random i s in
  rejected = run (Failing NetworkUnreachable) userId now random i s
  /\ snd rejected = snd local
  /\ agree (fst rejected) (fst local)
  /\ is_returned (fst rejected) = target_present i s
  /\ (is_returned (fst rejected) = false -> snd rejected = s).
Proof.
  intros Hw. destruct i; try discriminate Hw; clear Hw; hook_steps;
    split_lookups; repeat split; intros; try reflexivity; try discriminate.
Qed.

Lemma rejected_write_falls_back_to_local_witness :
  let rejected := run (Failing (ApplicationRejected 404 "Note not found")) None 7000 0
                      (UpdateNote 10 Scenarios.retitle) Scenarios.one_note_one_tag in
  let local := run Offline None 7000 0
                   (UpdateNote 10 Scenarios.retitle) Scenarios.one_note_one_tag in
  rejected = run (Failing NetworkUnreachable) None 7000 0
                 (UpdateNote 10 Scenarios.retitle) Scenarios.one_note_one_tag
  /\ snd rejected = snd local
  /\ agree (fst rejected) (fst local)
  /\ is_returned (fst rejected)
     = target_present (UpdateNote 10 Scenarios.retitle) Scenarios.one_note_one_tag
  /\ (is_returned (fst rejected) = false -> snd rejected = Scenarios.one_note_one_tag).
Proof.
  exact (rejected_write_falls_back_to_local
           (UpdateNote 10 Scenarios.retitle) 404 "Note not found" None 7000 0
           Scenarios.one_note_one_tag eq_refl).
Defined.

(** C1 as stated fails: the update of note 10 that the server rejects with
    404 returns to the caller as a success, and the title of the note in
    the Local Store is changed. *)
Lemma rejected_update_is_applied_locally :
  let (r, s') := run (Failing (ApplicationRejected 404 "Note not found")) None 7000 0
                     (UpdateNote 10 Scenarios.retitle) Scenarios.one_note_one_tag in
  is_returned r = true
  /\ collections s' <> collections Scenarios.one_note_one_tag
  /\ map title (notes Scenarios.one_note_one_tag) = ["Agenda"]
  /\ map title (notes s') = ["Renamed"].
Proof.
  simpl. split; [reflexivity|]. split; [discriminate|]. split; reflexivity.
Qed.

(** C3, as amended.  On a Local Store whose rows are notes and tags (the
    stores of this model), when the request of an intent fails because the
    server cannot be reached, the hook ends as its offline branch does on
    the same Local Store, clock reading and random draw: the Local Store is
    the same afterwards and either both return the same value or both
    throw.  They throw exactly when the note or tag that the intent works
    on is missing from the Local Store; reads and creates always return.
    Only the list of notes needs more: no cloud snapshot of the signed-in
    user may be at hand; for every other intent the snapshot does not
    matter. *)
Theorem unreachable_runs_as_offline
  (i : intent) (userId : option string) (now : Z) (random : Q)
  (s : OfflineStorage.t) :
  (forall includeDeleted, i = ListNotes includeDeleted -> no_snapshot userId s) ->
  let online := run (Failing NetworkUnreachable) userId now random i s in
  let local := run Offline userId now random i s in
  snd online = snd local
  /\ agree (fst online) (fst local)
  /\ is_returned (fst online) = target_present i s.
Proof.
  intros Hc. destruct i.
  1: { specialize (Hc _ eq_refl).
       hook_steps. destruct userId as [uid|]; simpl in *.
       - unfold read. rewrite Hc. simpl. repeat split.
       - repeat split. }
  all: clear Hc.
  1: { match goal with |- context [GetNote ?o] => destruct o end;
       hook_steps; repeat split. }
  all: hook_steps; split_lookups; repeat split.
Qed.

Lemma unreachable_runs_as_offline_witness :
  let online := run (Failing NetworkUnreachable) (Some "u1") 7000 0
                    (ListNotes false) Scenarios.one_note_one_tag in
  let local := run Offline (Some "u1") 7000 0
                   (ListNotes false) Scenarios.one_note_one_tag in
  snd online = snd local
  /\ agree (fst online) (fst local)
  /\ is_returned (fst online)
     = target_present (ListNotes false) Scenarios.one_note_one_tag.
Proof.
  apply (unreachable_runs_as_offline (ListNotes false) (Some "u1") 7000 0
           Scenarios.one_note_one_tag).
  intros includeDeleted _. reflexivity.
Defined.

(** Why the statement above asks for the absence of a snapshot: a list of
    notes made online for a signed-in user is answered from the snapshot
    before any request is made, and the snapshot overwrites the notes of
    the Local Store. *)
Lemma list_notes_prefers_cloud_snapshot :
  let (online, s') := run (Failing NetworkUnreachable) (Some "u1") 7000 0
                          (ListNotes false) Scenarios.with_snapshot in
  let (local, _) := run Offline (Some "u1") 7000 0
                        (ListNotes false) Scenarios.with_snapshot in
  (exists l, online = Returned (Notes l) /\ map title l = ["Draft"])
  /\ (exists l, local = Returned (Notes l) /\ map title l = ["Agenda"])
  /\ map title (notes s') = ["Draft"].
Proof.
  simpl. split; [|split]; try reflexivity; eexists; split; reflexivity.
Qed.

(** C3 as stated fails: with the server out of reach, the update of note 7,
    which the Local Store does not hold, returns no value; it throws, and
    with another message than the offline branch. *)
Lemma unreachable_update_of_missing_note_throws :
  let online := fst (run (Failing NetworkUnreachable) None 7000 0
                         (UpdateNote 7 Scenarios.retitle) Scenarios.one_note_one_tag) in
  let local := fst (run Offline None 7000 0
                        (UpdateNote 7 Scenarios.retitle) Scenarios.one_note_one_tag) in
  ~ (exists v, online = Returned v /\ local = Returned v)
  /\ online = Threw "Failed to update note and note not found in offline storage"
  /\ local = Threw "Note not found in offline storage".
Proof.
  simpl. repeat split. intros [v [H _]]. discriminate H.
Qed.

End HooksFacts.

(* ================================================================== *)
(** * Regular expressions on text without markup *)
(* ================================================================== *)

Section RegexFacts.
Import Js Regex.

Lemma append_empty (s : string) : s ++ EmptyString = s.
Proof. induction s as [|a s IH]; simpl; [reflexivity | now rewrite IH]. Qed.

Lemma length_append (s1 s2 : string) :
  length (s1 ++ s2) = (length s1 + length s2)%nat.
Proof. induction s1 as [|a s1 IH]; simpl; [reflexivity | now rewrite IH]. Qed.

Lemma lacks_append (c : ascii) (s1 s2 : string) :
  lacks c (s1 ++ s2) = lacks c s1 && lacks c s2.
Proof.
  induction s1 as [|a s1 IH]; simpl; [reflexivity|].
  now rewrite IH, andb_assoc.
Qed.

(** The equations of [match_here] for a literal and for a lazy group. *)
Lemma match_here_lit (l : string) (p : regex) (s : string) :
  match_here (Lit l :: p) s
  = match strip_prefix l s with
    | Some s' => match_here p s'
    | None => None
    end.
Proof. reflexivity. Qed.

Lemma match_here_lazy_group (c : cls) (p : regex) (s : string) :
  match_here (Star false true c :: p) s
  = match star_lazy c (match_here p) s with
    | Some (txt, (caps, rest)) => Some (txt :: caps, rest)
    | None => None
    end.
Proof. reflexivity. Qed.

(** A pattern that opens with the character [c] matches nowhere in a text
    without [c]. *)
Lemma match_here_other_char (c a : ascii) (l : string) (p : regex) (s : string) :
  Ascii.eqb c a = false -> match_here (Lit (String c l) :: p) (String a s) = None.
Proof. intros H. simpl. now rewrite H. Qed.

Lemma match_here_at_end (c : ascii) (l : string) (p : regex) :
  match_here (Lit (String c l) :: p) EmptyString = None.
Proof. reflexivity. Qed.

Lemma replace_from_lacks (c : ascii) (l : string) (p : regex)
  (f : nat -> list string -> string) (x rest : string) (n : nat) :
  lacks c x = true ->
  replace_from (Lit (String c l) :: p) f (x ++ rest) 0 n
  = x ++ replace_from (Lit (String c l) :: p) f rest 0 n.
Proof.
  induction x as [|a x IH]; intros Hx; [reflexivity|].
  simpl in Hx. apply andb_true_iff in Hx. destruct Hx as [Ha Hx].
  apply negb_true_iff in Ha.
  change (String a x ++ rest) with (String a (x ++ rest)).
  cbn [replace_from]. rewrite (match_here_other_char c a l p _ Ha).
  now rewrite (IH Hx).
Qed.

Lemma replace_all_lacks (c : ascii) (l : string) (p : regex) (t : list piece)
  (x : string) :
  lacks c x = true -> replace_all (Lit (String c l) :: p) t x = x.
Proof.
  intros Hx. unfold replace_all.
  rewrite <- (append_empty x) at 1. rewrite (replace_from_lacks c l p _ x _ 0 Hx).
  cbn [replace_from]. rewrite match_here_at_end. apply append_empty.
Qed.

Lemma exec_lacks (c : ascii) (l : string) (p : regex) (x : string) :
  lacks c x = true -> exec (Lit (String c l) :: p) x = None.
Proof.
  induction x as [|a x IH]; intros Hx; [reflexivity|].
  simpl in Hx. apply andb_true_iff in Hx. destruct Hx as [Ha Hx].
  apply negb_true_iff in Ha.
  cbn [exec]. rewrite (match_here_other_char c a l p _ Ha). exact (IH Hx).
Qed.

(** Passing over the characters of a match. *)
Lemma replace_from_skip (p : regex) (f : nat -> list string -> string)
  (u rest : string) (n : nat) :
  replace_from p f (u ++ rest) (length u) n = replace_from p f rest 0 n.
Proof. induction u as [|a u IH]; simpl; [reflexivity | exact IH]. Qed.

(** A match of the non-empty text [u] at the start. *)
Lemma replace_from_hit (p : regex) (f : nat -> list string -> string)
  (u rest : string) (caps : list string) (n : nat) :
  u <> EmptyString ->
  match_here p (u ++ rest) = Some (caps, rest) ->
  replace_from p f (u ++ rest) 0 n = f n caps ++ replace_from p f rest 0 (S n).
Proof.
  destruct u as [|a u]; [congruence|]. intros _ Hm.
  change (String a u ++ rest) with (String a (u ++ rest)) in *.
  cbn [replace_from]. rewrite Hm.
  replace (length (String a (u ++ rest)) - length rest)%nat with (S (length u)).
  - now rewrite replace_from_skip.
  - change (length (String a (u ++ rest))) with (S (length (u ++ rest))).
    rewrite length_append. lia.
Qed.

(** A lazy repetition of [.] runs to the first place where what follows it
    matches: here, over a line of text that has no [c], to the closing
    tag. *)
Lemma star_lazy_to_close (c : ascii) (l : string) (p : regex)
  (x close : string) (r : result) :
  lacks c x = true -> lacks LF x = true -> lacks CR x = true ->
  match_here (Lit (String c l) :: p) close = Some r ->
  star_lazy CAny (match_here (Lit (String c l) :: p)) (x ++ close) = Some (x, r).
Proof.
  intros Hx Hlf Hcr Hclose. induction x as [|a x IH].
  - simpl append. destruct close as [|b close]; cbn [star_lazy]; now rewrite Hclose.
  - cbn [lacks] in Hx, Hlf, Hcr.
    apply andb_true_iff in Hx. destruct Hx as [Ha Hx].
    apply andb_true_iff in Hlf. destruct Hlf as [Half Hlf].
    apply andb_true_iff in Hcr. destruct Hcr as [Hacr Hcr].
    change (String a x ++ close) with (String a (x ++ close)).
    cbn [star_lazy].
    rewrite (match_here_other_char c a l p _ (proj1 (negb_true_iff _) Ha)).
    assert (Hany : cls_test CAny a = true).
    { unfold cls_test. apply negb_true_iff in Half, Hacr.
      rewrite Ascii.eqb_sym in Half. rewrite Ascii.eqb_sym in Hacr.
      now rewrite Half, Hacr. }
    rewrite Hany. now rewrite (IH Hx Hlf Hcr).
Qed.

Lemma all_space_append (s1 s2 : string) :
  all_space (s1 ++ s2) = all_space s1 && all_space s2.
Proof.
  induction s1 as [|a s1 IH]; simpl; [reflexivity|].
  now rewrite IH, andb_assoc.
Qed.

Lemma trimStart_all_space (w : string) :
  all_space w = true -> trimStart w = EmptyString.
Proof.
  induction w as [|a w IH]; simpl; [reflexivity|].
  intros H. apply andb_true_iff in H. destruct H as [Ha Hw].
  rewrite Ha. exact (IH Hw).
Qed.

Lemma trimEnd_append_space (y w : string) :
  all_space w = true -> trimEnd (y ++ w) = trimEnd y.
Proof.
  intros Hw. induction y as [|b y IH].
  - simpl append. destruct w as [|a w]; [reflexivity|].
    cbn [trimEnd]. now rewrite Hw.
  - change (String b y ++ w) with (String b (y ++ w)). cbn [trimEnd].
    rewrite IH. cbn [all_space]. rewrite all_space_append, Hw, andb_true_r.
    reflexivity.
Qed.

(** White space after a text does not show in its trimmed form. *)
Lemma trim_append_space (x w : string) :
  all_space w = true -> trim (x ++ w) = trim x.
Proof.
  intros Hw. unfold trim. induction x as [|a x IH].
  - simpl append. now rewrite (trimStart_all_space w Hw).
  - change (String a x ++ w) with (String a (x ++ w)). cbn [trimStart].
    destruct (is_space a); [exact IH|].
    change (String a (x ++ w)) with (String a x ++ w).
    now apply trimEnd_append_space.
Qed.

End RegexFacts.

(* ================================================================== *)
(** * Export: the server's conversion and the client's *)
(* ================================================================== *)

Section ExportFacts.
Import Js Regex Routes Schema.

Lemma plain_parts (x : string) :
  plain x = true ->
  lacks "<" x = true /\ lacks "&" x = true /\ lacks LF x = true /\ lacks CR x = true.
Proof.
  unfold plain. intros H.
  apply andb_true_iff in H; destruct H as [H Hcr].
  apply andb_true_iff in H; destruct H as [H Hlf].
  apply andb_true_iff in H; destruct H as [H Hamp]. auto.
Qed.

(** The first pattern turns the two tags of a paragraph into line breaks,
    and the patterns that follow find no tag. *)
Lemma simple_tags_paragraph (x : string) :
  lacks "<" x = true -> simple_tags ("<p>" ++ x ++ "</p>") = nl ++ x ++ nl.
Proof.
  intros Hp. unfold simple_tags. cbv zeta.
  assert (Hblock : replace_all blockTags [Text nl] ("<p>" ++ x ++ "</p>")
                   = nl ++ x ++ nl).
  { unfold replace_all.
    rewrite (replace_from_hit blockTags _ "<p>" (x ++ "</p>") ["p"; EmptyString] 0
               ltac:(discriminate) eq_refl).
    unfold blockTags.
    rewrite (replace_from_lacks "<" _ _ _ x "</p>" 1 Hp).
    reflexivity. }
  rewrite Hblock.
  assert (Hl : lacks "<" (nl ++ x ++ nl) = true).
  { rewrite !lacks_append, Hp. reflexivity. }
  unfold heading, inline, anchor, image. cbn [append].
  repeat rewrite (replace_all_lacks "<" _ _ _ (nl ++ x ++ nl) Hl).
  reflexivity.
Qed.

(** The four loops end at once on a text without tags. *)
Lemma loops_without_markup (fuel : nat) (s : string) :
  lacks "<" s = true ->
  convertUl (S fuel) s = Some s /\ convertOl (S fuel) s = Some s
  /\ convertCodeBlocks (S fuel) s = Some s /\ convertBlockquotes (S fuel) s = Some s.
Proof.
  intros H. cbn [convertUl convertOl convertCodeBlocks convertBlockquotes].
  unfold ulPattern, olPattern, codePattern, blockquotePattern.
  rewrite !(exec_lacks "<") by exact H. auto.
Qed.

Lemma cleanNewlines_line (x : string) :
  lacks LF x = true -> cleanNewlines (nl ++ x ++ nl) = nl ++ x ++ nl.
Proof.
  intros H. unfold cleanNewlines, replace_all, blankLines.
  change (nl ++ x ++ nl) with (String LF (x ++ nl)).
  assert (Hm : match_here [Lit (nl ++ nl); Plus (CChr LF)] (String LF (x ++ nl)) = None).
  { destruct x as [|a x]; [reflexivity|].
    cbn [lacks] in H. apply andb_true_iff in H. destruct H as [Ha _].
    apply negb_true_iff in Ha.
    rewrite match_here_lit. change (nl ++ nl) with (String LF (String LF EmptyString)).
    change (String a x ++ nl) with (String a (x ++ nl)).
    cbn [strip_prefix]. change (Ascii.eqb LF LF) with true. cbv iota.
    now rewrite Ha. }
  cbn [replace_from]. rewrite Hm.
  change (nl ++ nl) with (String LF (String LF EmptyString)).
  rewrite (replace_from_lacks LF _ _ _ x nl 0 H).
  reflexivity.
Qed.

Lemma entities_without_ampersand (s : string) :
  lacks "&" s = true -> entities s = s.
Proof.
  intros H. unfold entities. cbv zeta.
  repeat rewrite (replace_all_lacks "&" _ _ _ s H). reflexivity.
Qed.

(** The server turns a paragraph of plain text into the text, trimmed. *)
Lemma htmlToMarkdown_paragraph (fuel : nat) (x : string) :
  plain x = true -> htmlToMarkdown (S fuel) ("<p>" ++ x ++ "</p>") = Some (trim x).
Proof.
  intros Hx. destruct (plain_parts x Hx) as (Hlt & Hamp & Hlf & Hcr).
  unfold htmlToMarkdown. rewrite (simple_tags_paragraph x Hlt).
  assert (Hl : lacks "<" (nl ++ x ++ nl) = true)
    by (rewrite !lacks_append, Hlt; reflexivity).
  destruct (loops_without_markup fuel _ Hl) as (-> & -> & -> & ->).
  rewrite (cleanNewlines_line x Hlf).
  rewrite entities_without_ampersand by (rewrite !lacks_append, Hamp; reflexivity).
  f_equal. change (nl ++ x ++ nl) with (String LF (x ++ nl)).
  unfold trim. cbn [trimStart]. change (is_space LF) with true. cbv iota.
  apply (trim_append_space x nl). reflexivity.
Qed.

(** A pattern for another tag than [p] leaves a paragraph as it is. *)
Lemma replace_all_passes_paragraph (c : ascii) (l : string) (p : regex)
  (t : list piece) (x : string) :
  Ascii.eqb c "p" = false -> Ascii.eqb c "/" = false -> lacks "<" x = true ->
  replace_all (Lit (String "<" (String c l)) :: p) t ("<p>" ++ x ++ "</p>")
  = "<p>" ++ x ++ "</p>".
Proof.
  intros Hcp Hcs Hx. unfold replace_all.
  change ("<p>" ++ x ++ "</p>")
    with (String "<" (String "p" (String ">" (x ++ "</p>")))).
  assert (Hopen : forall s, match_here (Lit (String "<" (String c l)) :: p)
                                       (String "<" (String "p" s)) = None).
  { intros s. simpl. now rewrite Hcp. }
  assert (Hclose : forall s, match_here (Lit (String "<" (String c l)) :: p)
                                        (String "<" (String "/" s)) = None).
  { intros s. simpl. now rewrite Hcs. }
  cbn [replace_from]. rewrite Hopen.
  rewrite !match_here_other_char by reflexivity.
  rewrite (replace_from_lacks "<" _ _ _ x "</p>" 0 Hx).
  change "</p>" with (String "<" (String "/" (String "p" (String ">" EmptyString)))).
  cbn [replace_from]. rewrite Hclose.
  rewrite !match_here_other_char by reflexivity.
  rewrite match_here_at_end. reflexivity.
Qed.

Lemma paragraph_match (x : string) :
  lacks "<" x = true -> lacks LF x = true -> lacks CR x = true ->
  match_here (Hooks.tagged "p") (("<p>" ++ x ++ "</p>") ++ EmptyString)
  = Some ([x], EmptyString).
Proof.
  intros Hlt Hlf Hcr. rewrite append_empty.
  unfold Hooks.tagged. cbn [append].
  rewrite match_here_lit.
  change (strip_prefix "<p>" _) with (Some (x ++ "</p>")).
  cbv beta iota.
  rewrite match_here_lazy_group.
  rewrite (star_lazy_to_close "<" "/p>" [] x "</p>" ([], EmptyString)
             Hlt Hlf Hcr eq_refl).
  reflexivity.
Qed.

(** The client turns a paragraph of plain text into the text and a blank
    line. *)
Lemma basic_markdown_paragraph (x : string) :
  plain x = true -> Hooks.basic_markdown ("<p>" ++ x ++ "</p>") = x ++ nl ++ nl.
Proof.
  intros Hx. destruct (plain_parts x Hx) as (Hlt & Hamp & Hlf & Hcr).
  unfold Hooks.basic_markdown. cbv zeta.
  change (Hooks.tagged "h1") with [Lit "<h1>"; Star false true CAny; Lit "</h1>"].
  change (Hooks.tagged "h2") with [Lit "<h2>"; Star false true CAny; Lit "</h2>"].
  change (Hooks.tagged "h3") with [Lit "<h3>"; Star false true CAny; Lit "</h3>"].
  rewrite !(replace_all_passes_paragraph "h") by (reflexivity || exact Hlt).
  assert (Hp : replace_all (Hooks.tagged "p") [Group 1; Text (nl ++ nl)]
                           ("<p>" ++ x ++ "</p>") = x ++ nl ++ nl).
  { unfold replace_all.
    rewrite <- (append_empty ("<p>" ++ x ++ "</p>")).
    rewrite (replace_from_hit (Hooks.tagged "p") _ ("<p>" ++ x ++ "</p>")
               EmptyString [x] 0 ltac:(discriminate) (paragraph_match x Hlt Hlf Hcr)).
    cbn [replace_from].
    change (match_here (Hooks.tagged "p") EmptyString) with (@None result).
    cbn [expand nth Nat.sub]. now rewrite !append_empty. }
  rewrite Hp.
  assert (Hl : lacks "<" (x ++ nl ++ nl) = true)
    by (rewrite !lacks_append, Hlt; reflexivity).
  set (line := x ++ nl ++ nl) in *.
  unfold Hooks.tagged, Hooks.link. cbn [append]. subst line.
  repeat rewrite (replace_all_lacks "<" _ _ _ (x ++ nl ++ nl) Hl).
  reflexivity.
Qed.

(** C5.  The note of the scenario, created on a new repository and exported
    as Markdown while online: the client hands the browser the link to the
    export route, and the route answers with the title as a heading, a
    blank line and the paragraph without its tags. *)
Theorem export_trip_as_markdown
  (stripHtml : string -> string) (stringify : Note -> string)
  (fuel : nat) (now : Z) (local : OfflineStorage.t) :
  let (note, s) := MemStorage.createNote MemStorage.trip_insert now
                     MemStorage.constructor in
  Hooks.exportNote stripHtml stringify false (id note) Hooks.FormatMarkdown local
  = Hooks.Link "/api/notes/1/export?format=markdown" "note-1.md"
  /\ export (S fuel) (id note) "markdown" s
     = Some (Send "text/markdown" "Trip.md" ("# Trip" ++ nl ++ nl ++ "Pack bags")).
Proof.
  split; reflexivity.
Qed.

(** C6, as amended.  The export made offline on the client is not the
    export of the server, for any of the three formats.  Text: the client
    writes the text content of the HTML of the note alone, the server the
    title, a blank line and the content as it is stored.  JSON: the client
    serialises its own copy of the note, the server sends its own.
    Markdown: the conversion of the client is another one, which puts no
    title, does not trim and keeps the blank lines; for a note whose content
    is one paragraph of plain ASCII text (no tag, no entity, no line break),
    the client gives the text followed by a blank line and the server the
    title as a heading, a blank line and the text trimmed, so that the body
    of the server is the heading followed by the trimmed output of the
    client. *)
Theorem paragraph_export_offline_and_online (n : Note) (x : string) (fuel : nat) :
  content n = "<p>" ++ x ++ "</p>" ->
  plain x = true ->
  ascii_text x = true ->
  (forall stripHtml stringify,
      Hooks.render_offline stripHtml stringify Hooks.FormatMarkdown n = x ++ nl ++ nl)
  /\ respond (S fuel) "markdown" n
     = Some (Send "text/markdown" (sanitize (title n) ++ ".md")
                  ("# " ++ title n ++ nl ++ nl ++ trim (x ++ nl ++ nl)))
  /\ (forall stripHtml stringify,
        Hooks.render_offline stripHtml stringify Hooks.FormatText n
        = stripHtml (content n))
  /\ respond (S fuel) "text" n
     = Some (Send "text/plain" (sanitize (title n) ++ ".txt")
                  (title n ++ nl ++ nl ++ content n))
  /\ (forall stripHtml stringify,
        Hooks.render_offline stripHtml stringify Hooks.FormatJson n = stringify n)
  /\ respond (S fuel) "json" n = Some (Json (sanitize (title n) ++ ".json") n).
Proof.
  intros Hc Hx _.
  split; [|split; [|repeat split]].
  - intros stripHtml stringify. unfold Hooks.render_offline.
    now rewrite Hc, (basic_markdown_paragraph x Hx).
  - unfold respond.
    change (String.eqb "markdown" "text") with false.
    change (String.eqb "markdown" "markdown") with true. cbv iota.
    rewrite Hc, (htmlToMarkdown_paragraph fuel x Hx).
    rewrite (trim_append_space x (nl ++ nl)) by reflexivity. reflexivity.
Qed.

Lemma paragraph_export_offline_and_online_witness :
  (forall stripHtml stringify,
      Hooks.render_offline stripHtml stringify Hooks.FormatMarkdown Scenarios.trip_created
      = "Pack bags" ++ nl ++ nl)
  /\ respond 1 "markdown" Scenarios.trip_created
     = Some (Send "text/markdown" (sanitize "Trip" ++ ".md")
                  ("# " ++ "Trip" ++ nl ++ nl ++ trim ("Pack bags" ++ nl ++ nl)))
  /\ (forall stripHtml stringify,
        Hooks.render_offline stripHtml stringify Hooks.FormatText Scenarios.trip_created
        = stripHtml "<p>Pack bags</p>")
  /\ respond 1 "text" Scenarios.trip_created
     = Some (Send "text/plain" (sanitize "Trip" ++ ".txt")
                  ("Trip" ++ nl ++ nl ++ "<p>Pack bags</p>"))
  /\ (forall stripHtml stringify,
        Hooks.render_offline stripHtml stringify Hooks.FormatJson Scenarios.trip_created
        = stringify Scenarios.trip_created)
  /\ respond 1 "json" Scenarios.trip_created
     = Some (Json (sanitize "Trip" ++ ".json") Scenarios.trip_created).
Proof.
  exact (paragraph_export_offline_and_online Scenarios.trip_created "Pack bags" 0
           eq_refl eq_refl eq_refl).
Defined.

(** C6 as stated fails for each format, on the note of the scenario.
    Markdown: offline the paragraph followed by a blank line, online the
    heading, a blank line and the paragraph.  Text: offline the text content
    of the paragraph, which the browser gives as "Pack bags"; online the
    title, a blank line and the paragraph with its tags.  JSON: the note
    carries the tag "Work" on the server; a client that has fetched it keeps
    no relation row for it, so the copy that it serialises offline has no
    tag, and the note that the server sends has the tag. *)
Lemma offline_export_is_not_the_server_export :
  ((forall stripHtml stringify,
       Hooks.render_offline stripHtml stringify Hooks.FormatMarkdown
         Scenarios.trip_created
       = "Pack bags" ++ nl ++ nl)
   /\ respond 1 "markdown" Scenarios.trip_created
      = Some (Send "text/markdown" "Trip.md" ("# Trip" ++ nl ++ nl ++ "Pack bags"))
   /\ forall fuel,
        respond fuel "markdown" Scenarios.trip_created
        <> Some (Send "text/markdown" "Trip.md" ("Pack bags" ++ nl ++ nl)))
  /\ ((forall stripHtml stringify,
         stripHtml "<p>Pack bags</p>" = "Pack bags" ->
         Hooks.render_offline stripHtml stringify Hooks.FormatText
           Scenarios.trip_created
         = "Pack bags")
      /\ forall fuel,
           respond fuel "text" Scenarios.trip_created
           = Some (Send "text/plain" "Trip.txt"
                        ("Trip" ++ nl ++ nl ++ "<p>Pack bags</p>")))
  /\ (export 1 1 "json" Scenarios.tagged_repository
      = Some (Json "Trip.json" Scenarios.trip_served)
      /\ (forall stripHtml stringify,
            Hooks.exportNote stripHtml stringify true 1 Hooks.FormatJson
              Scenarios.fetched_store
            = Hooks.Download "note-1.json" "application/json"
                (stringify (set_tags [] Scenarios.trip_served)))
      /\ Schema.tags Scenarios.trip_served = Some [mkTag 1 "Work" "#3B82F6"]
      /\ Schema.tags (set_tags [] Scenarios.trip_served) = Some []).
Proof.
  split; [|split].
  - split; [reflexivity|]. split; [reflexivity|].
    intros [|fuel]; [discriminate|].
    intros H. vm_compute in H. discriminate H.
  - split; [intros stripHtml stringify H; exact H|]. intros [|fuel]; reflexivity.
  - repeat split.
Qed.

End ExportFacts.

(* ================================================================== *)
(** * The Local Store: lookups, relations and search *)
(* ================================================================== *)

Section LocalStoreFacts.
Import Schema OfflineStorage StoreShape.
Local Open Scope Z_scope.

Lemma find_upsert_same {A : Type} (key : A -> Z) (x : A) (l : list A) :
  find (fun y => key y =? key x) (upsert (fun y => key y =? key x) x l) = Some x.
Proof.
  induction l as [|y l IH]; simpl.
  - now rewrite Z.eqb_refl.
  - destruct (key y =? key x) eqn:E; simpl.
    + now rewrite Z.eqb_refl.
    + now rewrite E.
Qed.

Lemma find_upsert_other {A : Type} (key : A -> Z) (x : A) (l : list A) (k : Z) :
  k <> key x ->
  find (fun y => key y =? k) (upsert (fun y => key y =? key x) x l)
  = find (fun y => key y =? k) l.
Proof.
  intros Hk. induction l as [|y l IH]; simpl.
  - destruct (key x =? k) eqn:E; [apply Z.eqb_eq in E; congruence | reflexivity].
  - destruct (key y =? key x) eqn:E; simpl.
    + apply Z.eqb_eq in E. rewrite E.
      destruct (key x =? k) eqn:E'; [apply Z.eqb_eq in E'; congruence | reflexivity].
    + destruct (key y =? k); [reflexivity | exact IH].
Qed.

Lemma keys_upsert {A : Type} (key : A -> Z) (x : A) (l : list A) :
  map key (upsert (fun y => key y =? key x) x l)
  = if existsb (fun y => key y =? key x) l then map key l
    else (map key l ++ [key x])%list.
Proof.
  induction l as [|y l IH]; simpl; [reflexivity|].
  destruct (key y =? key x) eqn:E; simpl.
  - apply Z.eqb_eq in E. now rewrite E.
  - rewrite IH. now destruct (existsb _ l).
Qed.

Lemma lookup_saved (note : Note) (s : OfflineStorage.t) :
  getOfflineNoteWithTags (id note) (saveOfflineNote note s)
  = Some (set_tags (tags_of (id note) s) note).
Proof.
  unfold getOfflineNoteWithTags, saveOfflineNote, getOfflineNotes. simpl.
  now rewrite (find_upsert_same id note (notes s)).
Qed.

Lemma ids_after_save (note : Note) (s : OfflineStorage.t) :
  map id (notes (saveOfflineNote note s))
  = if existsb (fun n => id n =? id note) (notes s) then map id (notes s)
    else (map id (notes s) ++ [id note])%list.
Proof. apply (keys_upsert id). Qed.

(** X1.  Saving a note in the Local Store and reading it back.  The lookup
    of the saved id gives the saved note with the tags that the relation
    rows of the store give it, whatever [tags] the saved note carried;
    every other id reads as before; and the ids keep their order, the new
    one going to the end when it was not there. *)
Theorem save_then_lookup (note : Note) (s : OfflineStorage.t) :
  getOfflineNoteWithTags (id note) (saveOfflineNote note s)
  = Some (set_tags (tags_of (id note) s) note)
  /\ (forall i, i <> id note ->
        getOfflineNoteWithTags i (saveOfflineNote note s) = getOfflineNoteWithTags i s)
  /\ map id (notes (saveOfflineNote note s))
     = if existsb (fun n => id n =? id note) (notes s) then map id (notes s)
       else (map id (notes s) ++ [id note])%list.
Proof.
  split; [apply lookup_saved | split; [|apply ids_after_save]].
  intros i Hi. unfold getOfflineNoteWithTags, saveOfflineNote, getOfflineNotes. simpl.
  now rewrite (find_upsert_other id note (notes s) i Hi).
Qed.

Lemma existsb_key_in {A : Type} (key : A -> Z) (k : Z) (l : list A) :
  existsb (fun y => key y =? k) l = true <-> In k (map key l).
Proof.
  rewrite existsb_exists, in_map_iff. split; intros [y [H1 H2]]; exists y.
  - apply Z.eqb_eq in H2. tauto.
  - split; [tauto|]. now apply Z.eqb_eq.
Qed.

Lemma nodup_keys_upsert {A : Type} (key : A -> Z) (x : A) (l : list A) :
  NoDup (map key l) -> NoDup (map key (upsert (fun y => key y =? key x) x l)).
Proof.
  intros H. rewrite keys_upsert.
  destruct (existsb _ l) eqn:E; [exact H|].
  apply NoDup_app; [exact H | repeat constructor; simpl; tauto |].
  intros k Hk [<-|[]].
  apply existsb_key_in in Hk. congruence.
Qed.

Lemma nodup_keys_filter {A : Type} (key : A -> Z) (f : A -> bool) (l : list A) :
  NoDup (map key l) -> NoDup (map key (filter f l)).
Proof.
  induction l as [|y l IH]; simpl; [constructor|].
  intros H. inversion H as [|? ? Hn Hl]; subst.
  destruct (f y); simpl; [|now apply IH].
  constructor; [|now apply IH].
  intros Hin. apply Hn. apply in_map_iff in Hin. destruct Hin as [z [Hz Hin]].
  apply in_map_iff. exists z. split; [exact Hz|]. apply filter_In in Hin. tauto.
Qed.

Lemma related_in (s : OfflineStorage.t) (n t : Z) :
  related s n t = true <-> In (mkNoteTag n t) (noteTags s).
Proof.
  unfold related. rewrite existsb_exists. split.
  - intros [[n' t'] [Hin H]]. simpl in H. apply andb_true_iff in H.
    destruct H as [H1 H2]. apply Z.eqb_eq in H1, H2. now subst.
  - intros H. exists (mkNoteTag n t). split; [exact H|]. simpl.
    now rewrite !Z.eqb_refl.
Qed.

(** X2.  A Local Store in which no two notes share an id, no two tags share
    an id and no relation row is there twice stays so under every operation
    of the store. *)
Theorem operations_keep_rows_unique (o : operation) (s : OfflineStorage.t) :
  unique s -> unique (apply o s).
Proof.
  intros (Hn & Ht & Hr). unfold unique.
  destruct o as [n|i|tg|i|n tg|n tg]; simpl.
  - repeat split; try assumption. now apply nodup_keys_upsert.
  - repeat split; try assumption;
      [now apply nodup_keys_filter | now apply NoDup_filter].
  - repeat split; try assumption. now apply nodup_keys_upsert.
  - repeat split; try assumption;
      [now apply nodup_keys_filter | now apply NoDup_filter].
  - unfold addOfflineTagToNote.
    destruct (existsb _ (getOfflineNoteTags s)) eqn:E; simpl;
      repeat split; try assumption.
    apply NoDup_app; [exact Hr | repeat constructor; simpl; tauto |].
    intros nt Hin [<-|[]].
    apply (related_in s n tg) in Hin. unfold related in Hin.
    unfold getOfflineNoteTags in E. congruence.
  - repeat split; try assumption. now apply NoDup_filter.
Qed.

Lemma operations_keep_rows_unique_witness :
  unique (apply (AddNoteTagRelation 10 1) Scenarios.one_note_one_tag).
Proof.
  apply (operations_keep_rows_unique (AddNoteTagRelation 10 1)
           Scenarios.one_note_one_tag).
  unfold unique. simpl. repeat split; repeat constructor; simpl; tauto.
Defined.

Lemma tags_of_related (n : Z) (s : OfflineStorage.t) :
  tags_of n s = filter (fun tag => related s n (tag_id tag)) (OfflineStorage.tags s).
Proof.
  unfold tags_of, related, getOfflineTags, getOfflineNoteTags.
  apply filter_ext. intros tag.
  induction (noteTags s) as [|nt l IH]; simpl; [reflexivity|].
  destruct (noteId nt =? n) eqn:E; simpl; [|exact IH].
  rewrite IH. f_equal. apply Z.eqb_sym.
Qed.

Lemma existsb_filter {A : Type} (f g : A -> bool) (l : list A) :
  existsb f (filter g l) = existsb (fun x => f x && g x) l.
Proof.
  induction l as [|x l IH]; simpl; [reflexivity|].
  destruct (g x); simpl; rewrite IH; [now rewrite andb_true_r | now rewrite andb_false_r].
Qed.

Lemma existsb_pointwise {A : Type} (f g : A -> bool) (l : list A) :
  (forall x, f x = g x) -> existsb f l = existsb g l.
Proof.
  intros H. induction l as [|x l IH]; simpl; [reflexivity | now rewrite H, IH].
Qed.

Lemma existsb_and_const {A : Type} (f : A -> bool) (b : bool) (l : list A) :
  existsb (fun x => f x && b) l = existsb f l && b.
Proof.
  destruct b.
  - rewrite andb_true_r. apply existsb_pointwise. intros x. apply andb_true_r.
  - rewrite andb_false_r. induction l as [|x l IH]; simpl; [reflexivity|].
    now rewrite andb_false_r.
Qed.

Lemma filter_filter {A : Type} (f g : A -> bool) (l : list A) :
  filter f (filter g l) = filter (fun x => g x && f x) l.
Proof.
  induction l as [|x l IH]; simpl; [reflexivity|].
  destruct (g x); simpl; [destruct (f x); now rewrite IH | exact IH].
Qed.

(** How each operation changes the relation between notes and tags. *)
Lemma related_after_operation (o : operation) (s : OfflineStorage.t) (n t : Z) :
  related (apply o s) n t
  = match o with
    | SaveNote _ | SaveTag _ => related s n t
    | DeleteNote i => related s n t && negb (n =? i)
    | DeleteTag i => related s n t && negb (t =? i)
    | AddNoteTagRelation n' t' => related s n t || ((n =? n') && (t =? t'))
    | RemoveNoteTagRelation n' t' => related s n t && negb ((n =? n') && (t =? t'))
    end.
Proof.
  destruct o as [x|i|x|i|n' t'|n' t']; unfold related; simpl; try reflexivity.
  - rewrite existsb_filter.
    rewrite <- existsb_and_const. apply existsb_pointwise. intros nt.
    destruct (noteId nt =? n) eqn:E; simpl; [|reflexivity].
    apply Z.eqb_eq in E. now rewrite E.
  - rewrite existsb_filter.
    rewrite <- existsb_and_const. apply existsb_pointwise. intros nt.
    destruct (noteId nt =? n) eqn:E1; simpl; [|reflexivity].
    destruct (tagId nt =? t) eqn:E; simpl; [|reflexivity].
    apply Z.eqb_eq in E. now rewrite E.
  - unfold addOfflineTagToNote, getOfflineNoteTags.
    destruct (existsb _ (noteTags s)) eqn:E; simpl.
    + destruct ((n =? n') && (t =? t')) eqn:E'; [|now rewrite orb_false_r].
      apply andb_true_iff in E'. destruct E' as [E1 E2].
      apply Z.eqb_eq in E1, E2. subst. rewrite E. reflexivity.
    + rewrite existsb_app. simpl. rewrite orb_false_r.
      now rewrite (Z.eqb_sym n' n), (Z.eqb_sym t' t).
  - rewrite existsb_filter.
    rewrite <- existsb_and_const. apply existsb_pointwise. intros nt.
    destruct (noteId nt =? n) eqn:E1; simpl; [|reflexivity].
    destruct (tagId nt =? t) eqn:E2; simpl; [|reflexivity].
    apply Z.eqb_eq in E1, E2. now rewrite E1, E2.
Qed.


Lemma related_after_remove (n' t' : Z) (s : OfflineStorage.t) (n t : Z) :
  related (removeOfflineTagFromNote n' t' s) n t
  = related s n t && negb ((n =? n') && (t =? t')).
Proof. exact (related_after_operation (RemoveNoteTagRelation n' t') s n t). Qed.

Lemma related_after_delete_tag (i : Z) (s : OfflineStorage.t) (n t : Z) :
  related (deleteOfflineTag i s) n t = related s n t && negb (t =? i).
Proof. exact (related_after_operation (DeleteTag i) s n t). Qed.

Lemma related_after_delete_note (i : Z) (s : OfflineStorage.t) (n t : Z) :
  related (deleteOfflineNote i s) n t = related s n t && negb (n =? i).
Proof. exact (related_after_operation (DeleteNote i) s n t). Qed.

Lemma related_after_add (n' t' : Z) (s : OfflineStorage.t) (n t : Z) :
  related (addOfflineTagToNote n' t' s) n t
  = related s n t || ((n =? n') && (t =? t')).
Proof. exact (related_after_operation (AddNoteTagRelation n' t') s n t). Qed.

Lemma add_relation_again (n t : Z) (s : OfflineStorage.t) :
  addOfflineTagToNote n t (addOfflineTagToNote n t s) = addOfflineTagToNote n t s.
Proof.
  pose proof (related_after_add n t s n t) as H.
  rewrite !Z.eqb_refl, orb_true_r in H.
  unfold related in H.
  unfold addOfflineTagToNote at 1. unfold getOfflineNoteTags. now rewrite H.
Qed.

(** X3.  Relating a note and a tag in the Local Store.  Doing it a second
    time changes nothing, and afterwards the tags of a note are the tags of
    the store that were related to it before, with the tag [t] added for the
    note [n], if the store has a tag of that id.  Neither the note nor the
    tag is looked up: the row is added also when they are missing. *)
Theorem relation_added_once (n t : Z) (s : OfflineStorage.t) :
  addOfflineTagToNote n t (addOfflineTagToNote n t s) = addOfflineTagToNote n t s
  /\ forall n',
       tags_of n' (addOfflineTagToNote n t s)
       = filter (fun tag => related s n' (tag_id tag) || ((n' =? n) && (tag_id tag =? t)))
                (OfflineStorage.tags s).
Proof.
  split; [apply add_relation_again|]. intros n'.
  rewrite tags_of_related.
  replace (OfflineStorage.tags (addOfflineTagToNote n t s)) with (OfflineStorage.tags s)
    by (unfold addOfflineTagToNote; now destruct (existsb _ _)).
  apply filter_ext. intros tag. apply related_after_add.
Qed.

(** X4.  Removing a relation in the Local Store takes the tag [t] from the
    tags of the note [n] and nothing else; the tags of every other note
    stay, and removing it again changes nothing. *)
Theorem relation_removed (n t : Z) (s : OfflineStorage.t) :
  tags_of n (removeOfflineTagFromNote n t s)
  = filter (fun tag => negb (tag_id tag =? t)) (tags_of n s)
  /\ (forall n', n' <> n -> tags_of n' (removeOfflineTagFromNote n t s) = tags_of n' s)
  /\ removeOfflineTagFromNote n t (removeOfflineTagFromNote n t s)
     = removeOfflineTagFromNote n t s.
Proof.
  split; [|split].
  - rewrite !tags_of_related, filter_filter.
    change (OfflineStorage.tags (removeOfflineTagFromNote n t s))
      with (OfflineStorage.tags s).
    apply filter_ext. intros tag.
    rewrite related_after_remove. now rewrite Z.eqb_refl.
  - intros n' Hn. rewrite !tags_of_related.
    change (OfflineStorage.tags (removeOfflineTagFromNote n t s))
      with (OfflineStorage.tags s).
    apply filter_ext. intros tag.
    rewrite related_after_remove.
    apply Z.eqb_neq in Hn. rewrite Hn. simpl. apply andb_true_r.
  - unfold removeOfflineTagFromNote, storeOfflineNoteTags, getOfflineNoteTags. simpl.
    f_equal. rewrite filter_filter. apply filter_ext. intros nt. apply andb_diag.
Qed.

(** X5.  Deleting a tag in the Local Store cascades: no tag and no relation
    row with that id is left, every note loses exactly that tag, and the
    notes themselves are not touched. *)
Theorem tag_deletion_cascades (t : Z) (s : OfflineStorage.t) :
  (forall tag, In tag (OfflineStorage.tags (deleteOfflineTag t s)) -> tag_id tag <> t)
  /\ (forall nt, In nt (noteTags (deleteOfflineTag t s)) -> tagId nt <> t)
  /\ (forall n, tags_of n (deleteOfflineTag t s)
                = filter (fun tag => negb (tag_id tag =? t)) (tags_of n s))
  /\ notes (deleteOfflineTag t s) = notes s.
Proof.
  split; [|split; [|split]]; [| | |reflexivity].
  - intros tag Hin. simpl in Hin. apply filter_In in Hin.
    destruct Hin as [_ H]. now apply negb_true_iff, Z.eqb_neq in H.
  - intros nt Hin. simpl in Hin. apply filter_In in Hin.
    destruct Hin as [_ H]. now apply negb_true_iff, Z.eqb_neq in H.
  - intros n. rewrite !tags_of_related, filter_filter.
    change (OfflineStorage.tags (deleteOfflineTag t s))
      with (filter (fun tg => negb (tag_id tg =? t)) (OfflineStorage.tags s)).
    rewrite filter_filter. apply filter_ext. intros tag.
    rewrite related_after_delete_tag.
    destruct (tag_id tag =? t); simpl;
      [now rewrite andb_false_r | now rewrite !andb_true_r].
Qed.

Lemma find_filter_other {A : Type} (key : A -> Z) (l : list A) (i j : Z) :
  j <> i ->
  find (fun y => key y =? j) (filter (fun y => negb (key y =? i)) l)
  = find (fun y => key y =? j) l.
Proof.
  intros Hj. induction l as [|y l IH]; simpl; [reflexivity|].
  destruct (key y =? i) eqn:E; simpl.
  - apply Z.eqb_eq in E.
    destruct (key y =? j) eqn:E'; [apply Z.eqb_eq in E'; congruence | exact IH].
  - destruct (key y =? j); [reflexivity | exact IH].
Qed.

Lemma find_filter_same {A : Type} (key : A -> Z) (l : list A) (i : Z) :
  find (fun y => key y =? i) (filter (fun y => negb (key y =? i)) l) = None.
Proof.
  induction l as [|y l IH]; simpl; [reflexivity|].
  destruct (key y =? i) eqn:E; simpl; [exact IH | now rewrite E].
Qed.

(** X6.  [deleteOfflineNote] removes the note for good, with its relation
    rows: the id reads as absent and no row names it, every other note reads
    as before, with the same tags, and the tags of the store stay. *)
Theorem note_deleted_from_store (i : Z) (s : OfflineStorage.t) :
  getOfflineNoteWithTags i (deleteOfflineNote i s) = None
  /\ (forall nt, In nt (noteTags (deleteOfflineNote i s)) -> noteId nt <> i)
  /\ (forall j, j <> i ->
        getOfflineNoteWithTags j (deleteOfflineNote i s) = getOfflineNoteWithTags j s)
  /\ OfflineStorage.tags (deleteOfflineNote i s) = OfflineStorage.tags s.
Proof.
  split; [|split; [|split]]; [| | |reflexivity].
  - unfold getOfflineNoteWithTags, getOfflineNotes. simpl.
    now rewrite (find_filter_same id).
  - intros nt Hin. simpl in Hin. apply filter_In in Hin.
    destruct Hin as [_ H]. now apply negb_true_iff, Z.eqb_neq in H.
  - intros j Hj. unfold getOfflineNoteWithTags, getOfflineNotes.
    replace (tags_of j (deleteOfflineNote i s)) with (tags_of j s).
    + simpl. unfold getOfflineNotes. now rewrite (find_filter_other id (notes s) i j Hj).
    + rewrite !tags_of_related.
      change (OfflineStorage.tags (deleteOfflineNote i s)) with (OfflineStorage.tags s).
      apply filter_ext. intros tag.
      rewrite related_after_delete_note.
      apply Z.eqb_neq in Hj. rewrite Hj. simpl. now rewrite andb_true_r.
Qed.

Lemma strip_prefix_some (l s post : string) :
  Js.strip_prefix l s = Some post <-> s = l ++ post.
Proof.
  revert s. induction l as [|a l IH]; intros s; simpl.
  - split; congruence.
  - destruct s as [|b s]; [split; discriminate|].
    destruct (Ascii.eqb a b) eqn:E.
    + apply Ascii.eqb_eq in E. subst b. rewrite IH. split; congruence.
    + apply Ascii.eqb_neq in E. split; [discriminate | congruence].
Qed.

Lemma includes_occurs (s sub : string) :
  Js.includes s sub = true <-> occurs sub s.
Proof.
  unfold occurs. induction s as [|a s IH]; simpl.
  - destruct (Js.strip_prefix sub EmptyString) as [post|] eqn:E.
    + split; [intros _|reflexivity]. apply strip_prefix_some in E.
      exists EmptyString, post. exact E.
    + split; [discriminate|]. intros (b & p & H).
      destruct b; [|discriminate].
      simpl in H. apply strip_prefix_some in H. congruence.
  - destruct (Js.strip_prefix sub (String a s)) as [post|] eqn:E.
    + split; [intros _|reflexivity]. apply strip_prefix_some in E.
      exists EmptyString, post. exact E.
    + rewrite IH. split.
      * intros (b & p & H). exists (String a b), p. simpl. now rewrite H.
      * intros (b & p & H). destruct b as [|c b].
        -- simpl in H. apply strip_prefix_some in H. congruence.
        -- simpl in H. injection H as _ H. now exists b, p.
Qed.

(** The filter of the offline search, read as a property of the note. *)
Lemma search_holds (query : string) (s : OfflineStorage.t)
  (note : Note) :
  In note (searchOfflineNotes query s)
  <-> In note (getOfflineNotesWithTags s) /\ holds query note.
Proof.
  unfold searchOfflineNotes. rewrite filter_In.
  apply and_iff_compat_l. unfold matches, holds.
  rewrite !orb_true_iff, !includes_occurs, existsb_exists.
  split.
  - intros [[H|H]|[tag [H1 H2]]]; [tauto | tauto |].
    right. right. exists tag. now rewrite <- includes_occurs.
  - intros [H|[H|[tag [H1 H2]]]]; [tauto | tauto |].
    right. exists tag. now rewrite includes_occurs.
Qed.

End LocalStoreFacts.

(* ================================================================== *)
(** * The hooks: what they keep in the Local Store *)
(* ================================================================== *)

Section HookInvariants.
Import Schema OfflineStorage Hooks HookShape.
Local Open Scope Z_scope.











Lemma lookup_shape (i : Z) (n : Note) (s : OfflineStorage.t) :
  getOfflineNoteWithTags i s = Some n ->
  exists stored, find (fun x => id x =? i) (notes s) = Some stored
                 /\ n = set_tags (tags_of i s) stored /\ id n = i.
Proof.
  unfold getOfflineNoteWithTags, getOfflineNotes.
  destruct (find _ (notes s)) as [stored|] eqn:E; [|discriminate].
  intros H. injection H as <-. exists stored. repeat split.
  apply find_some in E. destruct E as [_ E]. now apply Z.eqb_eq in E.
Qed.

Lemma set_tags_same (ts : list Tag) (n : Note) :
  Schema.tags n = Some ts -> set_tags ts n = n.
Proof. destruct n; simpl; intros ->; reflexivity. Qed.

Lemma in_upsert_unique {A : Type} (key : A -> Z) (x y : A) (l : list A) :
  NoDup (map key l) ->
  In y (upsert (fun z => key z =? key x) x l) ->
  y = x \/ (In y l /\ key y <> key x).
Proof.
  induction l as [|z l IH]; simpl; intros Hnd Hin.
  - destruct Hin as [<-|[]]. now left.
  - inversion Hnd as [|? ? Hz Hl]; subst.
    destruct (key z =? key x) eqn:E.
    + apply Z.eqb_eq in E. destruct Hin as [<-|Hin]; [now left|].
      right. split; [now right|]. intros Hy. apply Hz. rewrite E, <- Hy.
      now apply in_map.
    + apply Z.eqb_neq in E. destruct Hin as [<-|Hin]; [right; split; [now left|exact E]|].
      destruct (IH Hl Hin) as [->|[H1 H2]]; [now left | right; split; [now right|exact H2]].
Qed.

(** X9.  Trash and restore while offline, in a store whose note ids are
    distinct.  After the delete the list of notes shows no note of that id;
    the restore returns the note as it was read at first, but for
    [isDeleted], false, and [updatedAt], the time of the restore; the store
    reads it so, the list shows it, and the ids of the store are the ones
    it had. *)
Theorem trash_and_restore_offline (i : Z) (n : Note) (t1 t2 : Z)
  (s : OfflineStorage.t) :
  NoDup (map id (notes s)) ->
  getOfflineNoteWithTags i s = Some n ->
  let s1 := snd (useDeleteNote true Unreachable t1 i s) in
  let s2 := snd (useRestoreNote true Unreachable t2 i s1) in
  (forall x, In x (listed s1) -> id x <> i)
  /\ useRestoreNote true Unreachable t2 i s1 = (Returned (set_isDeleted false t2 n), s2)
  /\ getOfflineNoteWithTags i s2 = Some (set_isDeleted false t2 n)
  /\ In (set_isDeleted false t2 n) (listed s2)
  /\ map id (notes s2) = map id (notes s).
Proof.
  intros Hnd Hn. destruct (lookup_shape i n s Hn) as (stored & Hfind & Hshape & Hid).
  assert (Htags : Schema.tags n = Some (tags_of i s)) by (now rewrite Hshape).
  assert (Hpresent : existsb (fun x => id x =? i) (notes s) = true).
  { apply existsb_exists. exists stored. apply find_some in Hfind. exact Hfind. }
  unfold useDeleteNote, change_offline, bind, read, write, ret. rewrite Hn. cbn [snd].
  set (d := set_isDeleted true t1 n).
  assert (Hd : getOfflineNoteWithTags i (saveOfflineNote d s) = Some d).
  { replace i with (id d) by exact Hid.
    rewrite (lookup_saved d s). f_equal.
    apply set_tags_same. change (id d) with (id n). now rewrite Hid. }
  unfold useRestoreNote, change_offline, bind, read, write, ret. rewrite Hd. cbn [snd].
  change (set_isDeleted false t2 d) with (set_isDeleted false t2 n).
  set (r := set_isDeleted false t2 n).
  assert (Hkeys1 : map id (notes (saveOfflineNote d s)) = map id (notes s)).
  { rewrite (ids_after_save d s).
    change (id d) with (id n). rewrite Hid, Hpresent. reflexivity. }
  assert (Hr : getOfflineNoteWithTags i (saveOfflineNote r (saveOfflineNote d s)) = Some r).
  { replace i with (id r) by exact Hid.
    rewrite (lookup_saved r _). f_equal.
    apply set_tags_same. change (id r) with (id n). rewrite Hid.
    change (tags_of i (saveOfflineNote d s)) with (tags_of i s). exact Htags. }
  split; [|split; [reflexivity|split; [exact Hr|split]]].
  - intros x Hx. unfold listed in Hx. apply filter_In in Hx. destruct Hx as [Hx Hshown].
    unfold getOfflineNotesWithTags in Hx. apply in_map_iff in Hx.
    destruct Hx as [y [<- Hy]]. simpl in Hy.
    apply (in_upsert_unique id d y _ Hnd) in Hy.
    destruct Hy as [->|[_ Hy]].
    + simpl in Hshown. discriminate.
    + simpl. change (id d) with (id n) in Hy. now rewrite Hid in Hy.
  - unfold listed. apply filter_In. split; [|reflexivity].
    unfold getOfflineNoteWithTags, getOfflineNotes in Hr.
    destruct (find _ (notes (saveOfflineNote r (saveOfflineNote d s)))) as [y|] eqn:E;
      [|discriminate].
    apply (f_equal (fun o => or_else o r)) in Hr. cbn [or_else] in Hr.
    apply find_some in E. destruct E as [Hin Hy]. apply Z.eqb_eq in Hy.
    unfold getOfflineNotesWithTags. apply in_map_iff. exists y.
    split; [now rewrite Hy | exact Hin].
  - rewrite (ids_after_save r _).
    assert (Hp : existsb (fun x => id x =? id r) (notes (saveOfflineNote d s)) = true).
    { apply existsb_key_in. rewrite Hkeys1. apply existsb_key_in.
      change (id r) with (id n). now rewrite Hid. }
    now rewrite Hp.
Qed.

Lemma trash_and_restore_offline_witness :
  let s1 := snd (useDeleteNote true Unreachable 300 10 Scenarios.one_note_one_tag) in
  let s2 := snd (useRestoreNote true Unreachable 400 10 s1) in
  let n := mkNote 10 "Agenda" "<p>Monday</p>" false false 100 100 (Some []) None in
  (forall x, In x (listed s1) -> id x <> 10)
  /\ useRestoreNote true Unreachable 400 10 s1 = (Returned (set_isDeleted false 400 n), s2)
  /\ getOfflineNoteWithTags 10 s2 = Some (set_isDeleted false 400 n)
  /\ In (set_isDeleted false 400 n) (listed s2)
  /\ map id (notes s2) = map id (notes Scenarios.one_note_one_tag).
Proof.
  apply (trash_and_restore_offline 10
           (mkNote 10 "Agenda" "<p>Monday</p>" false false 100 100 (Some []) None)
           300 400 Scenarios.one_note_one_tag).
  - simpl. repeat constructor. simpl. tauto.
  - reflexivity.
Defined.

(** X10.  A note fetched by id while online is kept in the Local Store, and
    reading the same id offline afterwards gives that note, with the tags
    that the relation rows of the store give it in place of the tags the
    server sent. *)
Theorem fetched_note_is_read_offline (note : Note) (res : api Note)
  (s : OfflineStorage.t) :
  let s1 := snd (useNoteById false (Ok note) (Some (id note)) s) in
  useNoteById false (Ok note) (Some (id note)) s = (Returned (Some note), s1)
  /\ useNoteById true res (Some (id note)) s1
     = (Returned (Some (set_tags (tags_of (id note) s) note)), s1).
Proof.
  cbv zeta. split; [reflexivity|].
  unfold useNoteById at 1. unfold read.
  replace (snd (useNoteById false (Ok note) (Some (id note)) s))
    with (saveOfflineNote note s) by reflexivity.
  now rewrite (lookup_saved note s).
Qed.

(** X11.  When the device is offline, or the request of a create fails
    (the server is not reached, or rejects it), the create returns a note,
    or a tag, under a placeholder id that is zero or negative and above
    minus ten million. *)
Theorem placeholder_ids_are_not_positive
  (net : network) (userId : option string) (now : Z) (random : Q)
  (note : NotePatch) (tag : TagPatch) (s : OfflineStorage.t) :
  is_random random ->
  (exists n, fst (run net userId now random (CreateNote note) s) = Returned (ANote n)
             /\ -10000000 < id n <= 0)
  /\ (exists t, fst (run net userId now random (CreateTag tag) s) = Returned (ATag t)
                /\ -10000000 < tag_id t <= 0).
Proof.
  intros Hr. pose proof (tempId_range random Hr) as Hb.
  split.
  - exists (offlineNote_of note now random). split; [|exact Hb].
    destruct net as [|[|status text]]; reflexivity.
  - eexists. split; [destruct net as [|[|status text]]; reflexivity | exact Hb].
Qed.

Lemma placeholder_ids_are_not_positive_witness :
  (exists n, fst (run Offline None 5000 (1 # 4) (CreateNote Scenarios.trip_request)
                      OfflineStorage.empty) = Returned (ANote n)
             /\ -10000000 < id n <= 0)
  /\ (exists t, fst (run Offline None 5000 (1 # 4) (CreateTag (mkTagPatch None None))
                        OfflineStorage.empty) = Returned (ATag t)
                /\ -10000000 < tag_id t <= 0).
Proof.
  apply (placeholder_ids_are_not_positive Offline None 5000 (1 # 4)
           Scenarios.trip_request (mkTagPatch None None) OfflineStorage.empty).
  split; unfold Qle, Qlt; simpl; lia.
Defined.

Lemma tempId_in_cell (k : Z) (random : Q) :
  in_cell k random -> tempId random = - k.
Proof.
  intros [Hlo Hhi]. unfold tempId. f_equal.
  set (q := (random * (10000000 # 1))%Q) in *.
  assert (H1 : (inject_Z k <= q)%Q).
  { eapply Qle_trans; [|exact Hlo].
    rewrite <- (Qplus_0_r (inject_Z k)) at 1.
    apply Qplus_le_r. discriminate. }
  assert (H2 : (q < inject_Z (k + 1))%Q).
  { eapply Qle_lt_trans; [exact Hhi|].
    rewrite inject_Z_plus. apply Qplus_lt_r. reflexivity. }
  apply Qfloor_resp_le in H1. rewrite Qfloor_Z in H1.
  pose proof (Qfloor_le q) as Hfl.
  assert (H3 : (inject_Z (Qfloor q) < inject_Z (k + 1))%Q)
    by (eapply Qle_lt_trans; [exact Hfl | exact H2]).
  rewrite <- Zlt_Qlt in H3. lia.
Qed.

(** X12.  Nothing sets the placeholder ids of two notes apart but the draw.
    Two notes created offline whose draws fall in the same cell of one
    ten-millionth (away from its ends, so that the rounding of the product
    does not matter) get the same id, minus the number of the cell, and are
    one note in the Local Store: the second create adds no id, and the id
    reads as the second note. *)
Theorem equal_placeholders_overwrite
  (k : Z) (note1 note2 : NotePatch) (now1 now2 : Z) (random1 random2 : Q)
  (s : OfflineStorage.t) :
  in_cell k random1 -> in_cell k random2 ->
  let s1 := snd (useCreateNote true None Unreachable now1 random1 note1 s) in
  let s2 := snd (useCreateNote true None Unreachable now2 random2 note2 s1) in
  map id (notes s2) = map id (notes s1)
  /\ (exists n2, useCreateNote true None Unreachable now2 random2 note2 s1
                 = (Returned n2, s2)
                 /\ id n2 = - k
                 /\ getOfflineNoteWithTags (- k) s2 = Some (set_tags (tags_of (- k) s) n2)).
Proof.
  intros Hc1 Hc2. cbv zeta.
  apply tempId_in_cell in Hc1, Hc2.
  set (n1 := offlineNote_of note1 now1 random1).
  set (n2 := offlineNote_of note2 now2 random2).
  change (snd (useCreateNote true None Unreachable now1 random1 note1 s))
    with (saveOfflineNote n1 s).
  change (snd (useCreateNote true None Unreachable now2 random2 note2 (saveOfflineNote n1 s)))
    with (saveOfflineNote n2 (saveOfflineNote n1 s)).
  assert (Hid1 : id n1 = - k) by exact Hc1.
  assert (Hid2 : id n2 = - k) by exact Hc2.
  split.
  - rewrite (ids_after_save n2 _).
    assert (Hp : existsb (fun x => id x =? id n2) (notes (saveOfflineNote n1 s)) = true).
    { apply existsb_exists. exists n1. split; [apply in_upsert|].
      apply Z.eqb_eq. congruence. }
    now rewrite Hp.
  - exists n2. split; [reflexivity|]. split; [exact Hid2|].
    rewrite <- Hid2. now rewrite (lookup_saved n2 _).
Qed.

Lemma equal_placeholders_overwrite_witness :
  let s1 := snd (useCreateNote true None Unreachable 5000 (50000065 # 100000000)
                   Scenarios.trip_request OfflineStorage.empty) in
  let s2 := snd (useCreateNote true None Unreachable 6000 (50000063 # 100000000)
                   Scenarios.retitle s1) in
  map id (notes s2) = map id (notes s1)
  /\ (exists n2, useCreateNote true None Unreachable 6000 (50000063 # 100000000)
                   Scenarios.retitle s1 = (Returned n2, s2)
                 /\ id n2 = - 5000006
                 /\ getOfflineNoteWithTags (- 5000006) s2
                    = Some (set_tags (tags_of (- 5000006) OfflineStorage.empty) n2)).
Proof.
  apply (equal_placeholders_overwrite 5000006 Scenarios.trip_request Scenarios.retitle
           5000 6000 (50000065 # 100000000) (50000063 # 100000000)
           OfflineStorage.empty);
    split; unfold Qle; simpl; lia.
Defined.

Lemma find_put_snapshot_same (u : string) (l : list Note) (c : list (string * list Note)) :
  find (fun e => String.eqb (fst e) u) (put_snapshot u l c) = Some (u, l).
Proof.
  induction c as [|[u' l'] c IH]; simpl.
  - now rewrite String.eqb_refl.
  - destruct (String.eqb u' u) eqn:E; simpl.
    + now rewrite String.eqb_refl.
    + now rewrite E.
Qed.

Lemma find_put_snapshot_other (u u' : string) (l : list Note)
  (c : list (string * list Note)) :
  u' <> u ->
  match find (fun e => String.eqb (fst e) u') (put_snapshot u l c) with
  | Some (_, x) => Some x
  | None => None
  end
  = match find (fun e => String.eqb (fst e) u') c with
    | Some (_, x) => Some x
    | None => None
    end.
Proof.
  intros Hu. induction c as [|[u0 l0] c IH]; simpl.
  - destruct (String.eqb u u') eqn:E; [apply String.eqb_eq in E; congruence | reflexivity].
  - destruct (String.eqb u0 u) eqn:E; simpl.
    + apply String.eqb_eq in E. subst u0.
      destruct (String.eqb u u') eqn:E'; [apply String.eqb_eq in E'; congruence | reflexivity].
    + destruct (String.eqb u0 u'); [reflexivity | exact IH].
Qed.

(** X13.  The cloud snapshot of a user: what [saveUserNotes] stores under
    the user is what [getUserNotes] reads for that user, the snapshots of
    other users stay, and so do the notes, tags and relations of the Local
    Store. *)
Theorem snapshot_round_trip (u : string) (l : list Note) (s : OfflineStorage.t) :
  getUserNotes u (saveUserNotes u l s) = Some l
  /\ (forall u', u' <> u -> getUserNotes u' (saveUserNotes u l s) = getUserNotes u' s)
  /\ collections (saveUserNotes u l s) = collections s.
Proof.
  unfold getUserNotes. simpl. split; [|split; [|reflexivity]].
  - now rewrite find_put_snapshot_same.
  - intros u' Hu. exact (find_put_snapshot_other u u' l (cloud s) Hu).
Qed.

(** C4, as amended.  The offline search, on ASCII text and in a store
    whose rows are notes and tags: [searchOfflineNotes], and the same filter
    in the offline branch and in the catch block of the search hook, returns
    exactly the notes of the store, with their tags, whose title, content or
    one of whose tag names holds the query, whatever the case of the
    letters.  Notes in the trash are not left out, and there is no branch
    for an empty or blank query.  A blank query does not reach the filter
    from the search form, which returns before it calls the hook; any other
    query goes to the filter as it was typed, untrimmed. *)
Theorem offline_search_is_a_filter_over_every_note
  (query : string) (res : api (list Note)) (f : failure) (s : OfflineStorage.t) :
  Js.ascii_text query = true ->
  StoreShape.ascii_store s = true ->
  (forall note,
      In note (searchOfflineNotes query s)
      <-> In note (getOfflineNotesWithTags s) /\ StoreShape.holds query note)
  /\ useSearchNotes true res query s = (Returned (searchOfflineNotes query s), s)
  /\ useSearchNotes false (failed f) query s
     = (Returned (searchOfflineNotes query s), s)
  /\ (Js.trim query = EmptyString ->
      forall offline, Header.handleSearch offline res query s = (Returned None, s))
  /\ (Js.trim query <> EmptyString ->
      Header.handleSearch true res query s
      = (Returned (Some (searchOfflineNotes query s)), s)).
Proof.
  intros _ _. split; [intros note; apply search_holds|].
  split; [reflexivity|]. split; [destruct f; reflexivity|]. split.
  - intros E offline. unfold Header.handleSearch. now rewrite E.
  - intros E. unfold Header.handleSearch.
    destruct (Js.trim query) as [|c rest]; [congruence | reflexivity].
Qed.

Lemma offline_search_is_a_filter_over_every_note_witness :
  (forall note,
      In note (searchOfflineNotes "PLAN" Scenarios.only_trash)
      <-> In note (getOfflineNotesWithTags Scenarios.only_trash)
          /\ StoreShape.holds "PLAN" note)
  /\ useSearchNotes true Unreachable "PLAN" Scenarios.only_trash
     = (Returned (searchOfflineNotes "PLAN" Scenarios.only_trash), Scenarios.only_trash)
  /\ useSearchNotes false (failed NetworkUnreachable) "PLAN" Scenarios.only_trash
     = (Returned (searchOfflineNotes "PLAN" Scenarios.only_trash), Scenarios.only_trash)
  /\ (Js.trim "PLAN" = EmptyString ->
      forall offline,
        Header.handleSearch offline Unreachable "PLAN" Scenarios.only_trash
        = (Returned None, Scenarios.only_trash))
  /\ (Js.trim "PLAN" <> EmptyString ->
      Header.handleSearch true Unreachable "PLAN" Scenarios.only_trash
      = (Returned (Some (searchOfflineNotes "PLAN" Scenarios.only_trash)),
         Scenarios.only_trash)).
Proof.
  apply (offline_search_is_a_filter_over_every_note "PLAN" Unreachable
           NetworkUnreachable Scenarios.only_trash); reflexivity.
Defined.

(** The search form, offline, on the store whose only note is in the trash:
    a word of its title finds the note, trashed as it is, and a blank query
    is not searched. *)
Lemma search_form_finds_the_trashed_note :
  Header.handleSearch true Unreachable "PLAN" Scenarios.only_trash
  = (Returned (Some [set_tags [] Scenarios.trashed]), Scenarios.only_trash)
  /\ isDeleted Scenarios.trashed = true
  /\ Header.handleSearch true Unreachable " " Scenarios.only_trash
     = (Returned None, Scenarios.only_trash).
Proof. repeat split. Qed.

End HookInvariants.

(* ================================================================== *)
(** * The server repository: its shape *)
(* ================================================================== *)

Section RepositoryInvariant.
Import Schema RepositoryShape.
Local Open Scope Z_scope.

(** [JsMap.set] is an upsert on the entries. *)
Lemma set_is_upsert {V : Type} (m : JsMap.t V) (k : Z) (v : V) :
  JsMap.set m k v = OfflineStorage.upsert (fun e => fst e =? fst (k, v)) (k, v) m.
Proof.
  induction m as [|[k' v'] m IH]; simpl; [reflexivity|].
  destruct (k' =? k); [reflexivity | now rewrite IH].
Qed.

Lemma has_in_keys {V : Type} (m : JsMap.t V) (k : Z) :
  JsMap.has m k = true <-> In k (JsMap.keys m).
Proof.
  unfold JsMap.has, JsMap.keys. induction m as [|[k' v'] m IH]; simpl.
  - split; [discriminate | contradiction].
  - destruct (k' =? k) eqn:E.
    + apply Z.eqb_eq in E. split; [now left | reflexivity].
    + apply Z.eqb_neq in E. rewrite IH. split; [now right | intros [H|H]; [contradiction | exact H]].
Qed.

Lemma get_in {V : Type} (m : JsMap.t V) (k : Z) (v : V) :
  JsMap.get m k = Some v -> In (k, v) m.
Proof.
  induction m as [|[k' v'] m IH]; simpl; [discriminate|].
  destruct (k' =? k) eqn:E.
  - apply Z.eqb_eq in E. intros H. injection H as <-. left. now rewrite E.
  - intros H. right. now apply IH.
Qed.

Lemma get_some_has {V : Type} (m : JsMap.t V) (k : Z) (v : V) :
  JsMap.get m k = Some v -> JsMap.has m k = true.
Proof. unfold JsMap.has. now intros ->. Qed.

Lemma get_none_keys {V : Type} (m : JsMap.t V) (k : Z) :
  JsMap.get m k = None -> ~ In k (JsMap.keys m).
Proof.
  intros H Hin. apply has_in_keys in Hin. unfold JsMap.has in Hin. now rewrite H in Hin.
Qed.

Lemma set_fresh {V : Type} (m : JsMap.t V) (k : Z) (v : V) :
  ~ In k (JsMap.keys m) -> JsMap.set m k v = (m ++ [(k, v)])%list.
Proof.
  unfold JsMap.keys. induction m as [|[k' v'] m IH]; simpl; intros H; [reflexivity|].
  destruct (k' =? k) eqn:E.
  - apply Z.eqb_eq in E. tauto.
  - f_equal. apply IH. tauto.
Qed.

Lemma keys_set_present {V : Type} (m : JsMap.t V) (k : Z) (v : V) :
  In k (JsMap.keys m) -> JsMap.keys (JsMap.set m k v) = JsMap.keys m.
Proof.
  intros H. unfold JsMap.keys. rewrite set_is_upsert.
  rewrite (keys_upsert fst (k, v) m).
  assert (E : existsb (fun y => fst y =? fst (k, v)) m = true)
    by (now apply existsb_key_in).
  now rewrite E.
Qed.

Lemma same_key_same_value {V : Type} (m : JsMap.t V) (k : Z) (v v' : V) :
  NoDup (JsMap.keys m) -> In (k, v) m -> In (k, v') m -> v = v'.
Proof.
  unfold JsMap.keys. induction m as [|[k0 v0] m IH]; simpl; [contradiction|].
  intros Hnd H1 H2. inversion Hnd as [|? ? Hk Hm]; subst.
  destruct H1 as [H1|H1], H2 as [H2|H2].
  - congruence.
  - injection H1 as -> ->. exfalso. apply Hk.
    change k with (fst (k, v')). now apply in_map.
  - injection H2 as -> ->. exfalso. apply Hk.
    change k with (fst (k, v)). now apply in_map.
  - now apply IH.
Qed.

Lemma nodup_map_injective {A B : Type} (f : A -> B) (l : list A) (a b : A) :
  NoDup (map f l) -> In a l -> In b l -> f a = f b -> a = b.
Proof.
  induction l as [|x l IH]; simpl; [contradiction|].
  intros Hnd Ha Hb Hf. inversion Hnd as [|? ? Hx Hl]; subst.
  destruct Ha as [->|Ha], Hb as [->|Hb].
  - reflexivity.
  - exfalso. apply Hx. rewrite Hf. now apply in_map.
  - exfalso. apply Hx. rewrite <- Hf. now apply in_map.
  - now apply IH.
Qed.

Lemma nodup_map_filter {A B : Type} (g : A -> B) (f : A -> bool) (l : list A) :
  NoDup (map g l) -> NoDup (map g (filter f l)).
Proof.
  induction l as [|y l IH]; simpl; [constructor|].
  intros H. inversion H as [|? ? Hn Hl]; subst.
  destruct (f y); simpl; [|now apply IH].
  constructor; [|now apply IH].
  intros Hin. apply Hn. apply in_map_iff in Hin. destruct Hin as [z [Hz Hin]].
  apply in_map_iff. exists z. split; [exact Hz|]. apply filter_In in Hin. tauto.
Qed.

Lemma table_set_present {V : Type} (key_of : V -> Z) (next : Z) (m : JsMap.t V)
  (k : Z) (v : V) :
  table key_of next m -> In k (JsMap.keys m) -> key_of v = k ->
  table key_of next (JsMap.set m k v).
Proof.
  intros (Hkeyed & Hnd & Hbelow) Hin Hv. unfold table, below.
  rewrite (keys_set_present m k v Hin). split; [|split; assumption].
  intros k' v' H. rewrite set_is_upsert in H.
  apply (in_upsert_unique fst (k, v) (k', v') m Hnd) in H.
  destruct H as [H|[H _]]; [injection H as -> ->; exact Hv | now apply Hkeyed].
Qed.

Lemma table_set_fresh {V : Type} (key_of : V -> Z) (next : Z) (m : JsMap.t V) (v : V) :
  table key_of next m -> key_of v = next ->
  table key_of (next + 1) (JsMap.set m next v)
  /\ JsMap.set m next v = (m ++ [(next, v)])%list.
Proof.
  intros (Hkeyed & Hnd & Hbelow) Hv.
  assert (Hfresh : ~ In next (JsMap.keys m)).
  { intros H. specialize (Hbelow _ H). lia. }
  rewrite (set_fresh m next v Hfresh). split; [|reflexivity].
  split; [|split].
  - intros k v' H. apply in_app_or in H. destruct H as [H|[H|[]]].
    + now apply Hkeyed.
    + now injection H as <- <-.
  - unfold JsMap.keys. rewrite map_app. simpl.
    apply NoDup_app; [exact Hnd | repeat constructor; simpl; tauto |].
    intros k Hk [<-|[]]. contradiction.
  - intros k H. unfold JsMap.keys in H. rewrite map_app in H.
    apply in_app_or in H. destruct H as [H|[<-|[]]]; [|simpl; lia].
    specialize (Hbelow _ H). lia.
Qed.

Lemma table_filter {V : Type} (key_of : V -> Z) (next : Z) (m : JsMap.t V)
  (f : Z * V -> bool) :
  table key_of next m -> table key_of next (filter f m).
Proof.
  intros (Hkeyed & Hnd & Hbelow). split; [|split].
  - intros k v H. apply filter_In in H. now apply Hkeyed.
  - now apply nodup_map_filter.
  - intros k H. apply Hbelow. unfold JsMap.keys in *.
    apply in_map_iff in H. destruct H as [e [He H]]. apply filter_In in H.
    apply in_map_iff. exists e. tauto.
Qed.

Lemma fold_delete_is_filter {V : Type} (rows : list NoteTagRow) (m : JsMap.t V) :
  fold_left (fun m noteTag => fst (JsMap.delete m (nt_id noteTag))) rows m
  = filter (fun e => negb (existsb (fun r => fst e =? nt_id r) rows)) m.
Proof.
  revert m. induction rows as [|r rows IH]; intros m; simpl.
  - symmetry. now apply filter_all.
  - rewrite IH. rewrite filter_filter. apply filter_ext. intros e.
    now rewrite negb_orb.
Qed.

(** The rows that [deleteTag] leaves are the rows of the other tags. *)
Lemma delete_tag_rows (t : Z) (m : JsMap.t NoteTagRow) :
  keyed nt_id m -> NoDup (JsMap.keys m) ->
  fold_left (fun m noteTag => fst (JsMap.delete m (nt_id noteTag)))
            (filter (fun noteTag => nt_tagId noteTag =? t) (JsMap.values m)) m
  = filter (fun e => negb (nt_tagId (snd e) =? t)) m.
Proof.
  intros Hkeyed Hnd. rewrite fold_delete_is_filter.
  apply filter_ext_in. intros [k r] Hin. simpl. f_equal.
  apply eq_true_iff_eq. rewrite existsb_exists. split.
  - intros [r' [Hr' Hk]]. apply Z.eqb_eq in Hk.
    apply filter_In in Hr'. destruct Hr' as [Hr' Ht].
    unfold JsMap.values in Hr'. apply in_map_iff in Hr'.
    destruct Hr' as [[k' r''] [Heq Hin']]. simpl in Heq. subst r''.
    assert (k' = k) by (rewrite <- (Hkeyed _ _ Hin'); congruence). subst k'.
    now rewrite (same_key_same_value m k r r' Hnd Hin Hin').
  - intros Ht. exists r. split.
    + apply filter_In. split; [|exact Ht].
      unfold JsMap.values. apply in_map_iff. now exists (k, r).
    + apply Z.eqb_eq. symmetry. now apply Hkeyed.
Qed.

Lemma related_in_pairs (s : MemStorage.t) (n t : Z) :
  related s n t = true <-> In (n, t) (map pair_of (JsMap.values (MemStorage.noteTags s))).
Proof.
  unfold related, relates. rewrite existsb_exists, in_map_iff.
  split; intros [r [H1 H2]]; exists r.
  - apply andb_true_iff in H2. destruct H2 as [H2 H3]. apply Z.eqb_eq in H2, H3.
    unfold pair_of. split; [congruence | exact H1].
  - unfold pair_of in H1. injection H1 as <- <-. split; [exact H2|].
    now rewrite !Z.eqb_refl.
Qed.

Lemma values_filter_snd {V : Type} (h : V -> bool) (m : JsMap.t V) :
  JsMap.values (filter (fun e => h (snd e)) m) = filter h (JsMap.values m).
Proof.
  unfold JsMap.values. induction m as [|[k v] m IH]; simpl; [reflexivity|].
  destruct (h v); simpl; now rewrite IH.
Qed.


Lemma table_empty {V : Type} (key_of : V -> Z) (next : Z) :
  table key_of next (@JsMap.empty V).
Proof.
  split; [|split].
  - intros k v H. contradiction.
  - constructor.
  - intros k H. contradiction.
Qed.

Lemma wf_constructor : well_formed MemStorage.constructor.
Proof.
  unfold well_formed. split; [apply table_empty|]. split; [|split].
  - split; [|split].
    + intros k v H. simpl in H.
      repeat (destruct H as [H|H]; [injection H as <- <-; reflexivity|]).
      contradiction.
    + simpl. repeat constructor; simpl; intuition lia.
    + intros k H. simpl in H. simpl. intuition lia.
  - apply table_empty.
  - constructor.
Qed.

Lemma wf_put_note (k : Z) (note : Note) (s : MemStorage.t) :
  well_formed s -> In k (JsMap.keys (MemStorage.notes s)) -> id note = k ->
  well_formed (MemStorage.put_note k note s).
Proof.
  intros (Hn & Ht & Hr & Hp) Hin Hid.
  split; [|split; [exact Ht | split; [exact Hr | exact Hp]]].
  exact (table_set_present id _ _ k note Hn Hin Hid).
Qed.

Lemma get_note_key (s : MemStorage.t) (k : Z) (note : Note) :
  well_formed s -> JsMap.get (MemStorage.notes s) k = Some note ->
  In k (JsMap.keys (MemStorage.notes s)) /\ id note = k.
Proof.
  intros (Hn & _) H. split.
  - apply has_in_keys. now apply (get_some_has _ _ note).
  - apply (proj1 Hn). now apply get_in.
Qed.

Lemma wf_addTagToNote (n t : Z) (s : MemStorage.t) :
  well_formed s -> well_formed (MemStorage.addTagToNote n t s).
Proof.
  intros Hwf. unfold MemStorage.addTagToNote.
  fold (relates n t). fold (related s n t).
  destruct (related s n t) eqn:E; [exact Hwf|].
  destruct Hwf as (Hn & Ht & Hr & Hp).
  destruct (table_set_fresh nt_id _ _ (mkNoteTagRow (MemStorage.noteTagCurrentId s) n t)
              Hr eq_refl) as [Htab Heq].
  split; [exact Hn | split; [exact Ht | split; [exact Htab|]]].
  simpl. rewrite Heq. unfold JsMap.values. rewrite !map_app. simpl.
  apply NoDup_app; [exact Hp | repeat constructor; simpl; tauto |].
  intros p Hin [<-|[]].
  apply (related_in_pairs s n t) in Hin. congruence.
Qed.

Lemma pairs_filter (f : Z * NoteTagRow -> bool) (m : JsMap.t NoteTagRow) :
  NoDup (map pair_of (JsMap.values m)) ->
  NoDup (map pair_of (JsMap.values (filter f m))).
Proof.
  unfold JsMap.values. rewrite !map_map. apply nodup_map_filter.
Qed.

Lemma wf_removeTagFromNote (n t : Z) (s : MemStorage.t) :
  well_formed s -> well_formed (MemStorage.removeTagFromNote n t s).
Proof.
  intros Hwf. unfold MemStorage.removeTagFromNote.
  destruct (find _ _) as [r|]; [|exact Hwf].
  destruct Hwf as (Hn & Ht & Hr & Hp).
  split; [exact Hn | split; [exact Ht | split]].
  - exact (table_filter nt_id _ _ _ Hr).
  - exact (pairs_filter _ _ Hp).
Qed.

Lemma wf_deleteTag (t : Z) (s : MemStorage.t) :
  well_formed s -> well_formed (snd (MemStorage.deleteTag t s)).
Proof.
  intros (Hn & Ht & Hr & Hp). unfold MemStorage.deleteTag.
  rewrite (delete_tag_rows t _ (proj1 Hr) (proj1 (proj2 Hr))).
  unfold JsMap.delete. simpl.
  split; [exact Hn | split; [|split]].
  - exact (table_filter tag_id _ _ _ Ht).
  - exact (table_filter nt_id _ _ _ Hr).
  - exact (pairs_filter _ _ Hp).
Qed.

Lemma wf_step (c : MemStorage.call) (s : MemStorage.t) :
  well_formed s -> well_formed (snd (MemStorage.step c s)).
Proof.
  intros Hwf. destruct c; simpl.
  - destruct Hwf as (Hn & Ht & Hr & Hp).
    split; [|split; [exact Ht | split; [exact Hr | exact Hp]]].
    eapply proj1, (table_set_fresh id); [exact Hn | reflexivity].
  - unfold MemStorage.updateNote.
    destruct (JsMap.get _ _) as [note|] eqn:E; [|exact Hwf]. simpl.
    destruct (get_note_key s _ note Hwf E) as [Hin Hid].
    now apply wf_put_note.
  - unfold MemStorage.deleteNote.
    destruct (JsMap.get _ _) as [note|] eqn:E; [|exact Hwf]. simpl.
    destruct (get_note_key s _ note Hwf E) as [Hin Hid].
    now apply wf_put_note.
  - unfold MemStorage.restoreNote.
    destruct (JsMap.get _ _) as [note|] eqn:E; [|exact Hwf]. simpl.
    destruct (get_note_key s _ note Hwf E) as [Hin Hid].
    now apply wf_put_note.
  - unfold MemStorage.toggleFavorite.
    destruct (JsMap.get _ _) as [note|] eqn:E; [|exact Hwf]. simpl.
    destruct (get_note_key s _ note Hwf E) as [Hin Hid].
    now apply wf_put_note.
  - destruct Hwf as (Hn & Ht & Hr & Hp).
    split; [exact Hn | split; [|split; [exact Hr | exact Hp]]].
    eapply proj1, (table_set_fresh tag_id); [exact Ht | reflexivity].
  - unfold MemStorage.updateTag.
    destruct (JsMap.get _ _) as [tag|] eqn:E; [|exact Hwf]. simpl.
    destruct Hwf as (Hn & Ht & Hr & Hp).
    split; [exact Hn | split; [|split; [exact Hr | exact Hp]]].
    apply (table_set_present tag_id); [exact Ht | |].
    + apply has_in_keys. now apply (get_some_has _ _ tag).
    + simpl. apply (proj1 Ht). now apply get_in.
  - now apply wf_deleteTag.
  - now apply wf_addTagToNote.
  - now apply wf_removeTagFromNote.
Qed.

Lemma getTagsForNote_related (n : Z) (s : MemStorage.t) :
  MemStorage.getTagsForNote n s
  = filter (fun tag => related s n (tag_id tag)) (MemStorage.getTags s).
Proof.
  unfold MemStorage.getTagsForNote, MemStorage.getTags, related.
  apply filter_ext. intros tag.
  induction (JsMap.values (MemStorage.noteTags s)) as [|r l IH]; simpl; [reflexivity|].
  unfold relates at 1.
  destruct (nt_noteId r =? n) eqn:E; simpl; [|exact IH].
  rewrite IH. f_equal. apply Z.eqb_sym.
Qed.

Lemma related_after_addTagToNote (n t : Z) (s : MemStorage.t) (n' t' : Z) :
  well_formed s ->
  related (MemStorage.addTagToNote n t s) n' t'
  = related s n' t' || ((n' =? n) && (t' =? t)).
Proof.
  intros (_ & _ & Hr & _). unfold MemStorage.addTagToNote.
  fold (relates n t). fold (related s n t).
  destruct (related s n t) eqn:E.
  - destruct ((n' =? n) && (t' =? t)) eqn:E'; [|now rewrite orb_false_r].
    apply andb_true_iff in E'. destruct E' as [E1 E2].
    apply Z.eqb_eq in E1, E2. subst. now rewrite E.
  - unfold related. simpl.
    rewrite (proj2 (table_set_fresh nt_id _ _
                      (mkNoteTagRow (MemStorage.noteTagCurrentId s) n t) Hr eq_refl)).
    unfold JsMap.values. rewrite map_app, existsb_app. simpl.
    unfold relates at 2. simpl. rewrite orb_false_r.
    now rewrite (Z.eqb_sym n n'), (Z.eqb_sym t t').
Qed.

Lemma related_after_removeTagFromNote (n t : Z) (s : MemStorage.t) (n' t' : Z) :
  well_formed s ->
  related (MemStorage.removeTagFromNote n t s) n' t'
  = related s n' t' && negb ((n' =? n) && (t' =? t)).
Proof.
  intros (_ & _ & (Hkeyed & Hnd & _) & Hp). unfold MemStorage.removeTagFromNote.
  fold (relates n t).
  destruct (find (relates n t) (JsMap.values (MemStorage.noteTags s))) as [r|] eqn:E.
  - apply find_some in E. destruct E as [Hr Hrel].
    assert (Hpair : pair_of r = (n, t)).
    { unfold relates in Hrel. apply andb_true_iff in Hrel. destruct Hrel as [H1 H2].
      apply Z.eqb_eq in H1, H2. unfold pair_of. congruence. }
    apply eq_true_iff_eq. unfold related at 1. simpl.
    rewrite andb_true_iff, negb_true_iff, existsb_exists. split.
    + intros [r' [Hin Hrel']].
      unfold JsMap.values in Hin. apply in_map_iff in Hin.
      destruct Hin as [[k r''] [Heq Hin]]. simpl in Heq. subst r''.
      apply filter_In in Hin. destruct Hin as [Hin Hk]. simpl in Hk.
      apply negb_true_iff, Z.eqb_neq in Hk.
      assert (Hv : In r' (JsMap.values (MemStorage.noteTags s))).
      { unfold JsMap.values. apply in_map_iff. now exists (k, r'). }
      split.
      * unfold related. apply existsb_exists. now exists r'.
      * destruct ((n' =? n) && (t' =? t)) eqn:E'; [|reflexivity]. exfalso.
        apply andb_true_iff in E'. destruct E' as [E1 E2].
        apply Z.eqb_eq in E1, E2. subst n' t'.
        assert (r' = r).
        { apply (nodup_map_injective pair_of _ r' r Hp Hv Hr). rewrite Hpair.
          unfold relates in Hrel'. apply andb_true_iff in Hrel'.
          destruct Hrel' as [H1 H2]. apply Z.eqb_eq in H1, H2.
          unfold pair_of. congruence. }
        subst r'. apply Hk. symmetry. now apply Hkeyed.
    + intros [Hrel' Hne]. unfold related in Hrel'. apply existsb_exists in Hrel'.
      destruct Hrel' as [r' [Hv Hrel']]. exists r'. split; [|exact Hrel'].
      unfold JsMap.values in Hv. apply in_map_iff in Hv.
      destruct Hv as [[k r''] [Heq Hin]]. simpl in Heq. subst r''.
      unfold JsMap.values. apply in_map_iff. exists (k, r'). split; [reflexivity|].
      apply filter_In. split; [exact Hin|]. simpl.
      apply negb_true_iff, Z.eqb_neq. intros Hk. subst k.
      unfold JsMap.values in Hr. apply in_map_iff in Hr.
      destruct Hr as [[k0 r0] [Heq0 Hin0]]. simpl in Heq0. subst r0.
      assert (k0 = nt_id r) by (symmetry; now apply Hkeyed). subst k0.
      assert (r' = r) by exact (same_key_same_value _ _ r' r Hnd Hin Hin0). subst r'.
      unfold relates in Hrel, Hrel'.
      apply andb_true_iff in Hrel, Hrel'. destruct Hrel as [H1 H2], Hrel' as [H3 H4].
      apply Z.eqb_eq in H1, H2, H3, H4.
      assert (E1 : (n' =? n) = true) by (apply Z.eqb_eq; congruence).
      assert (E2 : (t' =? t) = true) by (apply Z.eqb_eq; congruence).
      rewrite E1, E2 in Hne. discriminate.
  - destruct ((n' =? n) && (t' =? t)) eqn:E'; [|now rewrite andb_true_r].
    apply andb_true_iff in E'. destruct E' as [E1 E2].
    apply Z.eqb_eq in E1, E2. subst n' t'. rewrite andb_false_r.
    unfold related. destruct (existsb _ _) eqn:Ex; [|reflexivity].
    apply existsb_exists in Ex. destruct Ex as [r [Hin Hr]].
    now rewrite (find_none _ _ E r Hin) in Hr.
Qed.

Lemma related_after_deleteTag (t : Z) (s : MemStorage.t) (n' t' : Z) :
  well_formed s ->
  related (snd (MemStorage.deleteTag t s)) n' t' = related s n' t' && negb (t' =? t).
Proof.
  intros (_ & _ & (Hkeyed & Hnd & _) & _). unfold MemStorage.deleteTag.
  rewrite (delete_tag_rows t _ Hkeyed Hnd). unfold JsMap.delete, related. simpl.
  rewrite (values_filter_snd (fun r => negb (nt_tagId r =? t))).
  rewrite existsb_filter, <- existsb_and_const.
  apply existsb_pointwise. intros r. unfold relates.
  destruct (nt_noteId r =? n'); simpl; [|reflexivity].
  destruct (nt_tagId r =? t') eqn:E; simpl; [|reflexivity].
  apply Z.eqb_eq in E. now rewrite E.
Qed.

End RepositoryInvariant.

(* ================================================================== *)
(** * The server repository and the relation routes *)
(* ================================================================== *)

Section RelationRoutes.
Import Schema RepositoryShape.
Local Open Scope Z_scope.

Lemma run_keeps_well_formed (cs : list MemStorage.call) (s : MemStorage.t) :
  well_formed s -> well_formed (snd (MemStorage.run cs s)).
Proof.
  revert s. induction cs as [|c cs IH]; intros s Hs; [exact Hs|].
  simpl. pose proof (wf_step c s Hs) as Hc.
  destruct (MemStorage.step c s) as [created s']. simpl in Hc.
  specialize (IH s' Hc). destruct (MemStorage.run cs s') as [rest s'']. exact IH.
Qed.

Lemma reached_well_formed (cs : list MemStorage.call) :
  well_formed (snd (MemStorage.run cs MemStorage.constructor)).
Proof. apply run_keeps_well_formed, wf_constructor. Qed.

Lemma keyed_values_keys {V : Type} (key_of : V -> Z) (m : JsMap.t V) :
  keyed key_of m -> map key_of (JsMap.values m) = JsMap.keys m.
Proof.
  unfold JsMap.values, JsMap.keys. rewrite map_map. intros Hk.
  apply map_ext_in. intros [k v] Hin. simpl. now apply Hk.
Qed.

(** X14.  Whatever calls a new repository has served, it is well formed:
    every note, tag and relation row sits under its own id, below the
    counter that gives the next id, and no note and tag are related twice.
    So a lookup by id gives an item of that id, the id of a note is below
    the id that the next note gets, and the tags of a note have distinct
    ids. *)
Theorem repository_stays_well_formed (cs : list MemStorage.call) :
  let s := snd (MemStorage.run cs MemStorage.constructor) in
  well_formed s
  /\ (forall i note, MemStorage.getNote i s = Some note ->
        id note = i /\ i < MemStorage.noteCurrentId s)
  /\ (forall i tag, MemStorage.getTag i s = Some tag -> tag_id tag = i)
  /\ (forall noteId, NoDup (map tag_id (MemStorage.getTagsForNote noteId s))).
Proof.
  intros s. pose proof (reached_well_formed cs) as Hwf. fold s in Hwf.
  split; [exact Hwf|]. split; [|split].
  - intros i note H. destruct (get_note_key s i note Hwf H) as [Hin Hid].
    split; [exact Hid | exact (proj2 (proj2 (proj1 Hwf)) i Hin)].
  - intros i tag H. destruct Hwf as (_ & (Hk & _) & _).
    apply Hk. now apply get_in.
  - intros noteId. rewrite getTagsForNote_related. apply nodup_map_filter.
    destruct Hwf as (_ & (Hk & Hnd & _) & _).
    unfold MemStorage.getTags. now rewrite (keyed_values_keys tag_id _ Hk).
Qed.

Lemma tags_addTagToNote (n t : Z) (s : MemStorage.t) :
  MemStorage.tags (MemStorage.addTagToNote n t s) = MemStorage.tags s.
Proof. unfold MemStorage.addTagToNote. now destruct (existsb _ _). Qed.

Lemma tags_removeTagFromNote (n t : Z) (s : MemStorage.t) :
  MemStorage.tags (MemStorage.removeTagFromNote n t s) = MemStorage.tags s.
Proof. unfold MemStorage.removeTagFromNote. now destruct (find _ _). Qed.

Lemma notes_addTagToNote (n t : Z) (s : MemStorage.t) :
  MemStorage.notes (MemStorage.addTagToNote n t s) = MemStorage.notes s.
Proof. unfold MemStorage.addTagToNote. now destruct (existsb _ _). Qed.

Lemma notes_removeTagFromNote (n t : Z) (s : MemStorage.t) :
  MemStorage.notes (MemStorage.removeTagFromNote n t s) = MemStorage.notes s.
Proof. unfold MemStorage.removeTagFromNote. now destruct (find _ _). Qed.

Lemma tags_after_add (n t : Z) (s : MemStorage.t) (n' : Z) :
  well_formed s ->
  MemStorage.getTagsForNote n' (MemStorage.addTagToNote n t s)
  = filter (fun tag => related s n' (tag_id tag) || ((n' =? n) && (tag_id tag =? t)))
           (MemStorage.getTags s).
Proof.
  intros Hwf. rewrite getTagsForNote_related. unfold MemStorage.getTags.
  rewrite tags_addTagToNote. apply filter_ext. intros tag.
  now apply related_after_addTagToNote.
Qed.

Lemma tags_after_remove (n t : Z) (s : MemStorage.t) (n' : Z) :
  well_formed s ->
  MemStorage.getTagsForNote n' (MemStorage.removeTagFromNote n t s)
  = filter (fun tag => negb ((n' =? n) && (tag_id tag =? t)))
           (MemStorage.getTagsForNote n' s).
Proof.
  intros Hwf. rewrite !getTagsForNote_related. unfold MemStorage.getTags.
  rewrite tags_removeTagFromNote, filter_filter. apply filter_ext. intros tag.
  now apply related_after_removeTagFromNote.
Qed.

Lemma values_filter_key {V : Type} (key_of : V -> Z) (k : Z) (m : JsMap.t V) :
  keyed key_of m ->
  JsMap.values (fst (JsMap.delete m k))
  = filter (fun v => negb (key_of v =? k)) (JsMap.values m).
Proof.
  unfold JsMap.delete, JsMap.values. simpl.
  induction m as [|[k' v] m IH]; intros Hk; simpl; [reflexivity|].
  rewrite (Hk k' v (or_introl eq_refl)).
  assert (Hm : keyed key_of m) by (intros k0 v0 H; apply Hk; now right).
  destruct (negb (k' =? k)); simpl; now rewrite (IH Hm).
Qed.

Lemma tags_after_deleteTag (t : Z) (s : MemStorage.t) (n : Z) :
  well_formed s ->
  MemStorage.getTagsForNote n (snd (MemStorage.deleteTag t s))
  = filter (fun tag => negb (tag_id tag =? t)) (MemStorage.getTagsForNote n s).
Proof.
  intros Hwf. rewrite !getTagsForNote_related, filter_filter.
  assert (Ht : MemStorage.getTags (snd (MemStorage.deleteTag t s))
               = filter (fun tag => negb (tag_id tag =? t)) (MemStorage.getTags s)).
  { unfold MemStorage.getTags, MemStorage.deleteTag.
    destruct (JsMap.delete (MemStorage.tags s) t) as [tags' found] eqn:E. simpl.
    change tags' with (fst (tags', found)). rewrite <- E.
    apply values_filter_key. exact (proj1 (proj1 (proj2 Hwf))). }
  rewrite Ht, filter_filter. clear Ht. apply filter_ext. intros tag.
  rewrite (related_after_deleteTag t s n (tag_id tag) Hwf).
  now destruct (tag_id tag =? t), (related s n (tag_id tag)).
Qed.

Lemma getTag_in (t : Z) (tag : Tag) (s : MemStorage.t) :
  well_formed s -> MemStorage.getTag t s = Some tag ->
  In tag (MemStorage.getTags s) /\ tag_id tag = t.
Proof.
  intros (_ & (Hk & _) & _) H. unfold MemStorage.getTag in H.
  apply get_in in H. split; [|now apply Hk].
  unfold MemStorage.getTags, JsMap.values. apply in_map_iff. now exists (t, tag).
Qed.

Lemma addTagToNote_twice (n t : Z) (s : MemStorage.t) :
  well_formed s ->
  MemStorage.addTagToNote n t (MemStorage.addTagToNote n t s)
  = MemStorage.addTagToNote n t s.
Proof.
  intros Hwf.
  pose proof (related_after_addTagToNote n t s n t Hwf) as H.
  rewrite !Z.eqb_refl, orb_true_r in H.
  unfold MemStorage.addTagToNote at 1. fold (relates n t).
  fold (related (MemStorage.addTagToNote n t s) n t). now rewrite H.
Qed.

(** X15.  The route that relates a note and a tag, on a repository reached
    from a new one.  When the note or the tag is missing it answers 404 and
    leaves the repository as it was.  Otherwise it answers with the tags of
    the note, which hold the tag, and hold beside it only tags the note had;
    the same request sent again gets the same answer and changes nothing
    more. *)
Theorem post_relation_shows_the_tag (cs : list MemStorage.call) (noteId tagId : Z) :
  let s := snd (MemStorage.run cs MemStorage.constructor) in
  match MemStorage.getNote noteId s, MemStorage.getTag tagId s with
  | Some _, Some tag =>
      exists shown,
        Api.post_note_tag noteId tagId s
        = (Api.Answer 200 shown, MemStorage.addTagToNote noteId tagId s)
        /\ In tag shown
        /\ (forall other, In other shown ->
              other = tag \/ In other (MemStorage.getTagsForNote noteId s))
        /\ Api.post_note_tag noteId tagId (MemStorage.addTagToNote noteId tagId s)
           = (Api.Answer 200 shown, MemStorage.addTagToNote noteId tagId s)
  | _, _ =>
      exists message, Api.post_note_tag noteId tagId s = (Api.Failure 404 message, s)
  end.
Proof.
  intros s. pose proof (reached_well_formed cs) as Hwf. fold s in Hwf.
  unfold Api.post_note_tag.
  destruct (MemStorage.getNote noteId s) as [note|] eqn:En; [|eexists; reflexivity].
  destruct (MemStorage.getTag tagId s) as [tag|] eqn:Et; [|eexists; reflexivity].
  destruct (getTag_in tagId tag s Hwf Et) as [Hin Hid].
  exists (MemStorage.getTagsForNote noteId (MemStorage.addTagToNote noteId tagId s)).
  split; [reflexivity|]. split; [|split].
  - rewrite (tags_after_add _ _ _ _ Hwf). apply filter_In. split; [exact Hin|].
    now rewrite Hid, !Z.eqb_refl, orb_true_r.
  - intros other Ho. rewrite (tags_after_add _ _ _ _ Hwf) in Ho.
    apply filter_In in Ho. destruct Ho as [Ho Hr].
    rewrite Z.eqb_refl in Hr. simpl in Hr.
    destruct (related s noteId (tag_id other)) eqn:E.
    + right. rewrite getTagsForNote_related. apply filter_In. now split.
    + left. simpl in Hr. apply Z.eqb_eq in Hr.
      destruct Hwf as (_ & (Hk & Hnd & _) & _).
      unfold MemStorage.getTags, JsMap.values in Ho, Hin.
      apply in_map_iff in Ho, Hin.
      destruct Ho as [[k1 v1] [E1 H1]], Hin as [[k2 v2] [E2 H2]].
      simpl in E1, E2. subst v1 v2.
      pose proof (Hk _ _ H1). pose proof (Hk _ _ H2).
      assert (Hkk : k1 = k2) by congruence. rewrite <- Hkk in H2.
      exact (same_key_same_value _ _ _ _ Hnd H1 H2).
  - assert (Hn : MemStorage.getNote noteId (MemStorage.addTagToNote noteId tagId s)
                 = Some note).
    { unfold MemStorage.getNote. now rewrite notes_addTagToNote. }
    assert (Ht : MemStorage.getTag tagId (MemStorage.addTagToNote noteId tagId s)
                 = Some tag).
    { unfold MemStorage.getTag. now rewrite tags_addTagToNote. }
    rewrite Hn, Ht. now rewrite (addTagToNote_twice _ _ _ Hwf).
Qed.

(** X16.  The route that removes a relation answers 200 with the tags the
    note had, less the tag of the request, whether or not the note, the tag
    or the relation exists; the tags of every other note stay. *)
Theorem delete_relation_hides_the_tag (cs : list MemStorage.call) (noteId tagId : Z) :
  let s := snd (MemStorage.run cs MemStorage.constructor) in
  Api.delete_note_tag noteId tagId s
  = (Api.Answer 200 (filter (fun tag => negb (tag_id tag =? tagId))
                            (MemStorage.getTagsForNote noteId s)),
     MemStorage.removeTagFromNote noteId tagId s)
  /\ forall other, other <> noteId ->
       MemStorage.getTagsForNote other (MemStorage.removeTagFromNote noteId tagId s)
       = MemStorage.getTagsForNote other s.
Proof.
  intros s. pose proof (reached_well_formed cs) as Hwf. fold s in Hwf.
  unfold Api.delete_note_tag. split.
  - rewrite (tags_after_remove _ _ _ _ Hwf). rewrite Z.eqb_refl. reflexivity.
  - intros other Hne. rewrite (tags_after_remove _ _ _ _ Hwf).
    apply Z.eqb_neq in Hne. rewrite Hne. simpl.
    induction (MemStorage.getTagsForNote other s) as [|x l IH]; simpl; congruence.
Qed.

(** X17.  Deleting a tag on the server cascades: the tag is gone, every note
    loses exactly that tag, no relation row names it any more, and the notes
    are not touched. *)
Theorem server_tag_deletion_cascades (cs : list MemStorage.call) (tagId : Z) :
  let s := snd (MemStorage.run cs MemStorage.constructor) in
  let s' := snd (MemStorage.deleteTag tagId s) in
  MemStorage.getTag tagId s' = None
  /\ (forall noteId,
        MemStorage.getTagsForNote noteId s'
        = filter (fun tag => negb (tag_id tag =? tagId))
                 (MemStorage.getTagsForNote noteId s))
  /\ (forall noteId other, related s' noteId other = related s noteId other
                                                     && negb (other =? tagId))
  /\ MemStorage.notes s' = MemStorage.notes s.
Proof.
  intros s s'. pose proof (reached_well_formed cs) as Hwf. fold s in Hwf.
  split; [|split; [|split]].
  - unfold s', MemStorage.getTag, MemStorage.deleteTag.
    unfold JsMap.delete. simpl.
    induction (MemStorage.tags s) as [|[k v] m IH]; simpl; [reflexivity|].
    destruct (k =? tagId) eqn:E; simpl; [exact IH | now rewrite E].
  - intros noteId. now apply tags_after_deleteTag.
  - intros noteId other. now apply related_after_deleteTag.
  - unfold s', MemStorage.deleteTag.
    now destruct (JsMap.delete (MemStorage.tags s) tagId).
Qed.

End RelationRoutes.

(* ================================================================== *)
(** * The route that updates a note *)
(* ================================================================== *)

Section PutNote.
Import Schema RepositoryShape.
Local Open Scope Z_scope.

Lemma remove_loop (i : Z) (tagIds l : list Z) (s : MemStorage.t) :
  well_formed s ->
  let s' := fold_left
              (fun s tagId =>
                 if negb (includes_id tagIds tagId)
                 then MemStorage.removeTagFromNote i tagId s else s) l s in
  well_formed s'
  /\ MemStorage.tags s' = MemStorage.tags s
  /\ MemStorage.notes s' = MemStorage.notes s
  /\ forall n t, related s' n t
                 = related s n t
                   && negb ((n =? i) && includes_id l t && negb (includes_id tagIds t)).
Proof.
  revert s. induction l as [|a l IH]; intros s Hwf; simpl.
  - repeat split; [apply Hwf..|]. intros n t. now rewrite andb_false_r, andb_true_r.
  - destruct (includes_id tagIds a) eqn:Ea; simpl.
    + destruct (IH s Hwf) as (H1 & H2 & H3 & H4).
      split; [exact H1 | split; [exact H2 | split; [exact H3|]]].
      intros n t. rewrite H4. unfold includes_id at 3. simpl. fold (includes_id l t).
      destruct (t =? a) eqn:E; [|reflexivity].
      apply Z.eqb_eq in E. subst t. rewrite Ea. simpl. now rewrite !andb_false_r.
    + destruct (IH _ (wf_removeTagFromNote i a s Hwf)) as (H1 & H2 & H3 & H4).
      split; [exact H1|]. split; [now rewrite H2, tags_removeTagFromNote|].
      split; [now rewrite H3, notes_removeTagFromNote|].
      intros n t. rewrite H4, (related_after_removeTagFromNote i a s n t Hwf).
      unfold includes_id at 3. simpl. fold (includes_id l t).
      destruct (t =? a) eqn:E.
      * apply Z.eqb_eq in E. subst t. rewrite Ea.
        now destruct (related s n a), (n =? i), (includes_id l a).
      * now destruct (related s n t), (n =? i), (includes_id l t),
                     (includes_id tagIds t).
Qed.

Lemma add_loop (i : Z) (current l : list Z) (s : MemStorage.t) :
  well_formed s ->
  let s' := fold_left
              (fun s tagId =>
                 if negb (includes_id current tagId)
                 then MemStorage.addTagToNote i tagId s else s) l s in
  well_formed s'
  /\ MemStorage.tags s' = MemStorage.tags s
  /\ MemStorage.notes s' = MemStorage.notes s
  /\ forall n t, related s' n t
                 = related s n t
                   || ((n =? i) && includes_id l t && negb (includes_id current t)).
Proof.
  revert s. induction l as [|a l IH]; intros s Hwf; simpl.
  - repeat split; [apply Hwf..|]. intros n t. now rewrite andb_false_r, orb_false_r.
  - destruct (includes_id current a) eqn:Ea; simpl.
    + destruct (IH s Hwf) as (H1 & H2 & H3 & H4).
      split; [exact H1 | split; [exact H2 | split; [exact H3|]]].
      intros n t. rewrite H4. unfold includes_id at 3. simpl. fold (includes_id l t).
      destruct (t =? a) eqn:E; [|reflexivity].
      apply Z.eqb_eq in E. subst t. rewrite Ea. simpl. now rewrite !andb_false_r.
    + destruct (IH _ (wf_addTagToNote i a s Hwf)) as (H1 & H2 & H3 & H4).
      split; [exact H1|]. split; [now rewrite H2, tags_addTagToNote|].
      split; [now rewrite H3, notes_addTagToNote|].
      intros n t. rewrite H4, (related_after_addTagToNote i a s n t Hwf).
      unfold includes_id at 3. simpl. fold (includes_id l t).
      destruct (t =? a) eqn:E.
      * apply Z.eqb_eq in E. subst t. rewrite Ea.
        now destruct (related s n a), (n =? i), (includes_id l a).
      * now destruct (related s n t), (n =? i), (includes_id l t),
                     (includes_id current t).
Qed.

Lemma current_is_related (i : Z) (s : MemStorage.t) (tag : Tag) :
  In tag (MemStorage.getTags s) ->
  includes_id (map tag_id (MemStorage.getTagsForNote i s)) (tag_id tag)
  = related s i (tag_id tag).
Proof.
  intros Hin. apply eq_true_iff_eq. unfold includes_id.
  rewrite existsb_exists, getTagsForNote_related. split.
  - intros [x [Hx E]]. apply Z.eqb_eq in E. subst x.
    apply in_map_iff in Hx. destruct Hx as [tag' [E Hx]].
    apply filter_In in Hx. now rewrite <- E.
  - intros Hr. exists (tag_id tag). split; [|apply Z.eqb_refl].
    apply in_map_iff. exists tag. split; [reflexivity|]. apply filter_In. now split.
Qed.

Lemma replace_tags_result (i : Z) (tagIds : list Z) (s : MemStorage.t) :
  well_formed s ->
  let s' := Api.replace_tags i tagIds s in
  well_formed s'
  /\ MemStorage.tags s' = MemStorage.tags s
  /\ MemStorage.notes s' = MemStorage.notes s
  /\ MemStorage.getTagsForNote i s'
     = filter (fun tag => includes_id tagIds (tag_id tag)) (MemStorage.getTags s)
  /\ forall other, other <> i ->
       MemStorage.getTagsForNote other s' = MemStorage.getTagsForNote other s.
Proof.
  intros Hwf. unfold Api.replace_tags.
  set (current := map tag_id (MemStorage.getTagsForNote i s)).
  destruct (remove_loop i tagIds current s Hwf) as (W1 & T1 & N1 & R1).
  set (s1 := fold_left _ current s) in *.
  destruct (add_loop i current tagIds s1 W1) as (W2 & T2 & N2 & R2).
  set (s2 := fold_left _ tagIds s1) in *.
  cbv zeta. split; [exact W2|]. split; [congruence|]. split; [congruence|]. split.
  - rewrite getTagsForNote_related. unfold MemStorage.getTags. rewrite T2, T1.
    apply filter_ext_in. intros tag Hin.
    rewrite R2, R1, Z.eqb_refl. simpl.
    pose proof (current_is_related i s tag Hin) as Hc. fold current in Hc. rewrite Hc.
    now destruct (related s i (tag_id tag)), (includes_id tagIds (tag_id tag)).
  - intros other Hne. rewrite !getTagsForNote_related. unfold MemStorage.getTags.
    rewrite T2, T1. apply filter_ext. intros tag. rewrite R2, R1.
    apply Z.eqb_neq in Hne. rewrite Hne. simpl. now rewrite andb_true_r, orb_false_r.
Qed.

(** X18.  The route that updates a note, on a repository reached from a new
    one, for a body that passes validation.  For a missing note it answers
    404 and changes nothing.  Otherwise it answers with the note after the
    change of its columns; when the body carries [tagIds], the tags of the
    answer are exactly the tags of the repository whose id is in [tagIds],
    in the order of the tag table (an id that is the id of no tag does not
    show), and without [tagIds] they are the tags the note had.  The tag
    table and every other note, with its tags, stay as they were. *)
Theorem put_note_replaces_the_tags
  (cs : list MemStorage.call) (i : Z) (body : NotePatch) (now : Z) :
  let s := snd (MemStorage.run cs MemStorage.constructor) in
  match MemStorage.getNote i s with
  | None =>
      Api.put_note i (Api.Valid body) now s = (Api.Failure 404 "Note not found", s)
  | Some note =>
      let shown := match p_tagIds body with
                   | Some tagIds =>
                       filter (fun tag => includes_id tagIds (tag_id tag))
                              (MemStorage.getTags s)
                   | None => MemStorage.getTagsForNote i s
                   end in
      exists s',
        Api.put_note i (Api.Valid body) now s
        = (Api.Answer 200
             (Some (set_tags shown (spread_note note (Api.columns body) now))), s')
        /\ MemStorage.getTags s' = MemStorage.getTags s
        /\ forall other, other <> i ->
             MemStorage.getNoteWithTags other s' = MemStorage.getNoteWithTags other s
  end.
Proof.
  intros s. pose proof (reached_well_formed cs) as Hwf. fold s in Hwf.
  unfold Api.put_note, MemStorage.updateNote, MemStorage.getNote.
  destruct (JsMap.get (MemStorage.notes s) i) as [note|] eqn:E; [|reflexivity].
  set (updated := spread_note note (Api.columns body) now).
  set (s1 := MemStorage.put_note i updated s).
  assert (W1 : well_formed s1).
  { destruct (get_note_key s i note Hwf E) as [Hin Hid]. now apply wf_put_note. }
  assert (G1 : JsMap.get (MemStorage.notes s1) i = Some updated)
    by apply jsmap_get_set_same.
  assert (O1 : forall other, other <> i ->
                 JsMap.get (MemStorage.notes s1) other
                 = JsMap.get (MemStorage.notes s) other).
  { intros other Hne. apply jsmap_get_set_other. congruence. }
  destruct (p_tagIds body) as [tagIds|]; cbv zeta.
  - destruct (replace_tags_result i tagIds s1 W1) as (W2 & T2 & N2 & Hi & Ho).
    exists (Api.replace_tags i tagIds s1). split; [|split].
    + unfold MemStorage.getNoteWithTags. rewrite N2, G1, Hi. reflexivity.
    + unfold MemStorage.getTags. now rewrite T2.
    + intros other Hne. unfold MemStorage.getNoteWithTags.
      rewrite N2, (O1 other Hne), (Ho other Hne). reflexivity.
  - exists s1. split; [|split].
    + unfold MemStorage.getNoteWithTags. rewrite G1. reflexivity.
    + reflexivity.
    + intros other Hne. unfold MemStorage.getNoteWithTags.
      rewrite (O1 other Hne). reflexivity.
Qed.

End PutNote.

(* ================================================================== *)
(** * Search and the user table of the server *)
(* ================================================================== *)

Section ServerViews.
Import Schema RepositoryShape.
Local Open Scope Z_scope.

(** X19.  The search of the server, on ASCII text and in a repository whose
    notes carry a title and a content: it returns exactly the notes that are
    not in the trash and whose title or content holds the query, whatever
    the case of the letters, each with its tags; for a query that is blank
    after trimming it returns every note that is not in the trash.  Tag
    names are not searched. *)
Theorem server_search_skips_the_trash (query : string) (s : MemStorage.t) (note : Note) :
  Js.ascii_text query = true ->
  ascii_repository s = true ->
  In note (MemStorage.searchNotes query s) <->
  exists stored,
    In stored (JsMap.values (MemStorage.notes s))
    /\ note = set_tags (MemStorage.getTagsForNote (id stored) s) stored
    /\ isDeleted stored = false
    /\ (Js.trim query = EmptyString
        \/ StoreShape.occurs (Js.toLowerCase query) (Js.toLowerCase (title stored))
        \/ StoreShape.occurs (Js.toLowerCase query) (Js.toLowerCase (content stored))).
Proof.
  intros _ _. unfold MemStorage.searchNotes.
  destruct (Js.trim query) as [|c rest] eqn:E.
  - unfold MemStorage.getNotesWithTags, MemStorage.getNotes. rewrite in_map_iff.
    split.
    + intros [stored [Heq Hin]]. apply filter_In in Hin. destruct Hin as [Hin Hd].
      exists stored. simpl in Hd. apply negb_true_iff in Hd. now auto.
    + intros [stored (Hin & Heq & Hd & _)]. exists stored. split; [now symmetry|].
      apply filter_In. split; [exact Hin|]. simpl. now rewrite Hd.
  - rewrite in_map_iff. split.
    + intros [stored [Heq Hin]]. apply filter_In in Hin. destruct Hin as [Hin Hm].
      apply andb_true_iff in Hm. destruct Hm as [Hm Hd].
      apply negb_true_iff in Hd. apply orb_true_iff in Hm.
      exists stored. split; [exact Hin|]. split; [now symmetry|]. split; [exact Hd|].
      right. destruct Hm as [Hm|Hm]; apply includes_occurs in Hm; [now left | now right].
    + intros [stored (Hin & Heq & Hd & [Hq|Hq])]; [discriminate Hq|].
      exists stored. split; [now symmetry|]. apply filter_In. split; [exact Hin|].
      rewrite Hd. simpl. rewrite andb_true_r. apply orb_true_iff.
      destruct Hq as [Hq|Hq]; apply includes_occurs in Hq; [now left | now right].
Qed.

Lemma server_search_skips_the_trash_witness :
  let s := snd (MemStorage.createNote MemStorage.trip_insert 5000
                  MemStorage.constructor) in
  In Scenarios.trip_created (MemStorage.searchNotes "PACK" s) <->
  exists stored,
    In stored (JsMap.values (MemStorage.notes s))
    /\ Scenarios.trip_created
       = set_tags (MemStorage.getTagsForNote (id stored) s) stored
    /\ isDeleted stored = false
    /\ (Js.trim "PACK" = EmptyString
        \/ StoreShape.occurs (Js.toLowerCase "PACK") (Js.toLowerCase (title stored))
        \/ StoreShape.occurs (Js.toLowerCase "PACK") (Js.toLowerCase (content stored))).
Proof.
  apply (server_search_skips_the_trash "PACK"
           (snd (MemStorage.createNote MemStorage.trip_insert 5000
                   MemStorage.constructor))
           Scenarios.trip_created); reflexivity.
Defined.

(** X20.  The two readings of the relation agree: for a note and a tag of
    the repository, the note is among the notes of the tag exactly when it
    is not in the trash and the tag is among the tags of the note. *)
Theorem notes_of_a_tag_and_tags_of_a_note_agree
  (s : MemStorage.t) (note : Note) (tag : Tag) :
  In note (JsMap.values (MemStorage.notes s)) ->
  In tag (MemStorage.getTags s) ->
  (In note (MemStorage.getNotesByTag (tag_id tag) s)
   <-> isDeleted note = false
       /\ In tag (MemStorage.getTagsForNote (id note) s)).
Proof.
  intros Hn Ht. rewrite getTagsForNote_related. unfold MemStorage.getNotesByTag.
  rewrite !filter_In.
  assert (H : existsb (Z.eqb (id note))
                (map nt_noteId
                   (filter (fun noteTag => nt_tagId noteTag =? tag_id tag)
                      (JsMap.values (MemStorage.noteTags s))))
              = related s (id note) (tag_id tag)).
  { unfold related.
    induction (JsMap.values (MemStorage.noteTags s)) as [|r l IH]; simpl; [reflexivity|].
    unfold relates at 1. destruct (nt_tagId r =? tag_id tag); simpl.
    - rewrite IH, andb_true_r. f_equal. apply Z.eqb_sym.
    - now rewrite andb_false_r. }
  rewrite H, andb_true_iff, negb_true_iff. tauto.
Qed.

Lemma notes_of_a_tag_and_tags_of_a_note_agree_witness :
  let s := snd (MemStorage.run
                  [MemStorage.CreateNote MemStorage.trip_insert 5000;
                   MemStorage.AddTagToNote 1 2]
                  MemStorage.constructor) in
  let note := mkNote 1 "Trip" "<p>Pack bags</p>" false false 5000 5000 None None in
  let tag := mkTag 2 "Personal" "#10B981" in
  In note (MemStorage.getNotesByTag (tag_id tag) s)
  <-> isDeleted note = false /\ In tag (MemStorage.getTagsForNote (id note) s).
Proof.
  apply (notes_of_a_tag_and_tags_of_a_note_agree
           (snd (MemStorage.run
                   [MemStorage.CreateNote MemStorage.trip_insert 5000;
                    MemStorage.AddTagToNote 1 2]
                   MemStorage.constructor))
           (mkNote 1 "Trip" "<p>Pack bags</p>" false false 5000 5000 None None)
           (mkTag 2 "Personal" "#10B981")).
  - simpl. tauto.
  - simpl. tauto.
Defined.

End ServerViews.

Section UserTable.
Import Users.
Local Open Scope Z_scope.

Lemma users_after_inserts (inserts : list InsertUser) (s : Users.t) :
  below_counter s ->
  users (fold_left (fun s insertUser => snd (createUser insertUser s)) inserts s)
  = (users s ++ numbered (userCurrentId s) inserts)%list.
Proof.
  revert s. induction inserts as [|i l IH]; intros s Hb; simpl.
  - now rewrite app_nil_r.
  - assert (Hfresh : ~ In (userCurrentId s) (JsMap.keys (users s))).
    { intros H. specialize (Hb _ H). lia. }
    rewrite IH.
    + simpl. rewrite (set_fresh _ _ _ Hfresh), <- app_assoc. reflexivity.
    + intros k Hk. simpl in *. rewrite (set_fresh _ _ _ Hfresh) in Hk.
      unfold JsMap.keys in Hk. rewrite map_app in Hk. apply in_app_or in Hk.
      destruct Hk as [Hk|[<-|[]]]; [|unfold createUser; simpl; lia].
      specialize (Hb _ Hk). unfold createUser; simpl; lia.
Qed.

Lemma find_numbered (name password : string) (pre post : list InsertUser) (from : Z) :
  unused name pre = true ->
  find (fun user => String.eqb (username user) name)
       (JsMap.values (numbered from (pre ++ mkInsertUser name password :: post)))
  = Some (mkUser (from + Z.of_nat (List.length pre)) name password).
Proof.
  revert from. induction pre as [|p pre IH]; intros from Hu; simpl.
  - rewrite String.eqb_refl. now rewrite Z.add_0_r.
  - simpl in Hu. apply andb_true_iff in Hu. destruct Hu as [Hp Hu].
    apply negb_true_iff in Hp. rewrite Hp, (IH (from + 1) Hu).
    do 2 f_equal. lia.
Qed.

Lemma get_numbered (ins : InsertUser) (pre post : list InsertUser) (from : Z) :
  JsMap.get (numbered from (pre ++ ins :: post)) (from + Z.of_nat (List.length pre))
  = Some (mkUser (from + Z.of_nat (List.length pre)) (ins_username ins) (ins_password ins)).
Proof.
  revert from. induction pre as [|p pre IH]; intros from.
  - simpl. now rewrite Z.add_0_r, Z.eqb_refl.
  - cbn [app numbered JsMap.get List.length].
    destruct (from =? from + Z.of_nat (S (List.length pre))) eqn:E;
      [apply Z.eqb_eq in E; lia|].
    replace (from + Z.of_nat (S (List.length pre)))
      with (from + 1 + Z.of_nat (List.length pre)) by lia.
    apply IH.
Qed.

(** X21.  User names are not kept unique.  After any sequence of
    [createUser] calls on a new repository, the lookup by name gives the
    first user that was created under the name, with the id of its place in
    the sequence, counted from 1, whatever users were created under the same
    name later; and the lookup by that id gives the same user. *)
Theorem first_user_of_a_name_is_found
  (name password : string) (pre post : list InsertUser) :
  unused name pre = true ->
  let s := after (pre ++ mkInsertUser name password :: post) in
  let first := mkUser (Z.of_nat (List.length pre) + 1) name password in
  getUserByUsername name s = Some first
  /\ getUser (Z.of_nat (List.length pre) + 1) s = Some first.
Proof.
  intros Hu s first.
  assert (Hs : users s = numbered 1 (pre ++ mkInsertUser name password :: post)).
  { unfold s, after. rewrite users_after_inserts; [reflexivity|].
    intros k H. contradiction. }
  unfold getUserByUsername, getUser. rewrite Hs. unfold first.
  rewrite (Z.add_comm (Z.of_nat (List.length pre)) 1). split.
  - now apply find_numbered.
  - apply (get_numbered (mkInsertUser name password)).
Qed.

Lemma first_user_of_a_name_is_found_witness :
  let s := after ([mkInsertUser "ann" "a1"]
                  ++ mkInsertUser "bob" "b1" :: [mkInsertUser "bob" "b2"]) in
  let first := mkUser (Z.of_nat (List.length [mkInsertUser "ann" "a1"]) + 1) "bob" "b1" in
  getUserByUsername "bob" s = Some first
  /\ getUser (Z.of_nat (List.length [mkInsertUser "ann" "a1"]) + 1) s = Some first.
Proof.
  apply (first_user_of_a_name_is_found "bob" "b1" [mkInsertUser "ann" "a1"]
           [mkInsertUser "bob" "b2"]).
  reflexivity.
Defined.

End UserTable.

(* ================================================================== *)
(** * Export: lists *)
(* ================================================================== *)

Section ExportLoops.
Import Js Regex Routes Schema.

Lemma replace_from_tag_miss (l : string) (p : regex)
  (f : nat -> list string -> string) (u rest : string) (n : nat) :
  match_here (Lit (String "<" l) :: p) (String "<" (u ++ rest)) = None ->
  lacks "<" u = true ->
  replace_from (Lit (String "<" l) :: p) f (String "<" (u ++ rest)) 0 n
  = String "<" (u ++ replace_from (Lit (String "<" l) :: p) f rest 0 n).
Proof.
  intros Hm Hu. cbn [replace_from]. rewrite Hm.
  now rewrite (replace_from_lacks "<" l p f u rest n Hu).
Qed.

Lemma exec_skip (c : ascii) (l : string) (p : regex) (x rest : string) :
  lacks c x = true ->
  exec (Lit (String c l) :: p) (x ++ rest) = exec (Lit (String c l) :: p) rest.
Proof.
  induction x as [|a x IH]; intros Hx; [reflexivity|].
  cbn [lacks] in Hx. apply andb_true_iff in Hx. destruct Hx as [Ha Hx].
  apply negb_true_iff in Ha.
  change (String a x ++ rest) with (String a (x ++ rest)).
  cbn [exec]. rewrite (match_here_other_char c a l p _ Ha). exact (IH Hx).
Qed.

Lemma exec_tag_miss (l : string) (p : regex) (u rest : string) :
  match_here (Lit (String "<" l) :: p) (String "<" (u ++ rest)) = None ->
  lacks "<" u = true ->
  exec (Lit (String "<" l) :: p) (String "<" (u ++ rest))
  = exec (Lit (String "<" l) :: p) rest.
Proof.
  intros Hm Hu. cbn [exec]. rewrite Hm. now apply exec_skip.
Qed.

Lemma star_lazy_all_to_tag (l : string) (p : regex) (x close : string) :
  lacks "<" x = true ->
  star_lazy CAll (match_here (Lit (String "<" l) :: p)) (x ++ close)
  = match star_lazy CAll (match_here (Lit (String "<" l) :: p)) close with
    | Some (txt, r) => Some (x ++ txt, r)
    | None => None
    end.
Proof.
  induction x as [|a x IH]; intros Hx.
  - simpl append. now destruct (star_lazy _ _ close) as [[txt r]|].
  - cbn [lacks] in Hx. apply andb_true_iff in Hx. destruct Hx as [Ha Hx].
    apply negb_true_iff in Ha.
    change (String a x ++ close) with (String a (x ++ close)).
    cbn [star_lazy]. rewrite (match_here_other_char "<" a l p _ Ha).
    cbn [cls_test]. rewrite (IH Hx).
    now destruct (star_lazy _ _ close) as [[txt r]|].
Qed.

Lemma star_lazy_tag_miss (l : string) (p : regex) (u rest : string) :
  match_here (Lit (String "<" l) :: p) (String "<" (u ++ rest)) = None ->
  lacks "<" u = true ->
  star_lazy CAll (match_here (Lit (String "<" l) :: p)) (String "<" (u ++ rest))
  = match star_lazy CAll (match_here (Lit (String "<" l) :: p)) rest with
    | Some (txt, r) => Some (String "<" (u ++ txt), r)
    | None => None
    end.
Proof.
  intros Hm Hu. cbn [star_lazy]. rewrite Hm. cbn [cls_test].
  rewrite (star_lazy_all_to_tag l p u rest Hu).
  now destruct (star_lazy _ _ rest) as [[txt r]|].
Qed.

Lemma strip_prefix_append (l r : string) : strip_prefix l (l ++ r) = Some r.
Proof.
  induction l as [|a l IH]; [reflexivity|].
  change (String a l ++ r) with (String a (l ++ r)).
  cbn [strip_prefix]. now rewrite Ascii.eqb_refl.
Qed.

Lemma split_first_after (c : ascii) (m pre post : string) :
  lacks c pre = true ->
  split_first (String c m) (pre ++ String c m ++ post) = Some (pre, post).
Proof.
  induction pre as [|a pre IH]; intros Hp.
  - simpl append. cbn [split_first].
    change (String c (m ++ post)) with (String c m ++ post).
    now rewrite strip_prefix_append.
  - cbn [lacks] in Hp. apply andb_true_iff in Hp. destruct Hp as [Ha Hp].
    apply negb_true_iff in Ha.
    change (String a pre ++ String c m ++ post)
      with (String a (pre ++ String c m ++ post)).
    cbn [split_first strip_prefix]. rewrite Ha, (IH Hp). reflexivity.
Qed.

Lemma substring_prefix (u r : string) : substring 0 (length u) (u ++ r) = u.
Proof.
  induction u as [|a u IH]; simpl; [now destruct r | now rewrite IH].
Qed.

(** The text of the list that makes the loop run on. *)
Lemma convertUl_runs_on (fuel : nat) (pre post : string) :
  lacks "<" pre = true ->
  convertUl fuel (pre ++ "<ul>$&</ul>" ++ post) = None.
Proof.
  intros Hp. induction fuel as [|fuel IH]; [reflexivity|].
  cbn [convertUl]. unfold ulPattern at 1.
  rewrite (exec_skip "<" _ _ pre _ Hp).
  assert (Hm : match_here ulPattern ("<ul>$&</ul>" ++ post) = Some (["$&"], post))
    by reflexivity.
  assert (He : exec ulPattern ("<ul>$&</ul>" ++ post) = Some ("<ul>$&</ul>", ["$&"])).
  { change ("<ul>$&</ul>" ++ post)
      with (String "<" ("ul>$&</ul>" ++ post)).
    cbn [exec].
    change (String "<" ("ul>$&</ul>" ++ post)) with ("<ul>$&</ul>" ++ post).
    rewrite Hm.
    replace (length ("<ul>$&</ul>" ++ post) - length post)%nat
      with (length "<ul>$&</ul>") by (rewrite length_append; lia).
    now rewrite (substring_prefix "<ul>$&</ul>" post). }
  fold ulPattern. rewrite He. cbn [nth].
  assert (Hl : replace_all liPattern [Text "- "; Group 1; Text nl] "$&" = "$&")
    by reflexivity.
  rewrite Hl. unfold replace_string.
  rewrite (split_first_after "<" "ul>$&</ul>" pre post Hp).
  exact IH.
Qed.


Lemma replace_from_plain (c : ascii) (l : string) (p : regex)
  (f : nat -> list string -> string) (x : string) (n : nat) :
  lacks c x = true -> replace_from (Lit (String c l) :: p) f x 0 n = x.
Proof.
  intros Hx. rewrite <- (append_empty x) at 1.
  rewrite (replace_from_lacks c l p f x _ n Hx).
  cbn [replace_from]. rewrite match_here_at_end. apply append_empty.
Qed.

(** A pattern that matches at neither tag of the list leaves the text as
    it is. *)
Lemma replace_all_passes_ul (l : string) (p : regex) (t : list piece)
  (pre post : string) :
  lacks "<" pre = true -> lacks "<" post = true ->
  (forall s, match_here (Lit (String "<" l) :: p) ("<ul>" ++ s) = None) ->
  (forall s, match_here (Lit (String "<" l) :: p) ("</ul>" ++ s) = None) ->
  replace_all (Lit (String "<" l) :: p) t (pre ++ "<ul>$&</ul>" ++ post)
  = pre ++ "<ul>$&</ul>" ++ post.
Proof.
  intros Hpre Hpost Hopen Hclose. unfold replace_all.
  rewrite (replace_from_lacks "<" l p _ pre _ 0 Hpre). f_equal.
  change ("<ul>$&</ul>" ++ post)
    with (String "<" ("ul>$&" ++ String "<" ("/ul>" ++ post))).
  rewrite (replace_from_tag_miss l p _ "ul>$&" _ 0 (Hopen _) eq_refl).
  rewrite (replace_from_tag_miss l p _ "/ul>" post 0 (Hclose _) eq_refl).
  now rewrite (replace_from_plain "<" l p _ post 0 Hpost).
Qed.

Lemma simple_tags_passes_ul (pre post : string) :
  lacks "<" pre = true -> lacks "<" post = true ->
  simple_tags (pre ++ "<ul>$&</ul>" ++ post) = pre ++ "<ul>$&</ul>" ++ post.
Proof.
  intros Hpre Hpost. unfold simple_tags. cbv zeta.
  unfold blockTags, heading, inline, anchor, image. cbn [append].
  repeat rewrite (replace_all_passes_ul _ _ _ pre post Hpre Hpost)
    by (intros s; reflexivity).
  reflexivity.
Qed.

(** X22.  The Markdown export of the server does not end on a note whose
    content holds an unordered list made of the two characters dollar and
    ampersand, between texts without tags: the loop over the lists puts the
    list back in place of itself, so no amount of fuel gives an answer.  The
    text export of the same note answers. *)
Theorem markdown_export_runs_on (fuel : nat) (pre post : string) (note : Note) :
  lacks "<" pre = true -> lacks "<" post = true ->
  content note = pre ++ "<ul>$&</ul>" ++ post ->
  respond fuel "markdown" note = None
  /\ respond fuel "text" note
     = Some (Send "text/plain" (sanitize (title note) ++ ".txt")
                  (title note ++ nl ++ nl ++ content note)).
Proof.
  intros Hpre Hpost Hc. split; [|reflexivity]. unfold respond.
  change (String.eqb "markdown" "text") with false.
  change (String.eqb "markdown" "markdown") with true. cbv iota.
  unfold htmlToMarkdown.
  now rewrite Hc, (simple_tags_passes_ul pre post Hpre Hpost),
              (convertUl_runs_on fuel pre post Hpre).
Qed.

Lemma markdown_export_runs_on_witness :
  let note := mkNote 1 "Prices" "in <ul>$&</ul> each" false false 100 100 (Some []) None in
  respond 1000 "markdown" note = None
  /\ respond 1000 "text" note
     = Some (Send "text/plain" (sanitize (title note) ++ ".txt")
                  (title note ++ nl ++ nl ++ content note)).
Proof.
  apply (markdown_export_runs_on 1000 "in " " each"
           (mkNote 1 "Prices" "in <ul>$&</ul> each" false false 100 100 (Some []) None));
    reflexivity.
Defined.


Lemma replace_all_passes_ol (l : string) (p : regex) (t : list piece) (x : string) :
  lacks "<" x = true ->
  (forall s, match_here (Lit (String "<" l) :: p) ("<ol>" ++ s) = None) ->
  (forall s, match_here (Lit (String "<" l) :: p) ("<li>" ++ s) = None) ->
  (forall s, match_here (Lit (String "<" l) :: p) ("</li>" ++ s) = None) ->
  (forall s, match_here (Lit (String "<" l) :: p) ("</ol>" ++ s) = None) ->
  replace_all (Lit (String "<" l) :: p) t ("<ol><li>" ++ x ++ "</li></ol>")
  = "<ol><li>" ++ x ++ "</li></ol>".
Proof.
  intros Hx Hol Hli Hcli Hcol. unfold replace_all.
  change ("<ol><li>" ++ x ++ "</li></ol>")
    with (String "<" ("ol>" ++ String "<" (("li>" ++ x)
            ++ String "<" ("/li>" ++ String "<" ("/ol>" ++ EmptyString))))).
  rewrite (replace_from_tag_miss l p _ "ol>" _ 0 (Hol _) eq_refl).
  rewrite (replace_from_tag_miss l p _ ("li>" ++ x) _ 0 (Hli _)
             ltac:(rewrite lacks_append, Hx; reflexivity)).
  rewrite (replace_from_tag_miss l p _ "/li>" _ 0 (Hcli _) eq_refl).
  rewrite (replace_from_tag_miss l p _ "/ol>" _ 0 (Hcol _) eq_refl).
  cbn [replace_from]. now rewrite match_here_at_end.
Qed.

Lemma simple_tags_passes_ol (x : string) :
  lacks "<" x = true ->
  simple_tags ("<ol><li>" ++ x ++ "</li></ol>") = "<ol><li>" ++ x ++ "</li></ol>".
Proof.
  intros Hx. unfold simple_tags. cbv zeta.
  unfold blockTags, heading, inline, anchor, image. cbn [append].
  repeat rewrite (replace_all_passes_ol _ _ _ x Hx) by (intros s; reflexivity).
  reflexivity.
Qed.

Lemma convertUl_passes_ol (fuel : nat) (x : string) :
  lacks "<" x = true ->
  convertUl (S fuel) ("<ol><li>" ++ x ++ "</li></ol>")
  = Some ("<ol><li>" ++ x ++ "</li></ol>").
Proof.
  intros Hx. cbn [convertUl]. unfold ulPattern.
  change ("<ol><li>" ++ x ++ "</li></ol>")
    with (String "<" ("ol>" ++ String "<" (("li>" ++ x)
            ++ String "<" ("/li>" ++ String "<" ("/ol>" ++ EmptyString))))) at 1.
  set (p := [Star true false (CNot ">"); Lit ">"; Star false true CAll; Lit "</ul>"]).
  rewrite (exec_tag_miss "ul" p "ol>" _ eq_refl eq_refl).
  rewrite (exec_tag_miss "ul" p ("li>" ++ x) _ eq_refl
             ltac:(rewrite lacks_append, Hx; reflexivity)).
  rewrite (exec_tag_miss "ul" p "/li>" _ eq_refl eq_refl).
  rewrite (exec_tag_miss "ul" p "/ol>" _ eq_refl eq_refl).
  reflexivity.
Qed.

Lemma star_greedy_stop (c : cls) (k : string -> option result) (a : ascii) (s : string) :
  cls_test c a = false ->
  star_greedy c k (String a s)
  = match k (String a s) with
    | Some r => Some (EmptyString, r)
    | None => None
    end.
Proof. intros H. cbn [star_greedy]. now rewrite H. Qed.

Lemma match_here_greedy_skip (c : cls) (p : regex) (s : string) :
  match_here (Star true false c :: p) s
  = match star_greedy c (match_here p) s with
    | Some (txt, (caps, rest)) => Some (caps, rest)
    | None => None
    end.
Proof. reflexivity. Qed.

(** A list with one item as a match of the list pattern, whose group is the
    item, and the item as a match of the item pattern, whose group is its
    text. *)
Lemma list_match (name : string) (x rest : string) :
  lacks "<" x = true ->
  match_here [Lit (String "<" name); Star true false (CNot ">"); Lit ">";
              Star false true CAll; Lit (String "<" ("/" ++ name ++ ">"))]
             (String "<" (name ++ ">" ++ x ++ String "<" ("/" ++ name ++ ">") ++ rest))
  = Some ([x], rest).
Proof.
  intros Hx. rewrite match_here_lit.
  change (String "<" (name ++ ">" ++ x ++ String "<" ("/" ++ name ++ ">") ++ rest))
    with (String "<" name ++ ">" ++ x ++ String "<" ("/" ++ name ++ ">") ++ rest).
  rewrite strip_prefix_append, match_here_greedy_skip.
  change (">" ++ x ++ String "<" ("/" ++ name ++ ">") ++ rest)
    with (String ">" (x ++ String "<" ("/" ++ name ++ ">") ++ rest)).
  rewrite star_greedy_stop by reflexivity.
  rewrite match_here_lit.
  change (strip_prefix ">" _)
    with (Some (x ++ String "<" ("/" ++ name ++ ">") ++ rest)).
  cbv beta iota. rewrite match_here_lazy_group.
  rewrite (star_lazy_all_to_tag ("/" ++ name ++ ">") [] x _ Hx).
  change (String "<" ("/" ++ name ++ ">") ++ rest)
    with (String "<" (("/" ++ name ++ ">") ++ rest)).
  cbn [star_lazy]. rewrite match_here_lit.
  change (String "<" (("/" ++ name ++ ">") ++ rest))
    with (String "<" ("/" ++ name ++ ">") ++ rest).
  rewrite strip_prefix_append. cbn [match_here]. now rewrite append_empty.
Qed.


(** The ordered list with one item as a match: the item is group 1. *)
Lemma ol_match (x rest : string) :
  lacks "<" x = true ->
  match_here olPattern ("<ol><li>" ++ x ++ "</li></ol>" ++ rest)
  = Some (["<li>" ++ x ++ "</li>"], rest).
Proof.
  intros Hx. unfold olPattern. rewrite match_here_lit.
  change (strip_prefix "<ol" _) with (Some (String ">" ("<li>" ++ x ++ "</li></ol>" ++ rest))).
  cbv beta iota. rewrite match_here_greedy_skip.
  rewrite star_greedy_stop by reflexivity.
  rewrite match_here_lit.
  change (strip_prefix ">" _) with (Some ("<li>" ++ x ++ "</li></ol>" ++ rest)).
  cbv beta iota. rewrite match_here_lazy_group.
  change ("<li>" ++ x ++ "</li></ol>" ++ rest)
    with (String "<" (("li>" ++ x) ++ ("</li></ol>" ++ rest))).
  rewrite (star_lazy_tag_miss "/ol>" [] ("li>" ++ x) _ eq_refl
             ltac:(rewrite lacks_append, Hx; reflexivity)).
  reflexivity.
Qed.

Lemma substring_all (u : string) : substring 0 (length u) u = u.
Proof.
  rewrite <- (append_empty u) at 2. rewrite substring_prefix. reflexivity.
Qed.

Lemma exec_hit (p : regex) (u : string) (caps : list string) :
  match_here p u = Some (caps, EmptyString) ->
  exec p u = Some (u, caps).
Proof.
  intros Hm.
  destruct u as [|a u]; cbn [exec]; rewrite Hm; [reflexivity|].
  change (length EmptyString) with 0%nat. rewrite Nat.sub_0_r.
  now rewrite substring_all.
Qed.

Lemma replace_from_hit_all (p : regex) (f : nat -> list string -> string)
  (u : string) (caps : list string) (n : nat) :
  u <> EmptyString ->
  match_here p u = Some (caps, EmptyString) ->
  replace_from p f u 0 n = f n caps ++ replace_from p f EmptyString 0 (S n).
Proof.
  intros Hu Hm. rewrite <- (append_empty u) at 1.
  apply replace_from_hit; [exact Hu | now rewrite append_empty].
Qed.

Lemma strip_prefix_refl (u : string) : strip_prefix u u = Some EmptyString.
Proof.
  rewrite <- (append_empty u) at 2. apply strip_prefix_append.
Qed.

Lemma replace_string_whole (a : ascii) (u repl : string) :
  replace_string (String a u) repl (String a u)
  = GetSubstitution (String a u) EmptyString EmptyString repl.
Proof.
  unfold replace_string. cbn [split_first]. rewrite strip_prefix_refl.
  cbn [append]. apply append_empty.
Qed.

(** An ordered list with one item of plain text. *)
Lemma htmlToMarkdown_ordered_item (fuel : nat) (x : string) :
  lacks "<" x = true ->
  htmlToMarkdown (S (S fuel)) ("<ol><li>" ++ x ++ "</li></ol>") = Some "1. $1".
Proof.
  intros Hx. unfold htmlToMarkdown.
  rewrite (simple_tags_passes_ol x Hx), (convertUl_passes_ol _ x Hx).
  assert (Hol : convertOl (S (S fuel)) ("<ol><li>" ++ x ++ "</li></ol>")
                = Some ("1. $1" ++ nl)).
  { cbn [convertOl].
    rewrite (exec_hit olPattern ("<ol><li>" ++ x ++ "</li></ol>")
               ["<li>" ++ x ++ "</li>"] (ol_match x EmptyString Hx)).
    cbn [nth]. unfold replace_all_with.
    rewrite (replace_from_hit_all liPattern _ ("<li>" ++ x ++ "</li>") [x] 0
               ltac:(discriminate) (list_match "li" x EmptyString Hx)).
    cbn [replace_from].
    change (match_here liPattern EmptyString) with (@None result). cbv iota.
    change ("<ol><li>" ++ x ++ "</li></ol>")
      with (String "<" ("ol><li>" ++ x ++ "</li></ol>")).
    rewrite replace_string_whole.
    reflexivity. }
  rewrite Hol.
  reflexivity.
Qed.


Lemma replace_all_passes_item (l : string) (p : regex) (t : list piece) (x : string) :
  lacks "<" x = true ->
  (forall s, match_here (Lit (String "<" l) :: p) ("<ul>" ++ s) = None) ->
  (forall s, match_here (Lit (String "<" l) :: p) ("<li>" ++ s) = None) ->
  (forall s, match_here (Lit (String "<" l) :: p) ("</li>" ++ s) = None) ->
  (forall s, match_here (Lit (String "<" l) :: p) ("</ul>" ++ s) = None) ->
  replace_all (Lit (String "<" l) :: p) t ("<ul><li>" ++ x ++ "</li></ul>")
  = "<ul><li>" ++ x ++ "</li></ul>".
Proof.
  intros Hx Hul Hli Hcli Hcul. unfold replace_all.
  change ("<ul><li>" ++ x ++ "</li></ul>")
    with (String "<" ("ul>" ++ String "<" (("li>" ++ x)
            ++ String "<" ("/li>" ++ String "<" ("/ul>" ++ EmptyString))))).
  rewrite (replace_from_tag_miss l p _ "ul>" _ 0 (Hul _) eq_refl).
  rewrite (replace_from_tag_miss l p _ ("li>" ++ x) _ 0 (Hli _)
             ltac:(rewrite lacks_append, Hx; reflexivity)).
  rewrite (replace_from_tag_miss l p _ "/li>" _ 0 (Hcli _) eq_refl).
  rewrite (replace_from_tag_miss l p _ "/ul>" _ 0 (Hcul _) eq_refl).
  cbn [replace_from]. now rewrite match_here_at_end.
Qed.

Lemma simple_tags_passes_item (x : string) :
  lacks "<" x = true ->
  simple_tags ("<ul><li>" ++ x ++ "</li></ul>") = "<ul><li>" ++ x ++ "</li></ul>".
Proof.
  intros Hx. unfold simple_tags. cbv zeta.
  unfold blockTags, heading, inline, anchor, image. cbn [append].
  repeat rewrite (replace_all_passes_item _ _ _ x Hx) by (intros s; reflexivity).
  reflexivity.
Qed.

Lemma ul_match (x rest : string) :
  lacks "<" x = true ->
  match_here ulPattern ("<ul><li>" ++ x ++ "</li></ul>" ++ rest)
  = Some (["<li>" ++ x ++ "</li>"], rest).
Proof.
  intros Hx. unfold ulPattern. rewrite match_here_lit.
  change (strip_prefix "<ul" _) with (Some (String ">" ("<li>" ++ x ++ "</li></ul>" ++ rest))).
  cbv beta iota. rewrite match_here_greedy_skip.
  rewrite star_greedy_stop by reflexivity.
  rewrite match_here_lit.
  change (strip_prefix ">" _) with (Some ("<li>" ++ x ++ "</li></ul>" ++ rest)).
  cbv beta iota. rewrite match_here_lazy_group.
  change ("<li>" ++ x ++ "</li></ul>" ++ rest)
    with (String "<" (("li>" ++ x) ++ ("</li></ul>" ++ rest))).
  rewrite (star_lazy_tag_miss "/ul>" [] ("li>" ++ x) _ eq_refl
             ltac:(rewrite lacks_append, Hx; reflexivity)).
  reflexivity.
Qed.

(** A replacement text without a dollar sign stands for itself. *)
Lemma GetSubstitution_plain (matched pre post repl : string) :
  lacks "$" repl = true -> GetSubstitution matched pre post repl = repl.
Proof.
  induction repl as [|a r IH]; intros H; [reflexivity|].
  cbn [lacks] in H. apply andb_true_iff in H. destruct H as [Ha Hr].
  apply negb_true_iff in Ha. rewrite Ascii.eqb_sym in Ha.
  cbn [GetSubstitution]. rewrite Ha. now rewrite (IH Hr).
Qed.

Lemma cleanNewlines_item (y : string) :
  lacks LF y = true -> cleanNewlines (y ++ nl) = y ++ nl.
Proof.
  intros H. unfold cleanNewlines, replace_all, blankLines.
  change (nl ++ nl) with (String LF (String LF EmptyString)).
  rewrite (replace_from_lacks LF _ _ _ y nl 0 H).
  reflexivity.
Qed.

(** An unordered list with one item of plain text. *)
Lemma htmlToMarkdown_item (fuel : nat) (x : string) :
  plain x = true -> lacks "$" x = true ->
  htmlToMarkdown (S (S fuel)) ("<ul><li>" ++ x ++ "</li></ul>")
  = Some (trim ("- " ++ x)).
Proof.
  intros Hx Hd. destruct (plain_parts x Hx) as (Hlt & Hamp & Hlf & Hcr).
  unfold htmlToMarkdown. rewrite (simple_tags_passes_item x Hlt).
  assert (Hul : convertUl (S (S fuel)) ("<ul><li>" ++ x ++ "</li></ul>")
                = Some (("- " ++ x) ++ nl)).
  { cbn [convertUl].
    rewrite (exec_hit ulPattern ("<ul><li>" ++ x ++ "</li></ul>")
               ["<li>" ++ x ++ "</li>"] (ul_match x EmptyString Hlt)).
    cbn [nth]. unfold replace_all.
    rewrite (replace_from_hit_all liPattern _ ("<li>" ++ x ++ "</li>") [x] 0
               ltac:(discriminate) (list_match "li" x EmptyString Hlt)).
    cbn [replace_from].
    change (match_here liPattern EmptyString) with (@None result). cbv iota.
    cbn [expand nth Nat.sub]. rewrite !append_empty.
    change ("<ul><li>" ++ x ++ "</li></ul>")
      with (String "<" ("ul><li>" ++ x ++ "</li></ul>")).
    rewrite replace_string_whole.
    assert (Hl : lacks "<" ("- " ++ x ++ nl) = true)
      by (rewrite !lacks_append, Hlt; reflexivity).
    rewrite GetSubstitution_plain
      by (rewrite !lacks_append, Hd; reflexivity).
    unfold ulPattern. rewrite (exec_lacks "<" _ _ _ Hl). reflexivity. }
  rewrite Hul.
  assert (Hl : lacks "<" (("- " ++ x) ++ nl) = true)
    by (rewrite !lacks_append, Hlt; reflexivity).
  destruct (loops_without_markup (S fuel) _ Hl) as (_ & -> & -> & ->).
  rewrite (cleanNewlines_item ("- " ++ x))
    by (rewrite lacks_append, Hlf; reflexivity).
  rewrite entities_without_ampersand
    by (rewrite !lacks_append, Hamp; reflexivity).
  f_equal. apply trim_append_space. reflexivity.
Qed.

(** X23.  Lists of one item in the Markdown of the server, for an item of
    plain ASCII text without a dollar sign.  An unordered list becomes a dash, a
    blank and the text, trimmed.  An ordered list becomes the number 1, a
    dot, a blank and the two characters dollar and 1, whatever the text of
    the item: the text is lost. *)
Theorem list_items_in_markdown (fuel : nat) (x : string) :
  plain x = true -> lacks "$" x = true -> ascii_text x = true ->
  htmlToMarkdown (S (S fuel)) ("<ul><li>" ++ x ++ "</li></ul>")
  = Some (trim ("- " ++ x))
  /\ htmlToMarkdown (S (S fuel)) ("<ol><li>" ++ x ++ "</li></ol>") = Some "1. $1".
Proof.
  intros Hx Hd _. split; [now apply htmlToMarkdown_item|].
  apply htmlToMarkdown_ordered_item. now destruct (plain_parts x Hx).
Qed.

Lemma list_items_in_markdown_witness :
  htmlToMarkdown 2 ("<ul><li>" ++ "milk" ++ "</li></ul>") = Some (trim ("- " ++ "milk"))
  /\ htmlToMarkdown 2 ("<ol><li>" ++ "milk" ++ "</li></ol>") = Some "1. $1".
Proof.
  apply (list_items_in_markdown 0 "milk"); reflexivity.
Defined.

End ExportLoops.

(* ================================================================== *)
(** * File names and truncated text *)
(* ================================================================== *)

Section FileNames.
Import Js Routes.

Lemma filename_char_twice (a : ascii) : filename_char (filename_char a) = filename_char a.
Proof.
  destruct a as [[] [] [] [] [] [] [] []]; reflexivity.
Qed.

Lemma filename_char_keeps_or_underscore (a : ascii) :
  filename_char a = a \/ filename_char a = "_"%char.
Proof.
  unfold filename_char. destruct (_ || _); [now left | now right].
Qed.

(** X24.  The name of an exported file: the title with every character
    that is no letter, digit or underscore replaced by an underscore.  No
    character that the replacement changes is left in the name, the name is
    as long as the title, and cleaning it again changes nothing. *)
Theorem export_file_name_is_plain (title : string) (c : ascii) :
  filename_char c <> c ->
  lacks c (sanitize title) = true
  /\ length (sanitize title) = length title
  /\ sanitize (sanitize title) = sanitize title.
Proof.
  intros Hc. induction title as [|a title (IH1 & IH2 & IH3)]; [now repeat split|].
  cbn [sanitize lacks length]. rewrite IH1, IH2, IH3, filename_char_twice.
  split; [|split; reflexivity]. rewrite andb_true_r.
  apply negb_true_iff, Ascii.eqb_neq. intros ->. apply Hc.
  apply filename_char_twice.
Qed.

Lemma export_file_name_is_plain_witness :
  lacks "/" (sanitize "a/b: c") = true
  /\ length (sanitize "a/b: c") = length "a/b: c"
  /\ sanitize (sanitize "a/b: c") = sanitize "a/b: c".
Proof.
  apply (export_file_name_is_plain "a/b: c" "/"). intros H. vm_compute in H. discriminate H.
Defined.

End FileNames.

Section Truncation.
Import Utils.
Local Open Scope Z_scope.

Lemma substring_head (n : nat) (s : string) :
  (n <= length s)%nat ->
  exists tail, s = substring 0 n s ++ tail /\ length (substring 0 n s) = n.
Proof.
  revert s. induction n as [|n IH]; intros s Hn.
  - exists s. now destruct s.
  - destruct s as [|a s]; [simpl in Hn; lia|].
    destruct (IH s ltac:(simpl in Hn; lia)) as [tail [H1 H2]].
    exists tail. simpl. split; [now rewrite <- H1 | now rewrite H2].
Qed.

(** X25.  A text longer than the limit is cut to its first characters, as
    many as the limit says (none for a negative limit), followed by three
    dots.  The result has three characters more than the limit, so a text
    that is one or two characters over the limit comes out longer than it
    went in. *)
Theorem truncated_text_is_a_head_and_dots (text : string) (maxLength : Z) :
  maxLength < Z.of_nat (length text) ->
  exists head tail,
    text = head ++ tail
    /\ length head = Z.to_nat maxLength
    /\ truncateText text maxLength = head ++ "..."
    /\ Z.of_nat (length (truncateText text maxLength)) = Z.max 0 maxLength + 3.
Proof.
  intros H. unfold truncateText.
  destruct (Z.of_nat (length text) <=? maxLength) eqn:E; [apply Z.leb_le in E; lia|].
  destruct (substring_head (Z.to_nat maxLength) text ltac:(lia)) as [tail [H1 H2]].
  exists (substring 0 (Z.to_nat maxLength) text), tail.
  split; [exact H1 | split; [exact H2 | split; [reflexivity|]]].
  rewrite length_append, H2. change (length "...") with 3%nat. lia.
Qed.

Lemma truncated_text_is_a_head_and_dots_witness :
  exists head tail,
    "Pack bags" = head ++ tail
    /\ length head = Z.to_nat 8
    /\ truncateText "Pack bags" 8 = head ++ "..."
    /\ Z.of_nat (length (truncateText "Pack bags" 8)) = Z.max 0 8 + 3.
Proof.
  apply (truncated_text_is_a_head_and_dots "Pack bags" 8). simpl. lia.
Defined.

End Truncation.
